(** * A shallow embedding of the out-of-order Tomasulo pipeline simulator

    The development follows the JavaScript source class by class:
    [Cache], [GsharePredictor], [Instruction] and [Simulator].  JavaScript
    numbers that the simulator manipulates are integers well inside the
    exactly representable range, and are modelled by [Z]; the 32-bit
    conversions that the bit operators and the typed arrays perform are
    written out ([JS.toInt32], [JS.toUint8]).  Mutable objects are modelled
    by explicit state passing. *)

From Stdlib Require Import ZArith Lia Bool.
From stdpp Require Import base option list strings gmap.

Local Open Scope Z_scope.

(** ** JavaScript integer operators *)

Module JS.

(** [ToInt32]: wrap to the signed 32-bit range. *)
Definition toInt32 (z : Z) : Z := (z + 2 ^ 31) mod 2 ^ 32 - 2 ^ 31.

(** Storing into a [Uint8Array]. *)
Definition toUint8 (z : Z) : Z := z mod 256.

(** [a >> b] *)
Definition sar (a b : Z) : Z := Z.shiftr (toInt32 a) (b mod 32).

(** [a << b] *)
Definition shl (a b : Z) : Z := toInt32 (Z.shiftl (toInt32 a) (b mod 32)).

(** [a & b], [a | b], [a ^ b] *)
Definition band (a b : Z) : Z := Z.land (toInt32 a) (toInt32 b).
Definition bor (a b : Z) : Z := Z.lor (toInt32 a) (toInt32 b).
Definition bxor (a b : Z) : Z := Z.lxor (toInt32 a) (toInt32 b).

(** [b ? 1 : 0] *)
Definition ofBool (b : bool) : Z := if b then 1 else 0.

(** Writing element [i] of a typed array of 32-bit integers: an index
    outside the array is ignored, the value is wrapped. *)
Definition int32ArraySet (i : Z) (v : Z) (a : list Z) : list Z :=
  if 0 <=? i then <[Z.to_nat i := toInt32 v]> a else a.

End JS.

(** ** class Cache *)

Module Cache.

Record Line := { tag : Z; lru : Z; dirty : bool }.

Record t := {
  name : string;
  latency : Z;
  missPenalty : Z;
  sets : nat;
  ways : nat;
  tags : list (list Line);
  accessCount : Z;
  hitCount : Z;
  missCount : Z
}.

Record Result := { hit : bool; cycles : Z }.

Definition invalidLine : Line := {| tag := -1; lru := 0; dirty := false |}.

(** [constructor(name, latency, missPenalty)] *)
Definition new (nm : string) (lat pen : Z) : t :=
  {| name := nm; latency := lat; missPenalty := pen;
     sets := 32; ways := 2;
     tags := replicate 32 (replicate 2 invalidLine);
     accessCount := 0; hitCount := 0; missCount := 0 |}.

(** The hit loop: the first way [i < ways] whose tag matches. *)
Fixpoint findWay (tg : Z) (i : nat) (set : list Line) : option nat :=
  match set with
  | [] => None
  | l :: set' => if tag l =? tg then Some i else findWay tg (S i) set'
  end.

(** The replacement loop, from way [i] on, with the running
    [victimIdx] and [minLru]. *)
Fixpoint victimFrom (i victimIdx : nat) (minLru : Z) (set : list Line) : nat :=
  match set with
  | [] => victimIdx
  | l :: set' =>
      if lru l <? minLru then victimFrom (S i) i (lru l) set'
      else victimFrom (S i) victimIdx minLru set'
  end.

Definition victim (set : list Line) : nat :=
  match set with
  | [] => 0%nat
  | l0 :: rest => victimFrom 1 0 (lru l0) rest
  end.

Definition setAccessCount (n : Z) (c : t) : t :=
  {| name := name c; latency := latency c; missPenalty := missPenalty c;
     sets := sets c; ways := ways c; tags := tags c;
     accessCount := n; hitCount := hitCount c; missCount := missCount c |}.

Definition setHitCount (n : Z) (c : t) : t :=
  {| name := name c; latency := latency c; missPenalty := missPenalty c;
     sets := sets c; ways := ways c; tags := tags c;
     accessCount := accessCount c; hitCount := n; missCount := missCount c |}.

Definition setMissCount (n : Z) (c : t) : t :=
  {| name := name c; latency := latency c; missPenalty := missPenalty c;
     sets := sets c; ways := ways c; tags := tags c;
     accessCount := accessCount c; hitCount := hitCount c; missCount := n |}.

Definition setTags (tg : list (list Line)) (c : t) : t :=
  {| name := name c; latency := latency c; missPenalty := missPenalty c;
     sets := sets c; ways := ways c; tags := tg;
     accessCount := accessCount c; hitCount := hitCount c;
     missCount := missCount c |}.

(** [access(addr, isWrite)].  [now] is the value that the call of
    [Date.now()] made by this access returns (each access makes exactly one
    such call, on the hit path or on the miss path). *)
Definition access (now : Z) (c : t) (addr : Z) (isWrite : bool) : t * Result :=
  let c := setAccessCount (accessCount c + 1) c in
  let index := Z.to_nat (JS.band (JS.sar addr 6) 31) in
  let tg := JS.sar addr 11 in
  let set := default [] (tags c !! index) in
  match findWay tg 0 (take (ways c) set) with
  | Some wayIdx =>
      let c := setHitCount (hitCount c + 1) c in
      let set' :=
        match set !! wayIdx with
        | Some l =>
            <[wayIdx := {| tag := tag l; lru := now;
                           dirty := if isWrite then true else dirty l |}]> set
        | None => set
        end in
      (setTags (<[index := set']> (tags c)) c,
       {| hit := true; cycles := latency c |})
  | None =>
      let c := setMissCount (missCount c + 1) c in
      let victimIdx := victim (take (ways c) set) in
      let set' := <[victimIdx := {| tag := tg; lru := now; dirty := isWrite |}]> set in
      (setTags (<[index := set']> (tags c)) c,
       {| hit := false; cycles := latency c + missPenalty c |})
  end.

End Cache.

(** ** class GsharePredictor *)

Module GsharePredictor.

Record t := { ghr : Z; pht : list Z }.

(** [constructor()]: history 0, 1024 counters at 1 (weakly not taken). *)
Definition new : t := {| ghr := 0; pht := replicate 1024 1 |}.

(** [(pc ^ this.ghr) & 0x3FF] *)
Definition index (p : t) (pc : Z) : Z := JS.band (JS.bxor pc (ghr p)) 1023.

(** [this.pht[i]] for an index inside the table. *)
Definition counter (p : t) (i : Z) : Z := default 0 (pht p !! Z.to_nat i).

Definition predict (p : t) (pc : Z) : bool :=
  2 <=? counter p (index p pc).

Definition update (p : t) (pc : Z) (taken : bool) : t :=
  let i := index p pc in
  let c := counter p i in
  let c' := if taken then (if c <? 3 then c + 1 else c)
            else (if 0 <? c then c - 1 else c) in
  {| pht := <[Z.to_nat i := JS.toUint8 c']> (pht p);
     ghr := JS.band (JS.bor (JS.shl (ghr p) 1) (JS.ofBool taken)) 1023 |}.

(** The shape a predictor object has: a 10-bit history and a table
    of 1024 two-bit counters. *)
Definition wf (p : t) : Prop :=
  0 <= ghr p < 1024 /\ length (pht p) = 1024%nat /\
  Forall (fun c => 0 <= c <= 3) (pht p).

End GsharePredictor.

(** ** Decoded instructions and the records of the pipeline *)

(** An entry of [this.instructions], as [loadProgram] stores it:
    [{ text, op, rd, rs1, rs2, imm }]. *)
Module Template.
Record t := {
  text : string; op : string; rd : Z; rs1 : Z; rs2 : Z; imm : Z
}.

(** Register indices as the data model has them ([0-31]). *)
Definition wf (x : t) : bool :=
  (0 <=? rd x) && (rd x <? 32) && (0 <=? rs1 x) && (rs1 x <? 32)
  && (0 <=? rs2 x) && (rs2 x <? 32).
End Template.

(** [class Instruction]: the in-flight instance held by a reservation
    station.  [totalCycles] is the property that issue adds to it. *)
Module Instruction.
Record t := {
  pc : Z; text : string; op : string; rd : Z; rs1 : Z; rs2 : Z; imm : Z;
  robTag : Z; predictedTaken : bool; targetAddr : Z;
  executionCyclesLeft : Z; isReady : bool; result : Z; memAddr : Z;
  isMemReady : bool; isStore : bool; isFlush : bool; totalCycles : Z
}.

(** [constructor(pc, text, op, rd, rs1, rs2, imm)] *)
Definition new (pc0 : Z) (text0 op0 : string) (rd0 rs10 rs20 imm0 : Z) : t :=
  {| pc := pc0; text := text0; op := op0; rd := rd0; rs1 := rs10;
     rs2 := rs20; imm := imm0; robTag := -1; predictedTaken := false;
     targetAddr := -1; executionCyclesLeft := 0; isReady := false;
     result := 0; memAddr := 0; isMemReady := false;
     isStore := String.eqb op0 "SW"; isFlush := false; totalCycles := 0 |}.

Definition setRobTag (v : Z) (x : t) : t :=
  {| pc := pc x; text := text x; op := op x; rd := rd x; rs1 := rs1 x;
     rs2 := rs2 x; imm := imm x; robTag := v;
     predictedTaken := predictedTaken x; targetAddr := targetAddr x;
     executionCyclesLeft := executionCyclesLeft x; isReady := isReady x;
     result := result x; memAddr := memAddr x; isMemReady := isMemReady x;
     isStore := isStore x; isFlush := isFlush x;
     totalCycles := totalCycles x |}.

Definition setPredictedTaken (v : bool) (x : t) : t :=
  {| pc := pc x; text := text x; op := op x; rd := rd x; rs1 := rs1 x;
     rs2 := rs2 x; imm := imm x; robTag := robTag x; predictedTaken := v;
     targetAddr := targetAddr x;
     executionCyclesLeft := executionCyclesLeft x; isReady := isReady x;
     result := result x; memAddr := memAddr x; isMemReady := isMemReady x;
     isStore := isStore x; isFlush := isFlush x;
     totalCycles := totalCycles x |}.

Definition setExecutionCyclesLeft (v : Z) (x : t) : t :=
  {| pc := pc x; text := text x; op := op x; rd := rd x; rs1 := rs1 x;
     rs2 := rs2 x; imm := imm x; robTag := robTag x;
     predictedTaken := predictedTaken x; targetAddr := targetAddr x;
     executionCyclesLeft := v; isReady := isReady x; result := result x;
     memAddr := memAddr x; isMemReady := isMemReady x;
     isStore := isStore x; isFlush := isFlush x;
     totalCycles := totalCycles x |}.

Definition setIsReady (v : bool) (x : t) : t :=
  {| pc := pc x; text := text x; op := op x; rd := rd x; rs1 := rs1 x;
     rs2 := rs2 x; imm := imm x; robTag := robTag x;
     predictedTaken := predictedTaken x; targetAddr := targetAddr x;
     executionCyclesLeft := executionCyclesLeft x; isReady := v;
     result := result x; memAddr := memAddr x; isMemReady := isMemReady x;
     isStore := isStore x; isFlush := isFlush x;
     totalCycles := totalCycles x |}.

Definition setResult (v : Z) (x : t) : t :=
  {| pc := pc x; text := text x; op := op x; rd := rd x; rs1 := rs1 x;
     rs2 := rs2 x; imm := imm x; robTag := robTag x;
     predictedTaken := predictedTaken x; targetAddr := targetAddr x;
     executionCyclesLeft := executionCyclesLeft x; isReady := isReady x;
     result := v; memAddr := memAddr x; isMemReady := isMemReady x;
     isStore := isStore x; isFlush := isFlush x;
     totalCycles := totalCycles x |}.

Definition setMemAddr (v : Z) (x : t) : t :=
  {| pc := pc x; text := text x; op := op x; rd := rd x; rs1 := rs1 x;
     rs2 := rs2 x; imm := imm x; robTag := robTag x;
     predictedTaken := predictedTaken x; targetAddr := targetAddr x;
     executionCyclesLeft := executionCyclesLeft x; isReady := isReady x;
     result := result x; memAddr := v; isMemReady := isMemReady x;
     isStore := isStore x; isFlush := isFlush x;
     totalCycles := totalCycles x |}.

Definition setTotalCycles (v : Z) (x : t) : t :=
  {| pc := pc x; text := text x; op := op x; rd := rd x; rs1 := rs1 x;
     rs2 := rs2 x; imm := imm x; robTag := robTag x;
     predictedTaken := predictedTaken x; targetAddr := targetAddr x;
     executionCyclesLeft := executionCyclesLeft x; isReady := isReady x;
     result := result x; memAddr := memAddr x; isMemReady := isMemReady x;
     isStore := isStore x; isFlush := isFlush x; totalCycles := v |}.
End Instruction.

(** The object literal pushed on [this.rob] at issue.  It has no
    [memAddr] property. *)
Module RobEntry.
Record t := {
  robTag : Z; op : string; rd : Z; pc : Z; instText : string;
  isReady : bool; result : Z; predictedTaken : bool; targetAddr : Z
}.

Definition setIsReady (v : bool) (x : t) : t :=
  {| robTag := robTag x; op := op x; rd := rd x; pc := pc x;
     instText := instText x; isReady := v; result := result x;
     predictedTaken := predictedTaken x; targetAddr := targetAddr x |}.

Definition setResult (v : Z) (x : t) : t :=
  {| robTag := robTag x; op := op x; rd := rd x; pc := pc x;
     instText := instText x; isReady := isReady x; result := v;
     predictedTaken := predictedTaken x; targetAddr := targetAddr x |}.

Definition setPredictedTaken (v : bool) (x : t) : t :=
  {| robTag := robTag x; op := op x; rd := rd x; pc := pc x;
     instText := instText x; isReady := isReady x; result := result x;
     predictedTaken := v; targetAddr := targetAddr x |}.

Definition setTargetAddr (v : Z) (x : t) : t :=
  {| robTag := robTag x; op := op x; rd := rd x; pc := pc x;
     instText := instText x; isReady := isReady x; result := result x;
     predictedTaken := predictedTaken x; targetAddr := v |}.
End RobEntry.

(** The object literal pushed on [this.lsq] at issue. *)
Module LsqEntry.
Record t := {
  robTag : Z; isStore : bool; memAddr : Z; value : Z; isMemReady : bool
}.

Definition setMemAddr (v : Z) (x : t) : t :=
  {| robTag := robTag x; isStore := isStore x; memAddr := v;
     value := value x; isMemReady := isMemReady x |}.

Definition setValue (v : Z) (x : t) : t :=
  {| robTag := robTag x; isStore := isStore x; memAddr := memAddr x;
     value := v; isMemReady := isMemReady x |}.

Definition setIsMemReady (v : bool) (x : t) : t :=
  {| robTag := robTag x; isStore := isStore x; memAddr := memAddr x;
     value := value x; isMemReady := v |}.
End LsqEntry.

(** A reservation station.  [initRS] creates [{ busy: false }], with no
    other property; issue fills the rest in, and completion only clears
    [busy]. *)
Module Station.
Record Fields := {
  inst : Instruction.t; op : string;
  vj : Z; vk : Z; qj : Z; qk : Z; robTag : Z
}.

Record t := { busy : bool; slot : option Fields }.

Definition free : t := {| busy := false; slot := None |}.

Definition setInst (i : Instruction.t) (f : Fields) : Fields :=
  {| inst := i; op := op f; vj := vj f; vk := vk f; qj := qj f; qk := qk f;
     robTag := robTag f |}.

(** [rs.vj = v; rs.qj = -1] *)
Definition captureJ (v : Z) (f : Fields) : Fields :=
  {| inst := inst f; op := op f; vj := v; vk := vk f; qj := -1; qk := qk f;
     robTag := robTag f |}.

(** [rs.vk = v; rs.qk = -1] *)
Definition captureK (v : Z) (f : Fields) : Fields :=
  {| inst := inst f; op := op f; vj := vj f; vk := v; qj := qj f; qk := -1;
     robTag := robTag f |}.
End Station.

(** The messages given to [log], one constructor per template literal,
    with the values interpolated into it. *)
Inductive LogMsg :=
| MsgLoaded                              (* Programa carregado. *)
| MsgFinished                            (* Execucao finalizada. *)
| MsgFlush (pc : Z)                      (* FLUSH! Branch em pc mal previsto. *)
| MsgCommitStore (result : Z)            (* COMMIT STORE: MEM[undefined] = result *)
| MsgExec (text : string) (val : Z)      (* EXEC: text -> Result: val *)
| MsgL1IMiss (pc : Z)                    (* L1I MISS em pc *)
| MsgBranchTaken (pc newPc : Z)          (* Branch pc previsto TOMADO -> newPc *)
| MsgIssue (text : string) (robTag : Z). (* ISSUE: text (ROB#robTag) *)

(** A line of [this.logs]: the cycle it is tagged with and the message. *)
Definition LogLine : Type := Z * LogMsg.

(** ** class Simulator *)

(** The fields of the simulator object ([cdb], which stays [null], is left
    out; rendering in [updateUI] only reads the state).  [memory] is the
    [Int32Array] of 65536 words, kept as the finite map of the words that
    were written, every other word being 0.  [dateNowCalls] is not a
    property of the object: it counts the calls of [Date.now()] made so
    far, so that the reading each call gets can be looked up in the
    environment. *)
Record Simulator := {
  memory : gmap Z Z;
  regFile : list Z;
  pc : Z;
  clock : Z;
  robSize : nat;
  width : nat;
  rat : list Z;
  rob : list RobEntry.t;
  rsALU : list Station.t;
  rsLS : list Station.t;
  lsq : list LsqEntry.t;
  robOccupationHistory : list Z;
  rsOccupationHistory : list Z;
  branchCorrect : Z;
  branchTotal : Z;
  l1i : Cache.t;
  l1d : Cache.t;
  predictor : GsharePredictor.t;
  instructions : gmap Z Template.t;
  instructionsCommitted : Z;
  isRunning : bool;
  logs : list LogLine;
  nextRobTag : Z;
  dateNowCalls : nat
}.

Definition setMemory (v : gmap Z Z) (x : Simulator) : Simulator :=
  {| memory := v; regFile := regFile x; pc := pc x; clock := clock x;
     robSize := robSize x; width := width x; rat := rat x; rob := rob x;
     rsALU := rsALU x; rsLS := rsLS x; lsq := lsq x;
     robOccupationHistory := robOccupationHistory x;
     rsOccupationHistory := rsOccupationHistory x;
     branchCorrect := branchCorrect x; branchTotal := branchTotal x;
     l1i := l1i x; l1d := l1d x; predictor := predictor x;
     instructions := instructions x;
     instructionsCommitted := instructionsCommitted x;
     isRunning := isRunning x; logs := logs x; nextRobTag := nextRobTag x;
     dateNowCalls := dateNowCalls x |}.

Definition setRegFile (v : list Z) (x : Simulator) : Simulator :=
  {| memory := memory x; regFile := v; pc := pc x; clock := clock x;
     robSize := robSize x; width := width x; rat := rat x; rob := rob x;
     rsALU := rsALU x; rsLS := rsLS x; lsq := lsq x;
     robOccupationHistory := robOccupationHistory x;
     rsOccupationHistory := rsOccupationHistory x;
     branchCorrect := branchCorrect x; branchTotal := branchTotal x;
     l1i := l1i x; l1d := l1d x; predictor := predictor x;
     instructions := instructions x;
     instructionsCommitted := instructionsCommitted x;
     isRunning := isRunning x; logs := logs x; nextRobTag := nextRobTag x;
     dateNowCalls := dateNowCalls x |}.

Definition setPc (v : Z) (x : Simulator) : Simulator :=
  {| memory := memory x; regFile := regFile x; pc := v; clock := clock x;
     robSize := robSize x; width := width x; rat := rat x; rob := rob x;
     rsALU := rsALU x; rsLS := rsLS x; lsq := lsq x;
     robOccupationHistory := robOccupationHistory x;
     rsOccupationHistory := rsOccupationHistory x;
     branchCorrect := branchCorrect x; branchTotal := branchTotal x;
     l1i := l1i x; l1d := l1d x; predictor := predictor x;
     instructions := instructions x;
     instructionsCommitted := instructionsCommitted x;
     isRunning := isRunning x; logs := logs x; nextRobTag := nextRobTag x;
     dateNowCalls := dateNowCalls x |}.

Definition setClock (v : Z) (x : Simulator) : Simulator :=
  {| memory := memory x; regFile := regFile x; pc := pc x; clock := v;
     robSize := robSize x; width := width x; rat := rat x; rob := rob x;
     rsALU := rsALU x; rsLS := rsLS x; lsq := lsq x;
     robOccupationHistory := robOccupationHistory x;
     rsOccupationHistory := rsOccupationHistory x;
     branchCorrect := branchCorrect x; branchTotal := branchTotal x;
     l1i := l1i x; l1d := l1d x; predictor := predictor x;
     instructions := instructions x;
     instructionsCommitted := instructionsCommitted x;
     isRunning := isRunning x; logs := logs x; nextRobTag := nextRobTag x;
     dateNowCalls := dateNowCalls x |}.

Definition setRat (v : list Z) (x : Simulator) : Simulator :=
  {| memory := memory x; regFile := regFile x; pc := pc x; clock := clock x;
     robSize := robSize x; width := width x; rat := v; rob := rob x;
     rsALU := rsALU x; rsLS := rsLS x; lsq := lsq x;
     robOccupationHistory := robOccupationHistory x;
     rsOccupationHistory := rsOccupationHistory x;
     branchCorrect := branchCorrect x; branchTotal := branchTotal x;
     l1i := l1i x; l1d := l1d x; predictor := predictor x;
     instructions := instructions x;
     instructionsCommitted := instructionsCommitted x;
     isRunning := isRunning x; logs := logs x; nextRobTag := nextRobTag x;
     dateNowCalls := dateNowCalls x |}.

Definition setRob (v : list RobEntry.t) (x : Simulator) : Simulator :=
  {| memory := memory x; regFile := regFile x; pc := pc x; clock := clock x;
     robSize := robSize x; width := width x; rat := rat x; rob := v;
     rsALU := rsALU x; rsLS := rsLS x; lsq := lsq x;
     robOccupationHistory := robOccupationHistory x;
     rsOccupationHistory := rsOccupationHistory x;
     branchCorrect := branchCorrect x; branchTotal := branchTotal x;
     l1i := l1i x; l1d := l1d x; predictor := predictor x;
     instructions := instructions x;
     instructionsCommitted := instructionsCommitted x;
     isRunning := isRunning x; logs := logs x; nextRobTag := nextRobTag x;
     dateNowCalls := dateNowCalls x |}.

Definition setRsALU (v : list Station.t) (x : Simulator) : Simulator :=
  {| memory := memory x; regFile := regFile x; pc := pc x; clock := clock x;
     robSize := robSize x; width := width x; rat := rat x; rob := rob x;
     rsALU := v; rsLS := rsLS x; lsq := lsq x;
     robOccupationHistory := robOccupationHistory x;
     rsOccupationHistory := rsOccupationHistory x;
     branchCorrect := branchCorrect x; branchTotal := branchTotal x;
     l1i := l1i x; l1d := l1d x; predictor := predictor x;
     instructions := instructions x;
     instructionsCommitted := instructionsCommitted x;
     isRunning := isRunning x; logs := logs x; nextRobTag := nextRobTag x;
     dateNowCalls := dateNowCalls x |}.

Definition setRsLS (v : list Station.t) (x : Simulator) : Simulator :=
  {| memory := memory x; regFile := regFile x; pc := pc x; clock := clock x;
     robSize := robSize x; width := width x; rat := rat x; rob := rob x;
     rsALU := rsALU x; rsLS := v; lsq := lsq x;
     robOccupationHistory := robOccupationHistory x;
     rsOccupationHistory := rsOccupationHistory x;
     branchCorrect := branchCorrect x; branchTotal := branchTotal x;
     l1i := l1i x; l1d := l1d x; predictor := predictor x;
     instructions := instructions x;
     instructionsCommitted := instructionsCommitted x;
     isRunning := isRunning x; logs := logs x; nextRobTag := nextRobTag x;
     dateNowCalls := dateNowCalls x |}.

Definition setLsq (v : list LsqEntry.t) (x : Simulator) : Simulator :=
  {| memory := memory x; regFile := regFile x; pc := pc x; clock := clock x;
     robSize := robSize x; width := width x; rat := rat x; rob := rob x;
     rsALU := rsALU x; rsLS := rsLS x; lsq := v;
     robOccupationHistory := robOccupationHistory x;
     rsOccupationHistory := rsOccupationHistory x;
     branchCorrect := branchCorrect x; branchTotal := branchTotal x;
     l1i := l1i x; l1d := l1d x; predictor := predictor x;
     instructions := instructions x;
     instructionsCommitted := instructionsCommitted x;
     isRunning := isRunning x; logs := logs x; nextRobTag := nextRobTag x;
     dateNowCalls := dateNowCalls x |}.

Definition setRobOccupationHistory (v : list Z) (x : Simulator) : Simulator :=
  {| memory := memory x; regFile := regFile x; pc := pc x; clock := clock x;
     robSize := robSize x; width := width x; rat := rat x; rob := rob x;
     rsALU := rsALU x; rsLS := rsLS x; lsq := lsq x;
     robOccupationHistory := v; rsOccupationHistory := rsOccupationHistory x;
     branchCorrect := branchCorrect x; branchTotal := branchTotal x;
     l1i := l1i x; l1d := l1d x; predictor := predictor x;
     instructions := instructions x;
     instructionsCommitted := instructionsCommitted x;
     isRunning := isRunning x; logs := logs x; nextRobTag := nextRobTag x;
     dateNowCalls := dateNowCalls x |}.

Definition setRsOccupationHistory (v : list Z) (x : Simulator) : Simulator :=
  {| memory := memory x; regFile := regFile x; pc := pc x; clock := clock x;
     robSize := robSize x; width := width x; rat := rat x; rob := rob x;
     rsALU := rsALU x; rsLS := rsLS x; lsq := lsq x;
     robOccupationHistory := robOccupationHistory x;
     rsOccupationHistory := v; branchCorrect := branchCorrect x;
     branchTotal := branchTotal x; l1i := l1i x; l1d := l1d x;
     predictor := predictor x; instructions := instructions x;
     instructionsCommitted := instructionsCommitted x;
     isRunning := isRunning x; logs := logs x; nextRobTag := nextRobTag x;
     dateNowCalls := dateNowCalls x |}.

Definition setBranchCorrect (v : Z) (x : Simulator) : Simulator :=
  {| memory := memory x; regFile := regFile x; pc := pc x; clock := clock x;
     robSize := robSize x; width := width x; rat := rat x; rob := rob x;
     rsALU := rsALU x; rsLS := rsLS x; lsq := lsq x;
     robOccupationHistory := robOccupationHistory x;
     rsOccupationHistory := rsOccupationHistory x; branchCorrect := v;
     branchTotal := branchTotal x; l1i := l1i x; l1d := l1d x;
     predictor := predictor x; instructions := instructions x;
     instructionsCommitted := instructionsCommitted x;
     isRunning := isRunning x; logs := logs x; nextRobTag := nextRobTag x;
     dateNowCalls := dateNowCalls x |}.

Definition setBranchTotal (v : Z) (x : Simulator) : Simulator :=
  {| memory := memory x; regFile := regFile x; pc := pc x; clock := clock x;
     robSize := robSize x; width := width x; rat := rat x; rob := rob x;
     rsALU := rsALU x; rsLS := rsLS x; lsq := lsq x;
     robOccupationHistory := robOccupationHistory x;
     rsOccupationHistory := rsOccupationHistory x;
     branchCorrect := branchCorrect x; branchTotal := v; l1i := l1i x;
     l1d := l1d x; predictor := predictor x; instructions := instructions x;
     instructionsCommitted := instructionsCommitted x;
     isRunning := isRunning x; logs := logs x; nextRobTag := nextRobTag x;
     dateNowCalls := dateNowCalls x |}.

Definition setL1i (v : Cache.t) (x : Simulator) : Simulator :=
  {| memory := memory x; regFile := regFile x; pc := pc x; clock := clock x;
     robSize := robSize x; width := width x; rat := rat x; rob := rob x;
     rsALU := rsALU x; rsLS := rsLS x; lsq := lsq x;
     robOccupationHistory := robOccupationHistory x;
     rsOccupationHistory := rsOccupationHistory x;
     branchCorrect := branchCorrect x; branchTotal := branchTotal x;
     l1i := v; l1d := l1d x; predictor := predictor x;
     instructions := instructions x;
     instructionsCommitted := instructionsCommitted x;
     isRunning := isRunning x; logs := logs x; nextRobTag := nextRobTag x;
     dateNowCalls := dateNowCalls x |}.

Definition setL1d (v : Cache.t) (x : Simulator) : Simulator :=
  {| memory := memory x; regFile := regFile x; pc := pc x; clock := clock x;
     robSize := robSize x; width := width x; rat := rat x; rob := rob x;
     rsALU := rsALU x; rsLS := rsLS x; lsq := lsq x;
     robOccupationHistory := robOccupationHistory x;
     rsOccupationHistory := rsOccupationHistory x;
     branchCorrect := branchCorrect x; branchTotal := branchTotal x;
     l1i := l1i x; l1d := v; predictor := predictor x;
     instructions := instructions x;
     instructionsCommitted := instructionsCommitted x;
     isRunning := isRunning x; logs := logs x; nextRobTag := nextRobTag x;
     dateNowCalls := dateNowCalls x |}.

Definition setPredictor (v : GsharePredictor.t) (x : Simulator) : Simulator :=
  {| memory := memory x; regFile := regFile x; pc := pc x; clock := clock x;
     robSize := robSize x; width := width x; rat := rat x; rob := rob x;
     rsALU := rsALU x; rsLS := rsLS x; lsq := lsq x;
     robOccupationHistory := robOccupationHistory x;
     rsOccupationHistory := rsOccupationHistory x;
     branchCorrect := branchCorrect x; branchTotal := branchTotal x;
     l1i := l1i x; l1d := l1d x; predictor := v;
     instructions := instructions x;
     instructionsCommitted := instructionsCommitted x;
     isRunning := isRunning x; logs := logs x; nextRobTag := nextRobTag x;
     dateNowCalls := dateNowCalls x |}.

Definition setInstructions (v : gmap Z Template.t) (x : Simulator) : Simulator :=
  {| memory := memory x; regFile := regFile x; pc := pc x; clock := clock x;
     robSize := robSize x; width := width x; rat := rat x; rob := rob x;
     rsALU := rsALU x; rsLS := rsLS x; lsq := lsq x;
     robOccupationHistory := robOccupationHistory x;
     rsOccupationHistory := rsOccupationHistory x;
     branchCorrect := branchCorrect x; branchTotal := branchTotal x;
     l1i := l1i x; l1d := l1d x; predictor := predictor x; instructions := v;
     instructionsCommitted := instructionsCommitted x;
     isRunning := isRunning x; logs := logs x; nextRobTag := nextRobTag x;
     dateNowCalls := dateNowCalls x |}.

Definition setInstructionsCommitted (v : Z) (x : Simulator) : Simulator :=
  {| memory := memory x; regFile := regFile x; pc := pc x; clock := clock x;
     robSize := robSize x; width := width x; rat := rat x; rob := rob x;
     rsALU := rsALU x; rsLS := rsLS x; lsq := lsq x;
     robOccupationHistory := robOccupationHistory x;
     rsOccupationHistory := rsOccupationHistory x;
     branchCorrect := branchCorrect x; branchTotal := branchTotal x;
     l1i := l1i x; l1d := l1d x; predictor := predictor x;
     instructions := instructions x; instructionsCommitted := v;
     isRunning := isRunning x; logs := logs x; nextRobTag := nextRobTag x;
     dateNowCalls := dateNowCalls x |}.

Definition setIsRunning (v : bool) (x : Simulator) : Simulator :=
  {| memory := memory x; regFile := regFile x; pc := pc x; clock := clock x;
     robSize := robSize x; width := width x; rat := rat x; rob := rob x;
     rsALU := rsALU x; rsLS := rsLS x; lsq := lsq x;
     robOccupationHistory := robOccupationHistory x;
     rsOccupationHistory := rsOccupationHistory x;
     branchCorrect := branchCorrect x; branchTotal := branchTotal x;
     l1i := l1i x; l1d := l1d x; predictor := predictor x;
     instructions := instructions x;
     instructionsCommitted := instructionsCommitted x; isRunning := v;
     logs := logs x; nextRobTag := nextRobTag x;
     dateNowCalls := dateNowCalls x |}.

Definition setLogs (v : list LogLine) (x : Simulator) : Simulator :=
  {| memory := memory x; regFile := regFile x; pc := pc x; clock := clock x;
     robSize := robSize x; width := width x; rat := rat x; rob := rob x;
     rsALU := rsALU x; rsLS := rsLS x; lsq := lsq x;
     robOccupationHistory := robOccupationHistory x;
     rsOccupationHistory := rsOccupationHistory x;
     branchCorrect := branchCorrect x; branchTotal := branchTotal x;
     l1i := l1i x; l1d := l1d x; predictor := predictor x;
     instructions := instructions x;
     instructionsCommitted := instructionsCommitted x;
     isRunning := isRunning x; logs := v; nextRobTag := nextRobTag x;
     dateNowCalls := dateNowCalls x |}.

Definition setNextRobTag (v : Z) (x : Simulator) : Simulator :=
  {| memory := memory x; regFile := regFile x; pc := pc x; clock := clock x;
     robSize := robSize x; width := width x; rat := rat x; rob := rob x;
     rsALU := rsALU x; rsLS := rsLS x; lsq := lsq x;
     robOccupationHistory := robOccupationHistory x;
     rsOccupationHistory := rsOccupationHistory x;
     branchCorrect := branchCorrect x; branchTotal := branchTotal x;
     l1i := l1i x; l1d := l1d x; predictor := predictor x;
     instructions := instructions x;
     instructionsCommitted := instructionsCommitted x;
     isRunning := isRunning x; logs := logs x; nextRobTag := v;
     dateNowCalls := dateNowCalls x |}.

Definition setDateNowCalls (v : nat) (x : Simulator) : Simulator :=
  {| memory := memory x; regFile := regFile x; pc := pc x; clock := clock x;
     robSize := robSize x; width := width x; rat := rat x; rob := rob x;
     rsALU := rsALU x; rsLS := rsLS x; lsq := lsq x;
     robOccupationHistory := robOccupationHistory x;
     rsOccupationHistory := rsOccupationHistory x;
     branchCorrect := branchCorrect x; branchTotal := branchTotal x;
     l1i := l1i x; l1d := l1d x; predictor := predictor x;
     instructions := instructions x;
     instructionsCommitted := instructionsCommitted x;
     isRunning := isRunning x; logs := logs x; nextRobTag := nextRobTag x;
     dateNowCalls := v |}.


(** ** Helpers for the array idioms of the source *)

(** [arr.find(p)] followed by an assignment to the object found: the
    first element satisfying [p] is changed in place. *)
Fixpoint updFirst {A : Type} (p : A -> bool) (f : A -> A) (l : list A) : list A :=
  match l with
  | [] => []
  | x :: l' => if p x then f x :: l' else x :: updFirst p f l'
  end.

(** [this.rob.find(r => r.robTag === tag)] *)
Definition findRob (tag : Z) (rb : list RobEntry.t) : option RobEntry.t :=
  find (fun r => RobEntry.robTag r =? tag) rb.

(** [this.memory[i] | 0]: a word outside the array reads as [undefined],
    which [| 0] turns into 0. *)
Definition memRead (m : gmap Z Z) (i : Z) : Z :=
  if (0 <=? i) && (i <? 65536) then JS.bor (default 0 (m !! i)) 0 else 0.

(** [this.rat[r]] and [this.regFile[r]] for a register index [r] of a
    well-formed template ([Template.wf]: 0 to 31). *)
Definition ratGet (r : Z) (rt : list Z) : Z := default (-1) (rt !! Z.to_nat r).
Definition regGet (r : Z) (rf : list Z) : Z := default 0 (rf !! Z.to_nat r).

(** [this.rat[r] = v] *)
Definition ratSet (r : Z) (v : Z) (rt : list Z) : list Z :=
  if 0 <=? r then <[Z.to_nat r := v]> rt else rt.

(** [this.rat[r] === tag]: an index outside the array gives [undefined],
    which equals no tag. *)
Definition ratIs (r : Z) (tag : Z) (rt : list Z) : bool :=
  if 0 <=? r then
    match rt !! Z.to_nat r with Some v => v =? tag | None => false end
  else false.

Definition isBranch (op : string) : bool :=
  String.eqb op "BEQ" || String.eqb op "BNE".

(** [head.op === 'SW' || head.op === 'LW'] *)
Definition isLoadStore (op : string) : bool :=
  String.eqb op "SW" || String.eqb op "LW".

(** [rd !== 0 && op !== 'SW' && op !== 'BEQ' && op !== 'BNE'] *)
Definition writesRegister (rd : Z) (op : string) : bool :=
  negb (rd =? 0) && negb (String.eqb op "SW") && negb (String.eqb op "BEQ")
  && negb (String.eqb op "BNE").

(** [arr.filter(r => r.busy).length] *)
Definition busyCount (sts : list Station.t) : Z :=
  Z.of_nat (length (filter (fun r => Station.busy r = true) sts)).

Section Pipeline.

(** The wall clock: [Date_now k] is the value returned by the call of
    [Date.now()] that [k] calls precede. *)
Variable Date_now : nat -> Z.

(** The assembly-text parser that [loadProgram] runs over the lines of the
    text (outside the pipeline core): the instruction map it has stored, and
    whether it went through every line ([false] when a line made it throw,
    in which case [loadProgram] ends there). *)
Variable parseProgram : string -> gmap Z Template.t * bool.

(** [initRS(aluCount, lsCount)] *)
Definition initRS (aluCount lsCount : nat) (s : Simulator) : Simulator :=
  setRsLS (replicate lsCount Station.free)
    (setRsALU (replicate aluCount Station.free) s).

(** [log(msg)] (the part that keeps [this.logs]) *)
Definition log (m : LogMsg) (s : Simulator) : Simulator :=
  setLogs (logs s ++ [(clock s, m)]) s.

(** [constructor()] *)
Definition newSimulator : Simulator :=
  initRS 8 4
    {| memory := ∅; regFile := replicate 32 0; pc := 0; clock := 0;
       robSize := 32; width := 2; rat := replicate 32 (-1); rob := [];
       rsALU := []; rsLS := []; lsq := [];
       robOccupationHistory := []; rsOccupationHistory := [];
       branchCorrect := 0; branchTotal := 0;
       l1i := Cache.new "L1I" 1 10; l1d := Cache.new "L1D" 2 10;
       predictor := GsharePredictor.new;
       instructions := ∅; instructionsCommitted := 0; isRunning := false;
       logs := []; nextRobTag := 1; dateNowCalls := 0 |}.

(** [this.l1d.access(addr, isWrite)] and [this.l1i.access(addr)], each
    taking the next reading of the clock. *)
Definition l1dAccess (addr : Z) (isWrite : bool) (s : Simulator)
  : Simulator * Cache.Result :=
  let '(c, r) := Cache.access (Date_now (dateNowCalls s)) (l1d s) addr isWrite in
  (setDateNowCalls (S (dateNowCalls s)) (setL1d c s), r).

Definition l1iAccess (addr : Z) (s : Simulator) : Simulator * Cache.Result :=
  let '(c, r) := Cache.access (Date_now (dateNowCalls s)) (l1i s) addr false in
  (setDateNowCalls (S (dateNowCalls s)) (setL1i c s), r).

(** [loadProgram(text)] *)
Definition loadProgram (text : string) (s : Simulator) : Simulator :=
  let s := setPc 0 s in
  let s := setMemory ∅ s in
  let s := setRegFile (replicate (length (regFile s)) 0) s in
  let s := setRat (replicate (length (rat s)) (-1)) s in
  let s := setRob [] s in
  let s := initRS 8 4 s in
  let s := setClock 0 s in
  let s := setInstructionsCommitted 0 s in
  let s := setLogs [] s in
  let '(prog, completed) := parseProgram text in
  let s := setInstructions prog s in
  if completed then log MsgLoaded s else s.

(** [flushPipeline(correctPC, taken)] *)
Definition flushPipeline (correctPC : Z) (taken : bool) (s : Simulator)
  : Simulator :=
  let s := setRob [] s in
  let s := initRS 8 4 s in
  let s := setRat (replicate (length (rat s)) (-1)) s in
  if taken then setPc correctPC s else setPc correctPC s.

(** *** stageCommit *)

(** The branch block of [stageCommit]; the boolean tells whether it
    flushed, in which case [stageCommit] returns. *)
Definition commitBranch (head : RobEntry.t) (s : Simulator) : Simulator * bool :=
  let s := setBranchTotal (branchTotal s + 1) s in
  let actualTaken := RobEntry.result head =? 1 in
  let s := if Bool.eqb actualTaken (RobEntry.predictedTaken head)
           then setBranchCorrect (branchCorrect s + 1) s else s in
  let s := setPredictor
             (GsharePredictor.update (predictor s) (RobEntry.pc head) actualTaken) s in
  if negb (Bool.eqb actualTaken (RobEntry.predictedTaken head)) then
    let s := log (MsgFlush (RobEntry.pc head)) s in
    (flushPipeline (RobEntry.targetAddr head) actualTaken s, true)
  else (s, false).

(** The write of the result to the register file and the release of the
    RAT entry. *)
Definition commitRegister (head : RobEntry.t) (s : Simulator) : Simulator :=
  if writesRegister (RobEntry.rd head) (RobEntry.op head) then
    let s := setRegFile
               (JS.int32ArraySet (RobEntry.rd head) (RobEntry.result head) (regFile s)) s in
    if ratIs (RobEntry.rd head) (RobEntry.robTag head) (rat s)
    then setRat (ratSet (RobEntry.rd head) (-1) (rat s)) s
    else s
  else s.

(** The commit of a store: the head of the ROB has no [memAddr]
    property, so [head.memAddr] is [undefined]; the cache is accessed with
    it ([undefined >> 6] and [undefined >> 11] are 0, as for address 0), and
    [this.memory[undefined / 4] = head.result] assigns at the index [NaN],
    which a typed array ignores. *)
Definition commitStore (head : RobEntry.t) (s : Simulator) : Simulator :=
  let '(s, _) := l1dAccess 0 true s in
  log (MsgCommitStore (RobEntry.result head)) s.

(** The load/store block of [stageCommit]; the boolean tells whether
    it took the [else] branch, in which case [stageCommit] returns. *)
Definition commitMemory (head : RobEntry.t) (s : Simulator) : Simulator * bool :=
  if isLoadStore (RobEntry.op head) then
    match lsq s with
    | lsqHead :: _ =>
        if (LsqEntry.robTag lsqHead =? RobEntry.robTag head)
           && LsqEntry.isMemReady lsqHead
        then
          let s := if String.eqb (RobEntry.op head) "SW"
                   then commitStore head s else s in
          (setLsq (tail (lsq s)) s, false)
        else (s, true)
    | [] => (s, true)
    end
  else (s, false).

Definition stageCommit (s : Simulator) : Simulator :=
  match rob s with
  | [] => s
  | head :: _ =>
      if RobEntry.isReady head then
        let '(s, flushed) :=
          if isBranch (RobEntry.op head) then commitBranch head s
          else (s, false) in
        if flushed then s
        else
          let s := commitRegister head s in
          let '(s, stalled) := commitMemory head s in
          if stalled then s
          else
            let s := setRob (tail (rob s)) s in
            setInstructionsCommitted (instructionsCommitted s + 1) s
      else s
  end.

(** *** stageExecute *)

(** The operand checks at the top of the [forEach] callback. *)
Definition captureOperands (rb : list RobEntry.t) (f : Station.Fields)
  : Station.Fields :=
  let f :=
    if negb (Station.qj f =? -1) then
      match findRob (Station.qj f) rb with
      | Some producer =>
          if RobEntry.isReady producer
          then Station.captureJ (RobEntry.result producer) f else f
      | None => f
      end
    else f in
  if negb (Station.qk f =? -1) then
    match findRob (Station.qk f) rb with
    | Some producer =>
        if RobEntry.isReady producer
        then Station.captureK (RobEntry.result producer) f else f
    | None => f
    end
  else f.

(** [lsqEntry.memAddr = inst.memAddr; lsqEntry.isMemReady = true] on the
    entry found by [this.lsq.find(l => l.robTag === inst.robTag)]. *)
Definition markLoad (inst : Instruction.t) (q : list LsqEntry.t) : list LsqEntry.t :=
  updFirst (fun l => LsqEntry.robTag l =? Instruction.robTag inst)
    (fun l => LsqEntry.setIsMemReady true
                (LsqEntry.setMemAddr (Instruction.memAddr inst) l)) q.

(** The same for a store, which also records the value. *)
Definition markStore (inst : Instruction.t) (val : Z) (q : list LsqEntry.t)
  : list LsqEntry.t :=
  updFirst (fun l => LsqEntry.robTag l =? Instruction.robTag inst)
    (fun l => LsqEntry.setIsMemReady true
                (LsqEntry.setValue val
                   (LsqEntry.setMemAddr (Instruction.memAddr inst) l))) q.

(** The [switch(inst.op)] that computes the result, with the effects of
    the load and store cases. *)
Definition computeResult (f : Station.Fields) (inst : Instruction.t)
    (s : Simulator) : Simulator * Z :=
  let op := Instruction.op inst in
  if String.eqb op "ADD" then (s, Station.vj f + Station.vk f)
  else if String.eqb op "SUB" then (s, Station.vj f - Station.vk f)
  else if String.eqb op "ADDI" then (s, Station.vj f + Instruction.imm inst)
  else if String.eqb op "LW" then
    let '(s, _) := l1dAccess (Instruction.memAddr inst) false s in
    let val := memRead (memory s) (Instruction.memAddr inst / 4) in
    (setLsq (markLoad inst (lsq s)) s, val)
  else if String.eqb op "SW" then
    let val := Station.vk f in
    (setLsq (markStore inst val (lsq s)) s, val)
  else if String.eqb op "BEQ" then
    (s, JS.ofBool (Station.vj f =? Station.vk f))
  else if String.eqb op "BNE" then
    (s, JS.ofBool (negb (Station.vj f =? Station.vk f)))
  else (s, 0).

(** The broadcast: result and ready flag on the ROB entry found by
    the tag, and the target address of a branch. *)
Definition broadcast (inst : Instruction.t) (val : Z) (rb : list RobEntry.t)
  : list RobEntry.t :=
  updFirst (fun r => RobEntry.robTag r =? Instruction.robTag inst)
    (fun r =>
       let r := RobEntry.setIsReady true (RobEntry.setResult val r) in
       if isBranch (Instruction.op inst) then
         RobEntry.setTargetAddr
           (if val =? 1 then Instruction.pc inst + Instruction.imm inst
            else Instruction.pc inst + 4) r
       else r) rb.

(** The callback of the [forEach] in [stageExecute], for one station.  (A
    busy station always has its properties, so the case of a busy station
    with none does not arise.) *)
Definition executeStation (s : Simulator) (rs : Station.t)
  : Simulator * Station.t :=
  if negb (Station.busy rs) then (s, rs)
  else
    match Station.slot rs with
    | None => (s, rs)
    | Some f =>
        let f := captureOperands (rob s) f in
        let inst := Station.inst f in
        if (Station.qj f =? -1) && (Station.qk f =? -1)
           && negb (Instruction.isReady inst)
           && (0 <? Instruction.executionCyclesLeft inst)
        then
          let inst :=
            if (Instruction.executionCyclesLeft inst =? Instruction.totalCycles inst)
               && (String.eqb (Instruction.op inst) "LW"
                   || String.eqb (Instruction.op inst) "SW")
            then Instruction.setMemAddr (Station.vj f + Instruction.imm inst) inst
            else inst in
          let inst :=
            Instruction.setExecutionCyclesLeft
              (Instruction.executionCyclesLeft inst - 1) inst in
          if Instruction.executionCyclesLeft inst =? 0 then
            let '(s, val) := computeResult f inst s in
            let inst := Instruction.setIsReady true (Instruction.setResult val inst) in
            let s := setRob (broadcast inst val (rob s)) s in
            let s := log (MsgExec (Instruction.text inst) val) s in
            (s, {| Station.busy := false;
                   Station.slot := Some (Station.setInst inst f) |})
          else
            (s, {| Station.busy := true;
                   Station.slot := Some (Station.setInst inst f) |})
        else
          (s, {| Station.busy := true; Station.slot := Some f |})
    end.

(** The [forEach] over a list of stations: each station is handled with
    the state its predecessors left, and keeps what the callback
    assigned to it. *)
Fixpoint executeStations (s : Simulator) (sts : list Station.t)
  : Simulator * list Station.t :=
  match sts with
  | [] => (s, [])
  | rs :: rest =>
      let '(s, rs') := executeStation s rs in
      let '(s, rest') := executeStations s rest in
      (s, rs' :: rest')
  end.

(** [this.rsALU.concat(this.rsLS).forEach(...)]: the ALU stations, then
    the load/store stations. *)
Definition stageExecute (s : Simulator) : Simulator :=
  let '(s1, alu) := executeStations s (rsALU s) in
  let '(s2, ls) := executeStations s1 (rsLS s) in
  setRsLS ls (setRsALU alu s2).

(** *** stageFetchAndIssue *)

(** The renaming of one source register: the tag to wait for ([-1] for
    none) and the value. *)
Definition renameSource (r : Z) (s : Simulator) : Z * Z :=
  if negb (ratGet r (rat s) =? -1) then
    match findRob (ratGet r (rat s)) (rob s) with
    | Some producer =>
        if RobEntry.isReady producer then (-1, RobEntry.result producer)
        else (ratGet r (rat s), 0)
    | None => (ratGet r (rat s), 0)
    end
  else (-1, regGet r (regFile s)).

(** [EXEC_LATENCIES] by class of operation. *)
Definition latencyOf (op : string) : Z :=
  if String.eqb op "LW" || String.eqb op "SW" then
    (if String.eqb op "LW" then 2 else 1)
  else if String.eqb op "BEQ" || String.eqb op "BNE" || String.eqb op "JAL"
          || String.eqb op "JALR" then 1
  else 1.

(** Step 2 of [stageFetchAndIssue], the access to the instruction cache. *)
Definition issueFetch (s : Simulator) : Simulator :=
  let '(s, cacheRes) := l1iAccess (pc s) s in
  if negb (Cache.hit cacheRes) then log (MsgL1IMiss (pc s)) s else s.

(** Step 3 and the latency set-up: the instruction instance, with its
    tag, its cycles and the prediction that step 6 stores in it. *)
Definition issueInstance (template : Template.t) (pc0 robTag : Z) (pred : bool)
  : Instruction.t :=
  let inst := Instruction.new pc0 (Template.text template) (Template.op template)
                (Template.rd template) (Template.rs1 template)
                (Template.rs2 template) (Template.imm template) in
  let inst := Instruction.setRobTag robTag inst in
  let inst := Instruction.setTotalCycles (latencyOf (Instruction.op inst)) inst in
  let inst := Instruction.setExecutionCyclesLeft (Instruction.totalCycles inst) inst in
  Instruction.setPredictedTaken pred inst.

(** Step 5: the LSQ entry of a load or store, the reservation station
    (the first free one of the pool), the ROB entry (with the prediction
    that step 6 stores in it) and the RAT. *)
Definition issueAllocate (inst : Instruction.t) (qj vj qk vk : Z) (s : Simulator)
  : Simulator :=
  let op := Instruction.op inst in
  let robTag := Instruction.robTag inst in
  let isLS := String.eqb op "LW" || String.eqb op "SW" in
  let s :=
    if isLS then
      setLsq (lsq s ++ [ {| LsqEntry.robTag := robTag;
                            LsqEntry.isStore := String.eqb op "SW";
                            LsqEntry.memAddr := -1;
                            LsqEntry.value := 0;
                            LsqEntry.isMemReady := false |} ]) s
    else s in
  let station :=
    {| Station.busy := true;
       Station.slot :=
         Some {| Station.inst := inst; Station.op := op;
                 Station.vj := vj; Station.vk := vk;
                 Station.qj := qj; Station.qk := qk;
                 Station.robTag := robTag |} |} in
  let s :=
    if isLS
    then setRsLS (updFirst (fun r => negb (Station.busy r))
                    (fun _ => station) (rsLS s)) s
    else setRsALU (updFirst (fun r => negb (Station.busy r))
                     (fun _ => station) (rsALU s)) s in
  let s :=
    setRob (rob s ++ [ {| RobEntry.robTag := robTag;
                          RobEntry.op := op;
                          RobEntry.rd := Instruction.rd inst;
                          RobEntry.pc := Instruction.pc inst;
                          RobEntry.instText := Instruction.text inst;
                          RobEntry.isReady := false;
                          RobEntry.result := 0;
                          RobEntry.predictedTaken := Instruction.predictedTaken inst;
                          RobEntry.targetAddr := 0 |} ]) s in
  if writesRegister (Instruction.rd inst) op
  then setRat (ratSet (Instruction.rd inst) robTag (rat s)) s
  else s.

(** Step 6: the update of the PC, and the last [log]. *)
Definition issueAdvance (inst : Instruction.t) (s : Simulator) : Simulator :=
  let op := Instruction.op inst in
  let s :=
    if isBranch op then
      if Instruction.predictedTaken inst then
        let s := setPc (pc s + Instruction.imm inst) s in
        log (MsgBranchTaken (Instruction.pc inst) (pc s)) s
      else setPc (pc s + 4) s
    else if String.eqb op "JAL" then setPc (pc s + Instruction.imm inst) s
    else setPc (pc s + 4) s in
  log (MsgIssue (Instruction.text inst) (Instruction.robTag inst)) s.

(** Steps 2 to 6, for the template found at the PC. *)
Definition issue (template : Template.t) (s : Simulator) : Simulator :=
  let s := issueFetch s in
  let robTag := nextRobTag s in
  let s := setNextRobTag (robTag + 1) s in
  let '(qj, vj) := renameSource (Template.rs1 template) s in
  let '(qk, vk) := renameSource (Template.rs2 template) s in
  let pred := if isBranch (Template.op template)
              then GsharePredictor.predict (predictor s) (pc s)
              else false in
  let inst := issueInstance template (pc s) robTag pred in
  let s := issueAllocate inst qj vj qk vk s in
  issueAdvance inst s.

Definition stageFetchAndIssue (s : Simulator) : Simulator * bool :=
  if (robSize s <=? length (rob s))%nat then (s, false)
  else
    match instructions s !! pc s with
    | None => (s, false)
    | Some template =>
        let isLS := String.eqb (Template.op template) "LW"
                    || String.eqb (Template.op template) "SW" in
        match find (fun r => negb (Station.busy r))
                (if isLS then rsLS s else rsALU s) with
        | None => (s, false)
        | Some _ => (issue template s, true)
        end
    end.

(** *** step *)

(** The [while(issued < this.width)] loop, with the number of iterations
    left; it returns the final value of [issued]. *)
Fixpoint issueLoop (left : nat) (s : Simulator) : Simulator * nat :=
  match left with
  | O => (s, O)
  | S left' =>
      let '(s', ok) := stageFetchAndIssue s in
      if ok then
        let '(s'', issued) := issueLoop left' s' in (s'', S issued)
      else (s', O)
  end.

(** [this.pc >= Object.keys(this.instructions).length * 4 &&
    this.rob.length === 0] *)
Definition finished (s : Simulator) : bool :=
  (Z.of_nat (size (instructions s)) * 4 <=? pc s)
  && (length (rob s) =? 0)%nat.

Definition step (s : Simulator) : Simulator :=
  if finished s then log MsgFinished (setIsRunning false s)
  else
    let s := setClock (clock s + 1) s in
    let s := stageCommit s in
    let s := stageExecute s in
    let '(s, _) := issueLoop (width s) s in
    let s := setRobOccupationHistory
               (robOccupationHistory s ++ [Z.of_nat (length (rob s))]) s in
    setRsOccupationHistory
      (rsOccupationHistory s ++ [busyCount (rsALU s) + busyCount (rsLS s)]) s.

(** [n] calls of [step]. *)
Fixpoint steps (n : nat) (s : Simulator) : Simulator :=
  match n with
  | O => s
  | S n' => step (steps n' s)
  end.

(** A simulator fresh from its constructor, with a program loaded. *)
Definition reset (text : string) : Simulator := loadProgram text newSimulator.

End Pipeline.

(** ** Vocabulary of the properties *)

(** The head of the ROB is a ready branch whose direction differs from the
    prediction: the condition under which [stageCommit] flushes. *)
Definition mispredicted (s : Simulator) : bool :=
  match rob s with
  | head :: _ =>
      RobEntry.isReady head && isBranch (RobEntry.op head)
      && negb (Bool.eqb (RobEntry.result head =? 1) (RobEntry.predictedTaken head))
  | [] => false
  end.

(** The number of ROB entries that a flush in the commit stage throws
    away. *)
Definition flushDiscards (s : Simulator) : Z :=
  if mispredicted s then Z.of_nat (length (rob s)) else 0.

(** Committed count plus live ROB entries. *)
Definition inFlight (s : Simulator) : Z :=
  instructionsCommitted s + Z.of_nat (length (rob s)).

(** A program store whose templates have register indices in range. *)
Definition wfProgram (prog : gmap Z Template.t) : Prop :=
  map_Forall (fun _ t => Template.wf t = true) prog.

(** What [stageCommit] does to the parts of the state that the
    invariants speak of, by the path it takes. *)
Inductive commitOutcome (s s' : Simulator) : Prop :=
| CommitIdle :
    (rob s = [] \/ exists head rest, rob s = head :: rest /\ RobEntry.isReady head = false) ->
    s' = s ->
    commitOutcome s s'
| CommitFlush head rest :
    rob s = head :: rest ->
    mispredicted s = true ->
    rob s' = [] ->
    rsALU s' = replicate 8 Station.free ->
    rsLS s' = replicate 4 Station.free ->
    rat s' = replicate (length (rat s)) (-1) ->
    pc s' = RobEntry.targetAddr head ->
    lsq s' = lsq s ->
    regFile s' = regFile s ->
    instructionsCommitted s' = instructionsCommitted s ->
    commitOutcome s s'
| CommitStall head rest :
    rob s = head :: rest ->
    RobEntry.isReady head = true ->
    mispredicted s = false ->
    isLoadStore (RobEntry.op head) = true ->
    match lsq s with
    | lsqHead :: _ =>
        (LsqEntry.robTag lsqHead =? RobEntry.robTag head)
        && LsqEntry.isMemReady lsqHead = false
    | [] => True
    end ->
    rob s' = rob s ->
    rsALU s' = rsALU s ->
    rsLS s' = rsLS s ->
    lsq s' = lsq s ->
    instructionsCommitted s' = instructionsCommitted s ->
    commitOutcome s s'
| CommitRetire head rest :
    rob s = head :: rest ->
    RobEntry.isReady head = true ->
    mispredicted s = false ->
    rob s' = rest ->
    rsALU s' = rsALU s ->
    rsLS s' = rsLS s ->
    (if isLoadStore (RobEntry.op head)
     then exists lsqHead, lsq s = lsqHead :: lsq s'
                          /\ LsqEntry.robTag lsqHead = RobEntry.robTag head
                          /\ LsqEntry.isMemReady lsqHead = true
     else lsq s' = lsq s) ->
    instructionsCommitted s' = instructionsCommitted s + 1 ->
    commitOutcome s s'.

(** The parts of the state that [stageExecute] leaves alone; of the ROB
    and of the LSQ it keeps the tags. *)
Record executeFrame (s s' : Simulator) : Prop := {
  ef_memory : memory s' = memory s;
  ef_regFile : regFile s' = regFile s;
  ef_pc : pc s' = pc s;
  ef_clock : clock s' = clock s;
  ef_rat : rat s' = rat s;
  ef_committed : instructionsCommitted s' = instructionsCommitted s;
  ef_nextRobTag : nextRobTag s' = nextRobTag s;
  ef_instructions : instructions s' = instructions s;
  ef_width : width s' = width s;
  ef_robSize : robSize s' = robSize s;
  ef_predictor : predictor s' = predictor s;
  ef_robTags : map RobEntry.robTag (rob s') = map RobEntry.robTag (rob s);
  ef_lsqTags : map LsqEntry.robTag (lsq s') = map LsqEntry.robTag (lsq s)
}.

(** Fields that the cache access and the PC update of issue leave
    alone. *)
Record windowFrame (s s' : Simulator) : Prop := {
  wf_memory : memory s' = memory s;
  wf_regFile : regFile s' = regFile s;
  wf_rat : rat s' = rat s;
  wf_rob : rob s' = rob s;
  wf_rsALU : rsALU s' = rsALU s;
  wf_rsLS : rsLS s' = rsLS s;
  wf_lsq : lsq s' = lsq s;
  wf_committed : instructionsCommitted s' = instructionsCommitted s;
  wf_nextRobTag : nextRobTag s' = nextRobTag s;
  wf_width : width s' = width s
}.


(** A station, when busy, holds an instruction whose tag is at least
    [b]. *)
Definition stationFrom (b : Z) (rs : Station.t) : Prop :=
  Station.busy rs = true ->
  forall f, Station.slot rs = Some f -> b <= Instruction.robTag (Station.inst f).

(** What steps 2 to 6 of issue do to the window, for the tag [tag] they
    allocate. *)
Record issueEffect (tag rd : Z) (op : string) (s s' : Simulator) : Prop := {
  ie_memory : memory s' = memory s;
  ie_regFile : regFile s' = regFile s;
  ie_committed : instructionsCommitted s' = instructionsCommitted s;
  ie_width : width s' = width s;
  ie_nextRobTag : nextRobTag s' = tag + 1;
  ie_rob : exists entry, rob s' = rob s ++ [entry] /\ RobEntry.robTag entry = tag;
  ie_lsq : lsq s' = lsq s \/
           exists l, lsq s' = lsq s ++ [l] /\ LsqEntry.robTag l = tag;
  ie_rat : rat s' = if writesRegister rd op then ratSet rd tag (rat s) else rat s;
  ie_stations :
    exists station,
      stationFrom tag station /\
      ((rsALU s' = updFirst (fun r => negb (Station.busy r)) (fun _ => station) (rsALU s)
        /\ rsLS s' = rsLS s)
       \/ (rsLS s' = updFirst (fun r => negb (Station.busy r)) (fun _ => station) (rsLS s)
           /\ rsALU s' = rsALU s))
}.

(** The final value of the local variable [issued] of [step]: the
    number of instructions issued in the cycle that [step] runs from
    [s]. *)
Definition issuedBy (Date_now : nat -> Z) (s : Simulator) : Z :=
  if finished s then 0
  else
    let s1 := stageExecute Date_now
                (stageCommit Date_now (setClock (clock s + 1) s)) in
    Z.of_nat (issueLoop Date_now (width s1) s1).2.

(** The number of ROB entries discarded by a flush in that cycle. *)
Definition discardedBy (s : Simulator) : Z :=
  if finished s then 0 else flushDiscards s.

(** Their totals over the first [n] cycles run from [s]. *)
Fixpoint issuedTotal (Date_now : nat -> Z) (n : nat) (s : Simulator) : Z :=
  match n with
  | O => 0
  | S n' => issuedTotal Date_now n' s + issuedBy Date_now (steps Date_now n' s)
  end.

Fixpoint discardedTotal (Date_now : nat -> Z) (n : nat) (s : Simulator) : Z :=
  match n with
  | O => 0
  | S n' => discardedTotal Date_now n' s + discardedBy (steps Date_now n' s)
  end.

(** ** Example programs *)

Definition mkTemplate (text op : string) (rd rs1 rs2 imm : Z) : Template.t :=
  {| Template.text := text; Template.op := op; Template.rd := rd;
     Template.rs1 := rs1; Template.rs2 := rs2; Template.imm := imm |}.

(** The instruction map that [loadProgram] builds for a list of decoded
    lines: [this.instructions[loadAddr] = ...; loadAddr += 4]. *)
Fixpoint storeProgram (loadAddr : Z) (l : list Template.t) : gmap Z Template.t :=
  match l with
  | [] => ∅
  | t :: l' => <[loadAddr := t]> (storeProgram (loadAddr + 4) l')
  end.

(** A parser run that decodes its text to the lines [l]. *)
Definition parsedAs (l : list Template.t) : string -> gmap Z Template.t * bool :=
  fun _ => (storeProgram 0 l, true).

(** A clock that has advanced at each reading, and one that stays within
    the same millisecond. *)
Definition tickingClock (k : nat) : Z := 1700000000000 + Z.of_nat k.
Definition frozenClock (k : nat) : Z := 1700000000000.

(** Scenario 4 of the specification: a mispredicted branch. *)
Definition mispredictProgram : list Template.t :=
  [ mkTemplate "ADDI x1,x0,1" "ADDI" 1 0 0 1;
    mkTemplate "BNE x1,x0,8" "BNE" 0 1 0 8;
    mkTemplate "ADDI x3,x0,99" "ADDI" 3 0 0 99;
    mkTemplate "ADDI x4,x0,7" "ADDI" 4 0 0 7 ].

(** Its state after four cycles; the fourth is the one that flushes. *)
Definition mispredictRun : Simulator :=
  steps tickingClock 4 (reset (parsedAs mispredictProgram) "").

(** Scenario 6 of the specification: a write to x0. *)
Definition x0Program : list Template.t :=
  [ mkTemplate "ADDI x0,x0,99" "ADDI" 0 0 0 99;
    mkTemplate "ADD x1,x0,x0" "ADD" 1 0 0 0 ].

(** Every LSQ entry has a tag below the next tag to allocate. *)
Definition lsqBelow (s : Simulator) : Prop :=
  Forall (fun t => t < nextRobTag s) (map LsqEntry.robTag (lsq s)).

(** The state of the window after a flush that left the entries [stale] in
    the LSQ, [b] being the next tag at the time of the flush: the stale
    entries are still the front of the LSQ, with tags below [b], and
    everything live has a tag from [b] on. *)
Record staleInv (stale : list LsqEntry.t) (b : Z) (s : Simulator) : Prop := {
  si_lsq : exists younger, lsq s = stale ++ younger;
  si_stale : Forall (fun l => LsqEntry.robTag l < b) stale;
  si_rob : Forall (fun t => b <= t) (map RobEntry.robTag (rob s));
  si_alu : Forall (stationFrom b) (rsALU s);
  si_ls : Forall (stationFrom b) (rsLS s);
  si_next : b <= nextRobTag s
}.

(** The tag of the head of the ROB. *)
Definition robHeadTag (s : Simulator) : option Z :=
  RobEntry.robTag <$> head (rob s).

(** A mispredicted branch with two loads issued behind it. *)
Definition staleLoadProgram : list Template.t :=
  [ mkTemplate "ADDI x6,x0,9" "ADDI" 6 0 0 9;
    mkTemplate "BNE x6,x0,8" "BNE" 0 6 0 8;
    mkTemplate "LW x5,0(x0)" "LW" 5 0 0 0;
    mkTemplate "LW x6,0(x0)" "LW" 6 0 0 0;
    mkTemplate "ADDI x4,x0,7" "ADDI" 4 0 0 7 ].

(** Its state after three cycles: the head of the ROB is the branch, ready
    and mispredicted, and the two loads behind it have their LSQ
    entries. *)
Definition staleLoadBeforeFlush : Simulator :=
  steps tickingClock 3 (reset (parsedAs staleLoadProgram) "").

(** Its state after six cycles: the load issued again after the flush is
    the head of the ROB, ready, behind the two stale LSQ entries. *)
Definition staleLoadStalled : Simulator :=
  steps tickingClock 6 (reset (parsedAs staleLoadProgram) "").

(** An AND of two registers. *)
Definition andProgram : list Template.t :=
  [ mkTemplate "ADDI x1,x0,6" "ADDI" 1 0 0 6;
    mkTemplate "ADDI x2,x0,3" "ADDI" 2 0 0 3;
    mkTemplate "AND x3,x1,x2" "AND" 3 1 2 0 ].

(** An addition that leaves the 32-bit range. *)
Definition overflowProgram : list Template.t :=
  [ mkTemplate "ADDI x1,x0,2147483647" "ADDI" 1 0 0 2147483647;
    mkTemplate "ADDI x2,x0,1" "ADDI" 2 0 0 1;
    mkTemplate "ADD x3,x1,x2" "ADD" 3 1 2 0 ].

(** Five loads from three blocks of the same cache set. *)
Definition lruProgram : list Template.t :=
  [ mkTemplate "LW x1,0(x0)" "LW" 1 0 0 0;
    mkTemplate "LW x2,2048(x0)" "LW" 2 0 0 2048;
    mkTemplate "LW x3,0(x0)" "LW" 3 0 0 0;
    mkTemplate "LW x4,4096(x0)" "LW" 4 0 0 4096;
    mkTemplate "LW x5,0(x0)" "LW" 5 0 0 0 ].

(** A branch whose operands are ready at issue. *)
Definition branchProgram : list Template.t :=
  [ mkTemplate "BEQ x0,x0,8" "BEQ" 0 0 0 8;
    mkTemplate "ADDI x1,x0,1" "ADDI" 1 0 0 1;
    mkTemplate "ADDI x2,x0,2" "ADDI" 2 0 0 2 ].

(** What the commit stage makes of a branch at the head of the ROB before
    it decides on a flush: the counters and the predictor. *)
Definition branchCounted (head : RobEntry.t) (s : Simulator) : Simulator :=
  let actualTaken := RobEntry.result head =? 1 in
  let s := setBranchTotal (branchTotal s + 1) s in
  let s := if Bool.eqb actualTaken (RobEntry.predictedTaken head)
           then setBranchCorrect (branchCorrect s + 1) s else s in
  setPredictor
    (GsharePredictor.update (predictor s) (RobEntry.pc head) actualTaken) s.

(** The direction of a branch, from the operands its station captured. *)
Definition branchTaken (op : string) (vj vk : Z) : bool :=
  if String.eqb op "BEQ" then vj =? vk else negb (vj =? vk).

(** The mispredicted-branch scenario after three cycles: the branch is
    the head of the ROB, ready. *)
Definition mispredictBeforeFlush : Simulator :=
  steps tickingClock 3 (reset (parsedAs mispredictProgram) "").

(** [branchProgram] after its first cycle: the branch sits in the first
    ALU station. *)
Definition branchIssued : Simulator :=
  steps tickingClock 1 (reset (parsedAs branchProgram) "").

(** ** Vocabulary of further properties *)

(** The configuration and the memory, which no stage assigns. *)
Record constantFrame (s s' : Simulator) : Prop := {
  cf_memory : memory s' = memory s;
  cf_robSize : robSize s' = robSize s;
  cf_width : width s' = width s;
  cf_instructions : instructions s' = instructions s
}.

(** The parts of the state that [step] assigns when the run is finished
    are [isRunning] and the log; everything else is listed here. *)
Record idleFrame (s s' : Simulator) : Prop := {
  if_memory : memory s' = memory s;
  if_regFile : regFile s' = regFile s;
  if_pc : pc s' = pc s;
  if_clock : clock s' = clock s;
  if_rat : rat s' = rat s;
  if_rob : rob s' = rob s;
  if_rsALU : rsALU s' = rsALU s;
  if_rsLS : rsLS s' = rsLS s;
  if_lsq : lsq s' = lsq s;
  if_robHistory : robOccupationHistory s' = robOccupationHistory s;
  if_rsHistory : rsOccupationHistory s' = rsOccupationHistory s;
  if_branchCorrect : branchCorrect s' = branchCorrect s;
  if_branchTotal : branchTotal s' = branchTotal s;
  if_l1i : l1i s' = l1i s;
  if_l1d : l1d s' = l1d s;
  if_predictor : predictor s' = predictor s;
  if_instructions : instructions s' = instructions s;
  if_committed : instructionsCommitted s' = instructionsCommitted s;
  if_nextRobTag : nextRobTag s' = nextRobTag s
}.

(** The clock and the occupancy histories, which only [step] assigns. *)
Record meterFrame (s s' : Simulator) : Prop := {
  mf_clock : clock s' = clock s;
  mf_robHistory : robOccupationHistory s' = robOccupationHistory s;
  mf_rsHistory : rsOccupationHistory s' = rsOccupationHistory s;
  mf_isRunning : isRunning s' = isRunning s
}.

(** The branch counters, the predictor and the instruction cache, which
    the execute stage leaves alone. *)
Record branchFrame (s s' : Simulator) : Prop := {
  bf_branchCorrect : branchCorrect s' = branchCorrect s;
  bf_branchTotal : branchTotal s' = branchTotal s;
  bf_predictor : predictor s' = predictor s;
  bf_l1i : l1i s' = l1i s
}.

(** Strictly increasing, from the front of the list to its end. *)
Fixpoint ascending (l : list Z) : Prop :=
  match l with
  | [] => True
  | x :: l' => Forall (fun y => x < y) l' /\ ascending l'
  end.

(** The tags of the ROB and of the LSQ increase from head to tail and lie
    between 1 and the next tag to allocate. *)
Record tagInv (s : Simulator) : Prop := {
  ti_rob : ascending (map RobEntry.robTag (rob s));
  ti_robRange : Forall (fun t => 1 <= t < nextRobTag s) (map RobEntry.robTag (rob s));
  ti_lsq : ascending (map LsqEntry.robTag (lsq s));
  ti_lsqRange : Forall (fun t => 1 <= t < nextRobTag s) (map LsqEntry.robTag (lsq s))
}.

(** The counters of a cache add up. *)
Definition cacheCounted (c : Cache.t) : Prop :=
  Cache.accessCount c = Cache.hitCount c + Cache.missCount c /\
  0 <= Cache.hitCount c /\ 0 <= Cache.missCount c.

(** The branch counters, the predictor and the data cache, which the
    issue stage leaves alone. *)
Record issueQuiet (s s' : Simulator) : Prop := {
  iq_branchCorrect : branchCorrect s' = branchCorrect s;
  iq_branchTotal : branchTotal s' = branchTotal s;
  iq_predictor : predictor s' = predictor s;
  iq_l1d : l1d s' = l1d s
}.

(** The shape of a cache object: 32 sets of 2 ways. *)
Definition cacheShaped (c : Cache.t) : Prop :=
  Cache.ways c = 2%nat /\ length (Cache.tags c) = 32%nat /\
  Forall (fun set => length set = 2%nat) (Cache.tags c).

(** The set index and the tag that [access] derives from an address. *)
Definition setIndex (addr : Z) : nat := Z.to_nat (JS.band (JS.sar addr 6) 31).
Definition lineTag (addr : Z) : Z := JS.sar addr 11.

(** A sequence of accesses, each with the clock reading it gets, its
    address and its kind. *)
Fixpoint accessAll (l : list (Z * Z * bool)) (c : Cache.t) : Cache.t :=
  match l with
  | [] => c
  | (now, addr, isWrite) :: l' => accessAll l' (Cache.access now c addr isWrite).1
  end.

(** The line in way [way] of set [idx]. *)
Definition lineAt (c : Cache.t) (idx way : nat) : option Cache.Line :=
  Cache.tags c !! idx ≫= fun set => set !! way.

(** The condition of the hit loop of [access]: the set of the address
    has a way with the tag of the address. *)
Definition cached (c : Cache.t) (addr : Z) : bool :=
  match Cache.findWay (lineTag addr) 0
          (default [] (Cache.tags c !! setIndex addr)) with
  | Some _ => true
  | None => false
  end.

(** The accounting of the two caches: both keep the shape the constructor
    gave them, their counters add up, every access has read the clock
    once, and the instruction cache has been accessed once per tag
    allocated. *)
Record cacheInv (s : Simulator) : Prop := {
  ci_l1i_shape : cacheShaped (l1i s);
  ci_l1d_shape : cacheShaped (l1d s);
  ci_l1i_count : cacheCounted (l1i s);
  ci_l1d_count : cacheCounted (l1d s);
  ci_clock : Z.of_nat (dateNowCalls s)
             = Cache.accessCount (l1i s) + Cache.accessCount (l1d s);
  ci_fetches : Cache.accessCount (l1i s) = nextRobTag s - 1
}.

(** A part of a cycle that accesses the data cache at most once and
    leaves the instruction cache and the tag counter alone. *)
Definition dataStep (s s' : Simulator) : Prop :=
  nextRobTag s' = nextRobTag s /\ l1i s' = l1i s /\
  ((l1d s' = l1d s /\ dateNowCalls s' = dateNowCalls s) \/
   exists now addr isWrite,
     l1d s' = (Cache.access now (l1d s) addr isWrite).1 /\
     dateNowCalls s' = S (dateNowCalls s)).

(** The properties of a ROB entry that are fixed when it is pushed. *)
Definition robStatic (r : RobEntry.t) : Z * Z * string :=
  (RobEntry.robTag r, RobEntry.rd r, RobEntry.op r).

(** The register file is an [Int32Array] of 32 elements; the RAT has 32
    elements, each -1 or the tag of an entry of the ROB whose destination
    is that register. *)
Record regInv (s : Simulator) : Prop := {
  ri_regLen : length (regFile s) = 32%nat;
  ri_regRange : Forall (fun v => - 2 ^ 31 <= v < 2 ^ 31) (regFile s);
  ri_ratLen : length (rat s) = 32%nat;
  ri_ratLive :
    forall i t, rat s !! i = Some t -> t <> -1 ->
      exists op, (t, Z.of_nat i, op) ∈ map robStatic (rob s) /\
                 writesRegister (Z.of_nat i) op = true
}.

(** A store of a non-zero value. *)
Definition storeProgramExample : list Template.t :=
  [ mkTemplate "ADDI x1,x0,5" "ADDI" 1 0 0 5;
    mkTemplate "SW x1,8(x0)" "SW" 0 0 1 8 ].

(** ** An instruction that waits for a result that has left the ROB *)

(** A station that, when busy with the instruction of tag [headTag],
    waits for the tag [t] on one of its operands. *)
Definition waitsOn (headTag t : Z) (rs : Station.t) : bool :=
  negb (Station.busy rs) ||
  match Station.slot rs with
  | None => true
  | Some f =>
      negb (Instruction.robTag (Station.inst f) =? headTag)
      || (Station.qj f =? t) || (Station.qk f =? t)
  end.

(** The head of the ROB has no result yet, and every station busy with it
    waits for the tag [t], which was allocated earlier and is not in the
    ROB (its instruction has committed). *)
Definition starved (t : Z) (s : Simulator) : bool :=
  match rob s with
  | [] => false
  | head :: _ =>
      negb (RobEntry.isReady head)
      && (1 <=? t) && (t <? nextRobTag s)
      && (RobEntry.robTag head <? nextRobTag s)
      && forallb (fun r => negb (RobEntry.robTag r =? t)) (rob s)
      && forallb (waitsOn (RobEntry.robTag head) t) (rsALU s ++ rsLS s)
  end.

(** A load followed by an instruction that uses its result. *)
Definition loadUseProgram : list Template.t :=
  [ mkTemplate "LW x1,0(x0)" "LW" 1 0 0 0;
    mkTemplate "ADD x2,x1,x1" "ADD" 2 1 1 0 ].

(** The same, for a given head [hd], as the invariant of the cycles
    that follow. *)
Record starving (hd : RobEntry.t) (t : Z) (s : Simulator) : Prop := {
  sv_rob : exists rest, rob s = hd :: rest;
  sv_ready : RobEntry.isReady hd = false;
  sv_tag : 1 <= t < nextRobTag s;
  sv_head : RobEntry.robTag hd < nextRobTag s;
  sv_gone : Forall (fun r => RobEntry.robTag r <> t) (rob s);
  sv_alu : Forall (fun rs => waitsOn (RobEntry.robTag hd) t rs = true) (rsALU s);
  sv_ls : Forall (fun rs => waitsOn (RobEntry.robTag hd) t rs = true) (rsLS s)
}.

(** ** The log *)

(** The lines [ISSUE: ...] of a log. *)
Definition isIssueLine (l : LogLine) : bool :=
  match l.2 with MsgIssue _ _ => true | _ => false end.

Definition issueLines (ls : list LogLine) : nat :=
  length (filter (fun l => isIssueLine l = true) ls).

(** From the front of the list to its end, no element is smaller than
    one before it. *)
Fixpoint nondecreasing (l : list Z) : Prop :=
  match l with
  | [] => True
  | x :: l' => Forall (fun y => x <= y) l' /\ nondecreasing l'
  end.

(** A part of a cycle appends lines to the log, all tagged with the
    clock, which it leaves alone; [k] of them say [ISSUE]. *)
Record logGrowth (k : nat) (s s' : Simulator) : Prop := {
  lg_clock : clock s' = clock s;
  lg_more : exists more,
      logs s' = logs s ++ more /\
      Forall (fun l => l.1 = clock s) more /\
      issueLines more = k
}.

(** The log of a run: its lines are tagged with cycles up to the current
    one, in order, and there is one [ISSUE] line per tag allocated. *)
Record logInv (s : Simulator) : Prop := {
  li_clock : 0 <= clock s;
  li_range : Forall (fun l => 0 <= l.1 <= clock s) (logs s);
  li_order : nondecreasing (map fst (logs s));
  li_issues : Z.of_nat (issueLines (logs s)) = nextRobTag s - 1
}.

(** ** The reservation stations and the ROB *)

(** The tag of the instruction that a busy station holds. *)
Definition stationTag (rs : Station.t) : option Z :=
  if Station.busy rs
  then (fun f => Instruction.robTag (Station.inst f)) <$> Station.slot rs
  else None.

Definition busyTags (sts : list Station.t) : list Z := omap stationTag sts.

(** The instruction in the fields [f] of a station is in flight: the ROB
    [rb] has its entry, which has no result yet and agrees with it on the
    operation, the destination and the address; the instruction is not
    marked ready and has between one and all of its cycles left. *)
Record heldIn (rb : list RobEntry.t) (f : Station.Fields) : Prop := {
  hi_entry :
    exists r, findRob (Instruction.robTag (Station.inst f)) rb = Some r /\
              RobEntry.isReady r = false /\
              RobEntry.op r = Instruction.op (Station.inst f) /\
              RobEntry.rd r = Instruction.rd (Station.inst f) /\
              RobEntry.pc r = Instruction.pc (Station.inst f);
  hi_ready : Instruction.isReady (Station.inst f) = false;
  hi_cycles : 0 < Instruction.executionCyclesLeft (Station.inst f)
              <= Instruction.totalCycles (Station.inst f);
  hi_op : Station.op f = Instruction.op (Station.inst f);
  hi_tag : Station.robTag f = Instruction.robTag (Station.inst f)
}.

(** A busy station has its fields, with an instruction in flight. *)
Definition held (rb : list RobEntry.t) (rs : Station.t) : Prop :=
  Station.busy rs = true -> exists f, Station.slot rs = Some f /\ heldIn rb f.

(** The results of the loads in the ROB are 0. *)
Definition loadsZero (rb : list RobEntry.t) : Prop :=
  Forall (fun r => RobEntry.op r = "LW" -> RobEntry.result r = 0) rb.

(** The bookkeeping of the stations: every busy station holds an
    instruction in flight, no two of them the same one; with it, the
    memory is in its initial state and the loads have read 0. *)
Record stationInv (s : Simulator) : Prop := {
  st_alu : Forall (held (rob s)) (rsALU s);
  st_ls : Forall (held (rob s)) (rsLS s);
  st_distinct : NoDup (busyTags (rsALU s ++ rsLS s));
  st_loads : loadsZero (rob s);
  st_memory : memory s = ∅
}.

(** ** The two pools of stations *)

(** [['LW','SW'].includes(op)] *)
Definition isLS (op : string) : bool := String.eqb op "LW" || String.eqb op "SW".

(** A station of the load/store pool ([ls = true]) or of the ALU pool
    ([ls = false]) holds, when busy, an instruction of its class. *)
Definition poolHolds (ls : bool) (rs : Station.t) : Prop :=
  Station.busy rs = true ->
  exists f, Station.slot rs = Some f /\
            isLS (Instruction.op (Station.inst f)) = ls.

(** The pools keep the sizes [initRS(8, 4)] gave them and the classes of
    their instructions; the occupancy samples stay within the capacities. *)
Record poolInv (s : Simulator) : Prop := {
  pi_aluSize : length (rsALU s) = 8%nat;
  pi_lsSize : length (rsLS s) = 4%nat;
  pi_alu : Forall (poolHolds false) (rsALU s);
  pi_ls : Forall (poolHolds true) (rsLS s);
  pi_robSamples : Forall (fun x => 0 <= x <= 32) (robOccupationHistory s);
  pi_rsSamples : Forall (fun x => 0 <= x <= 12) (rsOccupationHistory s)
}.

(** ** A PC outside the program *)

(** The window is empty and the PC is at an address that holds no
    instruction, below the end of the program: nothing is in flight,
    nothing can be fetched, and [step] does not take the run to be
    finished. *)
Definition strayed (s : Simulator) : bool :=
  (length (rob s) =? 0)%nat
  && forallb (fun rs => negb (Station.busy rs)) (rsALU s ++ rsLS s)
  && match instructions s !! pc s with None => true | Some _ => false end
  && (pc s <? Z.of_nat (size (instructions s)) * 4).

(** A branch to an address before the program. *)
Definition strayProgram : list Template.t :=
  [ mkTemplate "BEQ x0,x0,-8" "BEQ" 0 0 0 (-8) ].

(** ** The LSQ and the loads and stores of the ROB *)

(** The tags of the loads and stores in the ROB, from head to tail. *)
Definition memTags (rb : list RobEntry.t) : list Z :=
  map RobEntry.robTag (filter (fun r => isLoadStore (RobEntry.op r) = true) rb).

(** The LSQ [q] mirrors the ROB [rb]: it holds one entry for each load
    and store of the ROB, in the same order and with the same tag, and an
    entry is marked ready as soon as its instruction has its result. *)
Record lsqMirrors (rb : list RobEntry.t) (q : list LsqEntry.t) : Prop := {
  lq_tags : map LsqEntry.robTag q = memTags rb;
  lq_ready :
    Forall (fun l =>
              LsqEntry.isMemReady l = true \/
              exists r, findRob (LsqEntry.robTag l) rb = Some r /\
                        RobEntry.isReady r = false) q
}.

(** * Properties *)

(** ** Lists updated in place *)

Lemma updFirst_length {A} (p : A -> bool) f (l : list A) :
  length (updFirst p f l) = length l.
Proof.
  induction l as [|x l IH]; [reflexivity|].
  simpl. destruct (p x); simpl; congruence.
Qed.

Lemma updFirst_map {A B} (g : A -> B) (p : A -> bool) f (l : list A) :
  (forall x, g (f x) = g x) -> map g (updFirst p f l) = map g l.
Proof.
  intros Hg. induction l as [|x l IH]; [reflexivity|].
  simpl. destruct (p x); simpl; congruence.
Qed.

Lemma updFirst_app_miss {A} (p : A -> bool) f (l1 l2 : list A) :
  Forall (fun x => p x = false) l1 ->
  updFirst p f (l1 ++ l2) = l1 ++ updFirst p f l2.
Proof.
  induction 1 as [|x l1 Hx _ IH]; [reflexivity|].
  simpl. rewrite Hx, IH. reflexivity.
Qed.

Lemma Forall_updFirst {A} (Q : A -> Prop) (p : A -> bool) f (l : list A) :
  (forall x, Q x -> Q (f x)) -> Forall Q l -> Forall Q (updFirst p f l).
Proof.
  intros Hf. induction 1 as [|x l Hx Hl IH]; [constructor|].
  simpl. destruct (p x); constructor; auto.
Qed.

Lemma find_updFirst {A} (p : A -> bool) f (l : list A) :
  (forall x, p x = true -> p (f x) = true) ->
  find p (updFirst p f l) = f <$> find p l.
Proof.
  intros Hf. induction l as [|x l IH]; [reflexivity|].
  simpl. destruct (p x) eqn:Hx; simpl.
  - rewrite (Hf x Hx). reflexivity.
  - rewrite Hx. exact IH.
Qed.

(** ** The commit stage *)

Ltac unfold_commit :=
  unfold stageCommit, commitBranch, commitRegister, commitMemory, commitStore,
    l1dAccess, flushPipeline, initRS, log.

Lemma writesRegister_rd rd op : writesRegister rd op = true -> rd <> 0.
Proof.
  unfold writesRegister. intros H.
  destruct (Z.eqb_spec rd 0) as [->|]; [discriminate|assumption].
Qed.

Lemma int32ArraySet_lookup_0 rd op v (l : list Z) :
  writesRegister rd op = true ->
  JS.int32ArraySet rd v l !! 0%nat = l !! 0%nat.
Proof.
  intros H%writesRegister_rd. unfold JS.int32ArraySet.
  destruct (Z.leb_spec 0 rd); [|reflexivity].
  apply list_lookup_insert_ne. lia.
Qed.

Lemma stageCommit_regFile_0 Date_now s :
  regFile (stageCommit Date_now s) !! 0%nat = regFile s !! 0%nat.
Proof.
  unfold_commit.
  repeat case_match; simplify_eq; cbn; try reflexivity;
    eauto using int32ArraySet_lookup_0.
Qed.

Lemma ratSet_architectural r (rt : list Z) :
  rt !! 0%nat = Some (-1) -> ratSet r (-1) rt !! 0%nat = Some (-1).
Proof.
  intros H. unfold ratSet. destruct (0 <=? r); [|exact H].
  destruct (decide (Z.to_nat r = 0%nat)) as [->|Hne].
  - apply list_lookup_insert_eq. apply lookup_lt_Some in H. exact H.
  - rewrite list_lookup_insert_ne by exact Hne. exact H.
Qed.

Lemma replicate_architectural (rt : list Z) :
  rt !! 0%nat = Some (-1) -> replicate (length rt) (-1) !! 0%nat = Some (-1).
Proof.
  intros H. apply lookup_replicate_2. apply lookup_lt_Some in H. exact H.
Qed.

Lemma stageCommit_rat_0 Date_now s :
  rat s !! 0%nat = Some (-1) ->
  rat (stageCommit Date_now s) !! 0%nat = Some (-1).
Proof.
  intros H. unfold_commit.
  repeat case_match; simplify_eq; cbn; try assumption;
    auto using ratSet_architectural, replicate_architectural.
Qed.

Lemma stageCommit_nextRobTag Date_now s :
  nextRobTag (stageCommit Date_now s) = nextRobTag s.
Proof.
  unfold_commit. repeat case_match; simplify_eq; cbn; reflexivity.
Qed.

Lemma stageCommit_outcome Date_now s :
  commitOutcome s (stageCommit Date_now s).
Proof.
  destruct (rob s) as [|head rest] eqn:Hrob.
  { apply CommitIdle; [left; exact Hrob|].
    unfold stageCommit. rewrite Hrob. reflexivity. }
  destruct (RobEntry.isReady head) eqn:Hready.
  2:{ apply CommitIdle; [right; eauto|].
      unfold stageCommit. rewrite Hrob, Hready. reflexivity. }
  destruct (mispredicted s) eqn:Hmis.
  - apply (CommitFlush _ _ head rest); try assumption;
      revert Hmis; unfold mispredicted; unfold_commit;
      rewrite Hrob, Hready; cbn;
      destruct (isBranch (RobEntry.op head)); cbn; try discriminate;
      destruct (Bool.eqb _ _); cbn; try discriminate; intros _;
      destruct (RobEntry.result head =? 1); reflexivity.
  - assert (Hb : isBranch (RobEntry.op head) = true ->
                 Bool.eqb (RobEntry.result head =? 1) (RobEntry.predictedTaken head) = true).
    { revert Hmis. unfold mispredicted. rewrite Hrob, Hready. cbn.
      destruct (isBranch _); cbn; [|discriminate].
      destruct (Bool.eqb _ _); cbn; [reflexivity|discriminate]. }
    destruct (isLoadStore (RobEntry.op head)) eqn:Hls.
    + destruct (lsq s) as [|lsqHead lsqRest] eqn:Hlsq.
      * apply (CommitStall _ _ head rest); try assumption;
          try (rewrite Hlsq; exact I);
          unfold_commit; rewrite Hrob, Hready;
          (destruct (isBranch (RobEntry.op head)); [rewrite Hb by reflexivity|]);
          cbn; repeat case_match; simplify_eq; cbn in *; congruence.
      * destruct ((LsqEntry.robTag lsqHead =? RobEntry.robTag head)
                  && LsqEntry.isMemReady lsqHead) eqn:Hmatch.
        -- apply (CommitRetire _ _ head rest); try assumption;
             try rewrite Hls;
             unfold_commit; rewrite Hrob, Hready;
             (destruct (isBranch (RobEntry.op head)); [rewrite Hb by reflexivity|]);
             cbn; repeat case_match; simplify_eq; cbn in *;
             rewrite ?Hrob, ?Hlsq in *; simplify_eq; try reflexivity; try congruence;
             try (eexists; split; [reflexivity|];
                  apply andb_prop in Hmatch as [?%Z.eqb_eq ?]; auto).
        -- apply (CommitStall _ _ head rest); try assumption;
             try (rewrite Hlsq; exact Hmatch);
             unfold_commit; rewrite Hrob, Hready;
             (destruct (isBranch (RobEntry.op head)); [rewrite Hb by reflexivity|]);
             cbn; repeat case_match; simplify_eq; cbn in *;
             rewrite ?Hrob, ?Hlsq in *; simplify_eq; try reflexivity; congruence.
    + apply (CommitRetire _ _ head rest); try assumption;
        try rewrite Hls;
        unfold_commit; rewrite Hrob, Hready;
        (destruct (isBranch (RobEntry.op head)); [rewrite Hb by reflexivity|]);
        cbn; repeat case_match; simplify_eq; cbn in *;
        rewrite ?Hrob in *; simplify_eq; try reflexivity; congruence.
Qed.

(** ** The gshare predictor *)

Lemma toInt32_small z : - 2 ^ 31 <= z < 2 ^ 31 -> JS.toInt32 z = z.
Proof.
  intros H. unfold JS.toInt32. rewrite Z.mod_small; lia.
Qed.

Lemma toInt32_range z : - 2 ^ 31 <= JS.toInt32 z < 2 ^ 31.
Proof.
  unfold JS.toInt32.
  pose proof (Z.mod_pos_bound (z + 2 ^ 31) (2 ^ 32) ltac:(lia)). lia.
Qed.

Lemma land_1023_mod z : Z.land z 1023 = z mod 1024.
Proof. change 1023 with (Z.ones 10). rewrite Z.land_ones by lia. reflexivity. Qed.

Lemma land_1023_range z : 0 <= Z.land z 1023 < 1024.
Proof. rewrite land_1023_mod. apply Z.mod_pos_bound. lia. Qed.

Lemma land_toInt32_low z : Z.land (JS.toInt32 z) 1023 = Z.land z 1023.
Proof.
  rewrite !land_1023_mod. unfold JS.toInt32.
  rewrite (Z.mod_eq (z + 2 ^ 31) (2 ^ 32)) by lia.
  replace (z + 2 ^ 31 - 2 ^ 32 * ((z + 2 ^ 31) / 2 ^ 32) - 2 ^ 31)
    with (z + (- (2 ^ 22) * ((z + 2 ^ 31) / 2 ^ 32)) * 1024) by lia.
  apply Z_mod_plus_full.
Qed.

Lemma land_lxor_distr a b c :
  Z.land (Z.lxor a b) c = Z.lxor (Z.land a c) (Z.land b c).
Proof.
  apply Z.bits_inj'. intros n Hn.
  rewrite Z.land_spec, !Z.lxor_spec, !Z.land_spec.
  destruct (Z.testbit a n), (Z.testbit b n), (Z.testbit c n); reflexivity.
Qed.

Lemma index_spec p pc :
  GsharePredictor.index p pc = Z.land (Z.lxor pc (GsharePredictor.ghr p)) 1023.
Proof.
  unfold GsharePredictor.index, JS.band, JS.bxor.
  change (JS.toInt32 1023) with 1023.
  rewrite land_toInt32_low, !land_lxor_distr, !land_toInt32_low.
  reflexivity.
Qed.

Lemma index_range p pc : 0 <= GsharePredictor.index p pc < 1024.
Proof. rewrite index_spec. apply land_1023_range. Qed.

Lemma ghr_update_spec g taken :
  0 <= g < 1024 ->
  JS.band (JS.bor (JS.shl g 1) (JS.ofBool taken)) 1023
  = Z.land (Z.lor (Z.shiftl g 1) (JS.ofBool taken)) 1023.
Proof.
  intros Hg. unfold JS.band, JS.bor, JS.shl.
  change (JS.toInt32 1023) with 1023. change (1 mod 32) with 1.
  rewrite land_toInt32_low.
  rewrite (toInt32_small g) by lia.
  rewrite Z.shiftl_mul_pow2 by lia. change (2 ^ 1) with 2.
  rewrite !(toInt32_small (g * 2)) by lia.
  rewrite (toInt32_small (JS.ofBool taken)) by (destruct taken; simpl; lia).
  reflexivity.
Qed.

Lemma counter_lookup p i :
  GsharePredictor.wf p -> 0 <= i < 1024 ->
  exists c, GsharePredictor.pht p !! Z.to_nat i = Some c /\ 0 <= c <= 3.
Proof.
  intros (_ & Hlen & Hall) Hi.
  destruct (lookup_lt_is_Some_2 (GsharePredictor.pht p) (Z.to_nat i)) as [c Hc].
  { rewrite Hlen. lia. }
  exists c. split; [exact Hc|].
  rewrite Forall_forall in Hall. apply Hall.
  eapply list_elem_of_lookup_2. exact Hc.
Qed.

(** C6: for a predictor with a 10-bit history and 1024 counters in [0, 3],
    [predict] answers taken exactly when the counter at index
    (pc XOR GHR) AND 0x3FF is at least 2; [update] moves that counter one
    step up (at most to 3) or down (at least to 0), leaves every other
    counter alone, and shifts the outcome into the history from the low
    bit, 1 for taken and 0 for not taken, kept to 10 bits; the updated
    predictor has the same shape, so every counter stays in [0, 3]. *)
Theorem gshare_predict_update (p : GsharePredictor.t) (pc : Z) (taken : bool) :
  GsharePredictor.wf p ->
  let i := Z.land (Z.lxor pc (GsharePredictor.ghr p)) 1023 in
  let c := GsharePredictor.counter p i in
  let p' := GsharePredictor.update p pc taken in
  (GsharePredictor.predict p pc = true <-> 2 <= c) /\
  GsharePredictor.counter p' i
    = (if taken then Z.min 3 (c + 1) else Z.max 0 (c - 1)) /\
  (forall j, 0 <= j -> j <> i ->
     GsharePredictor.counter p' j = GsharePredictor.counter p j) /\
  GsharePredictor.ghr p'
    = Z.land (Z.lor (Z.shiftl (GsharePredictor.ghr p) 1) (if taken then 1 else 0))
        1023 /\
  GsharePredictor.wf p'.
Proof.
  intros Hwf i c p'.
  assert (Hi : GsharePredictor.index p pc = i) by apply index_spec.
  assert (Hr : 0 <= i < 1024) by apply land_1023_range.
  destruct (counter_lookup p i Hwf Hr) as (c0 & Hc0 & Hc0r).
  assert (Hc : c = c0).
  { unfold c, GsharePredictor.counter. rewrite Hc0. reflexivity. }
  destruct Hwf as (Hg & Hlen & Hall).
  assert (Hnew : JS.toUint8 (if taken then if c <? 3 then c + 1 else c
                             else if 0 <? c then c - 1 else c)
                 = if taken then Z.min 3 (c + 1) else Z.max 0 (c - 1)).
  { unfold JS.toUint8. rewrite Hc.
    destruct taken; [destruct (Z.ltb_spec c0 3)|destruct (Z.ltb_spec 0 c0)];
      rewrite Z.mod_small; lia. }
  assert (Hpht : GsharePredictor.pht p'
                 = <[Z.to_nat i := if taken then Z.min 3 (c + 1) else Z.max 0 (c - 1)]>
                     (GsharePredictor.pht p)).
  { unfold p', GsharePredictor.update. simpl. rewrite Hi. fold c. rewrite Hnew.
    reflexivity. }
  split; [|split; [|split; [|split]]].
  - unfold GsharePredictor.predict. rewrite Hi. fold c. apply Z.leb_le.
  - unfold GsharePredictor.counter at 1. rewrite Hpht.
    rewrite list_lookup_insert_eq by (rewrite Hlen; lia). reflexivity.
  - intros j Hj Hne. unfold GsharePredictor.counter. rewrite Hpht.
    rewrite list_lookup_insert_ne by lia. reflexivity.
  - unfold p', GsharePredictor.update. cbn [GsharePredictor.ghr].
    rewrite ghr_update_spec by exact Hg. destruct taken; reflexivity.
  - split; [|split].
    + unfold p', GsharePredictor.update. simpl.
      rewrite ghr_update_spec by exact Hg. apply land_1023_range.
    + rewrite Hpht, length_insert. exact Hlen.
    + rewrite Hpht. apply Forall_insert; [exact Hall|].
      rewrite Hc. destruct taken; lia.
Qed.

Lemma gshare_new_wf : GsharePredictor.wf GsharePredictor.new.
Proof.
  unfold GsharePredictor.wf, GsharePredictor.new.
  cbn [GsharePredictor.ghr GsharePredictor.pht].
  split; [lia|split; [apply length_replicate|]].
  apply Forall_replicate. lia.
Qed.

Lemma gshare_predict_update_witness :
  GsharePredictor.wf GsharePredictor.new /\
  GsharePredictor.ghr (GsharePredictor.update GsharePredictor.new 4 true) = 1 /\
  GsharePredictor.ghr
    (GsharePredictor.update (GsharePredictor.update GsharePredictor.new 4 true) 4 false)
  = 2 /\
  GsharePredictor.counter (GsharePredictor.update GsharePredictor.new 4 true) 4 = 2 /\
  GsharePredictor.wf (GsharePredictor.update GsharePredictor.new 4 true).
Proof.
  pose proof (gshare_predict_update GsharePredictor.new 4 true gshare_new_wf) as H.
  cbv zeta in H. destruct H as (_ & Hc & _ & Hg & Hwf).
  pose proof (gshare_predict_update
                (GsharePredictor.update GsharePredictor.new 4 true) 4 false Hwf) as H'.
  cbv zeta in H'. destruct H' as (_ & _ & _ & Hg' & _).
  split; [exact gshare_new_wf|].
  split; [exact (eq_trans Hg eq_refl)|].
  split; [rewrite Hg', Hg; reflexivity|].
  split; [exact (eq_trans Hc eq_refl)|exact Hwf].
Defined.

Lemma stageCommit_count Date_now s :
  inFlight (stageCommit Date_now s) + flushDiscards s = inFlight s.
Proof.
  unfold inFlight, flushDiscards.
  destruct (stageCommit_outcome Date_now s)
    as [H ->|head rest Hrob Hmis Hrob' _ _ _ _ _ _ Hc
       |head rest Hrob _ Hmis _ _ Hrob' _ _ _ Hc
       |head rest Hrob _ Hmis Hrob' _ _ _ Hc].
  - unfold mispredicted.
    destruct (rob s) as [|head rest] eqn:Hrob; [lia|].
    destruct H as [?|(h & r & ? & Hready)]; [discriminate|]. simplify_eq.
    rewrite Hready. cbn. lia.
  - rewrite Hmis, Hrob', Hc. cbn. lia.
  - rewrite Hmis, Hrob', Hc. lia.
  - rewrite Hmis, Hrob', Hc, Hrob. cbn [length]. lia.
Qed.

(** ** The execute stage *)

Lemma executeFrame_refl s : executeFrame s s.
Proof. split; reflexivity. Qed.

Lemma executeFrame_trans s1 s2 s3 :
  executeFrame s1 s2 -> executeFrame s2 s3 -> executeFrame s1 s3.
Proof.
  intros [] []. split; congruence.
Qed.

Lemma broadcast_tags inst val rb :
  map RobEntry.robTag (broadcast inst val rb) = map RobEntry.robTag rb.
Proof.
  unfold broadcast. apply updFirst_map. intros r.
  destruct (isBranch _); reflexivity.
Qed.

Lemma markLoad_tags inst q :
  map LsqEntry.robTag (markLoad inst q) = map LsqEntry.robTag q.
Proof. unfold markLoad. apply updFirst_map. reflexivity. Qed.

Lemma markStore_tags inst val q :
  map LsqEntry.robTag (markStore inst val q) = map LsqEntry.robTag q.
Proof. unfold markStore. apply updFirst_map. reflexivity. Qed.

Lemma computeResult_frame Date_now f inst s :
  executeFrame s (computeResult Date_now f inst s).1.
Proof.
  unfold computeResult, l1dAccess.
  repeat case_match; simplify_eq; cbn -[markLoad markStore]; split;
    cbn -[markLoad markStore];
    rewrite ?markLoad_tags, ?markStore_tags; reflexivity.
Qed.

Lemma executeStation_frame Date_now s rs :
  executeFrame s (executeStation Date_now s rs).1.
Proof.
  unfold executeStation.
  repeat case_match; simplify_eq; cbn -[broadcast];
    try apply executeFrame_refl.
  all: match goal with H : computeResult _ ?f ?i ?s = _ |- _ =>
    pose proof (computeResult_frame Date_now f i s) as Hf; rewrite H in Hf
  end.
  all: destruct Hf; split; cbn -[broadcast] in *; rewrite ?broadcast_tags;
    assumption.
Qed.

Lemma executeStations_frame Date_now sts s :
  executeFrame s (executeStations Date_now s sts).1.
Proof.
  revert s. induction sts as [|rs sts IH]; intros s; [apply executeFrame_refl|].
  simpl.
  pose proof (executeStation_frame Date_now s rs) as H1.
  destruct (executeStation Date_now s rs) as [s1 rs'].
  pose proof (IH s1) as H2.
  destruct (executeStations Date_now s1 sts) as [s2 rest']. cbn in *.
  eapply executeFrame_trans; eassumption.
Qed.

Lemma stageExecute_frame Date_now s :
  executeFrame s (stageExecute Date_now s).
Proof.
  unfold stageExecute.
  pose proof (executeStations_frame Date_now (rsALU s) s) as H1.
  destruct (executeStations Date_now s (rsALU s)) as [s1 alu].
  pose proof (executeStations_frame Date_now (rsLS s) s1) as H2.
  destruct (executeStations Date_now s1 (rsLS s)) as [s2 ls]. cbn in *.
  destruct (executeFrame_trans _ _ _ H1 H2). split; cbn; assumption.
Qed.

Lemma executeFrame_rob_length s s' :
  executeFrame s s' -> length (rob s') = length (rob s).
Proof.
  intros [].
  rewrite <- (length_map RobEntry.robTag (rob s')), ef_robTags0.
  apply length_map.
Qed.

Lemma stageExecute_count Date_now s :
  inFlight (stageExecute Date_now s) = inFlight s.
Proof.
  pose proof (stageExecute_frame Date_now s) as Hf.
  unfold inFlight. rewrite (executeFrame_rob_length _ _ Hf).
  destruct Hf. congruence.
Qed.

(** ** The issue stage *)

Lemma issueFetch_frame Date_now s : windowFrame s (issueFetch Date_now s).
Proof.
  unfold issueFetch, l1iAccess, log.
  repeat case_match; simplify_eq; split; reflexivity.
Qed.

Lemma issueAdvance_frame inst s : windowFrame s (issueAdvance inst s).
Proof.
  unfold issueAdvance, log.
  repeat case_match; split; reflexivity.
Qed.

Lemma issueAllocate_effect inst qj vj qk vk s :
  nextRobTag s = Instruction.robTag inst + 1 ->
  issueEffect (Instruction.robTag inst) (Instruction.rd inst) (Instruction.op inst)
    s (issueAllocate inst qj vj qk vk s).
Proof.
  intros Hn. unfold issueAllocate.
  destruct (String.eqb (Instruction.op inst) "LW" || String.eqb (Instruction.op inst) "SW");
    destruct (writesRegister (Instruction.rd inst) (Instruction.op inst)) eqn:Hw;
    split; cbn; rewrite ?Hw; try reflexivity; try assumption;
    try (eexists; split; reflexivity);
    try (left; reflexivity); try (right; eexists; split; reflexivity).
  all: eexists; split;
    [|first [left; split; reflexivity | right; split; reflexivity]];
    intros _ f [= <-]; cbn; lia.
Qed.

Lemma issueInstance_fields template pc0 tag pred :
  Instruction.robTag (issueInstance template pc0 tag pred) = tag /\
  Instruction.rd (issueInstance template pc0 tag pred) = Template.rd template /\
  Instruction.op (issueInstance template pc0 tag pred) = Template.op template.
Proof. repeat split; reflexivity. Qed.

Lemma issue_effect Date_now template s :
  issueEffect (nextRobTag s) (Template.rd template) (Template.op template)
    s (issue Date_now template s).
Proof.
  unfold issue.
  destruct (issueFetch_frame Date_now s) as [].
  set (s1 := issueFetch Date_now s) in *.
  set (s2 := setNextRobTag (nextRobTag s1 + 1) s1).
  destruct (renameSource (Template.rs1 template) s2) as [qj vj].
  destruct (renameSource (Template.rs2 template) s2) as [qk vk].
  set (pred := if isBranch (Template.op template) then _ else false).
  set (inst := issueInstance template (pc s2) (nextRobTag s1) pred).
  destruct (issueInstance_fields template (pc s2) (nextRobTag s1) pred)
    as (Htag & Hrd & Hop). fold inst in Htag, Hrd, Hop.
  assert (Hn : nextRobTag s2 = Instruction.robTag inst + 1).
  { rewrite Htag. reflexivity. }
  destruct (issueAllocate_effect inst qj vj qk vk s2 Hn) as [].
  destruct (issueAdvance_frame inst (issueAllocate inst qj vj qk vk s2)) as [].
  rewrite Htag, Hrd, Hop in *.
  rewrite wf_nextRobTag0 in *.
  split; try congruence.
  - rewrite wf_memory1, ie_memory0. cbn. assumption.
  - rewrite wf_regFile1, ie_regFile0. cbn. assumption.
  - rewrite wf_committed1, ie_committed0. cbn. assumption.
  - rewrite wf_width1, ie_width0. cbn. assumption.
  - rewrite wf_rob1. cbn in ie_rob0. rewrite wf_rob0 in ie_rob0. exact ie_rob0.
  - rewrite wf_lsq1. cbn in ie_lsq0. rewrite wf_lsq0 in ie_lsq0. exact ie_lsq0.
  - rewrite wf_rat1, ie_rat0. cbn. rewrite wf_rat0. reflexivity.
  - rewrite wf_rsALU1, wf_rsLS1. cbn in ie_stations0.
    rewrite wf_rsALU0, wf_rsLS0 in ie_stations0. exact ie_stations0.
Qed.

Lemma stageFetchAndIssue_false Date_now s s' :
  stageFetchAndIssue Date_now s = (s', false) -> s' = s.
Proof.
  unfold stageFetchAndIssue.
  repeat case_match; intros; simplify_eq; reflexivity.
Qed.

Lemma stageFetchAndIssue_true Date_now s s' :
  stageFetchAndIssue Date_now s = (s', true) ->
  exists template,
    instructions s !! pc s = Some template /\ s' = issue Date_now template s.
Proof.
  unfold stageFetchAndIssue.
  destruct (robSize s <=? length (rob s))%nat; [intros [= ]|].
  destruct (instructions s !! pc s) as [template|]; [|intros [= ]].
  destruct (find _ _); intros [= <-]. eauto.
Qed.

(** ** Counting issued, committed and discarded instructions *)

Lemma issueLoop_count Date_now n s :
  inFlight (issueLoop Date_now n s).1
    = inFlight s + Z.of_nat (issueLoop Date_now n s).2 /\
  nextRobTag (issueLoop Date_now n s).1
    = nextRobTag s + Z.of_nat (issueLoop Date_now n s).2.
Proof.
  revert s. induction n as [|n IH]; intros s; [cbn; lia|].
  cbn [issueLoop].
  destruct (stageFetchAndIssue Date_now s) as [s' ok] eqn:Hissue.
  destruct ok.
  - apply stageFetchAndIssue_true in Hissue as (template & _ & ->).
    destruct (issue_effect Date_now template s) as [].
    destruct ie_rob0 as (entry & Hrob & _).
    specialize (IH (issue Date_now template s)).
    destruct (issueLoop Date_now n (issue Date_now template s)) as [s'' k].
    cbn in *. unfold inFlight in *.
    rewrite Hrob, length_app, ie_committed0 in IH. cbn in IH. lia.
  - apply stageFetchAndIssue_false in Hissue as ->. cbn. lia.
Qed.

Lemma step_count Date_now s :
  inFlight (step Date_now s) + discardedBy s = inFlight s + issuedBy Date_now s /\
  nextRobTag (step Date_now s) = nextRobTag s + issuedBy Date_now s.
Proof.
  unfold step, issuedBy, discardedBy.
  destruct (finished s); [cbn; unfold inFlight; cbn; lia|].
  set (s0 := setClock (clock s + 1) s).
  pose proof (stageCommit_count Date_now s0) as Hc.
  pose proof (stageCommit_nextRobTag Date_now s0) as Hcn.
  pose proof (stageExecute_count Date_now (stageCommit Date_now s0)) as He.
  pose proof (stageExecute_frame Date_now (stageCommit Date_now s0)) as [].
  set (s1 := stageExecute Date_now (stageCommit Date_now s0)) in *.
  destruct (issueLoop_count Date_now (width s1) s1) as [Hi Hin].
  destruct (issueLoop Date_now (width s1) s1) as [s2 k].
  cbn in *. unfold inFlight in *. cbn.
  change (flushDiscards s0) with (flushDiscards s) in Hc.
  change (rob s0) with (rob s) in Hc.
  change (instructionsCommitted s0) with (instructionsCommitted s) in Hc.
  change (nextRobTag s0) with (nextRobTag s) in Hcn.
  lia.
Qed.

Lemma steps_count Date_now n s :
  inFlight (steps Date_now n s) + discardedTotal Date_now n s
    = inFlight s + issuedTotal Date_now n s /\
  nextRobTag (steps Date_now n s) = nextRobTag s + issuedTotal Date_now n s.
Proof.
  induction n as [|n [IH1 IH2]]; [cbn; lia|].
  cbn [steps discardedTotal issuedTotal].
  destruct (step_count Date_now (steps Date_now n s)). lia.
Qed.

Lemma flushDiscards_nonneg s : 0 <= flushDiscards s.
Proof. unfold flushDiscards. destruct (mispredicted s); lia. Qed.

Lemma discardedTotal_nonneg Date_now n s : 0 <= discardedTotal Date_now n s.
Proof.
  induction n as [|n IH]; [reflexivity|].
  cbn [discardedTotal]. unfold discardedBy.
  pose proof (flushDiscards_nonneg (steps Date_now n s)).
  destruct (finished _); lia.
Qed.

Lemma reset_inFlight parse text :
  inFlight (reset parse text) = 0 /\ nextRobTag (reset parse text) = 1.
Proof.
  unfold reset, loadProgram, inFlight.
  destruct (parse text) as [prog completed].
  destruct completed; cbn; split; reflexivity.
Qed.

Lemma wfProgram_storeProgram a l :
  Forall (fun t => Template.wf t = true) l -> wfProgram (storeProgram a l).
Proof.
  intros H. revert a. induction H as [|t l Ht _ IH]; intros a.
  - apply map_Forall_empty.
  - cbn [storeProgram]. apply map_Forall_insert_2; [exact Ht|apply IH].
Qed.

Lemma discardedTotal_no_flush Date_now n s :
  (forall k, (k < n)%nat -> mispredicted (steps Date_now k s) = false) ->
  discardedTotal Date_now n s = 0.
Proof.
  induction n as [|n IH]; intros H; [reflexivity|].
  cbn [discardedTotal]. rewrite IH by (intros k Hk; apply H; lia).
  unfold discardedBy, flushDiscards. rewrite (H n) by lia.
  destruct (finished _); reflexivity.
Qed.

(** C7, as stated, fails: in the run of the mispredicted-branch
    scenario, after the fourth cycle (the one that flushes) one instruction
    is committed and one is live in the ROB, while five were issued. *)
Lemma issued_accounting_counterexample :
  wfProgram (parsedAs mispredictProgram "").1 /\
  instructionsCommitted mispredictRun = 1 /\
  length (rob mispredictRun) = 1%nat /\
  issuedTotal tickingClock 4 (reset (parsedAs mispredictProgram) "") = 5 /\
  instructionsCommitted mispredictRun + Z.of_nat (length (rob mispredictRun))
    <> issuedTotal tickingClock 4 (reset (parsedAs mispredictProgram) "").
Proof.
  split.
  - apply wfProgram_storeProgram. repeat constructor.
  - vm_compute. repeat split; congruence.
Qed.

(** C7, amended: after every cycle of every run from reset, the committed
    count plus the number of live ROB entries plus the number of ROB
    entries discarded by flushes equals the number of instructions issued
    since reset (which the tag counter also records); so committed plus
    live is at most the number issued, with equality as long as no flush
    has occurred. *)
Theorem issued_accounting Date_now parse text n :
  wfProgram (parse text).1 ->
  instructionsCommitted (steps Date_now n (reset parse text))
    + Z.of_nat (length (rob (steps Date_now n (reset parse text))))
    + discardedTotal Date_now n (reset parse text)
  = issuedTotal Date_now n (reset parse text) /\
  0 <= discardedTotal Date_now n (reset parse text) /\
  nextRobTag (steps Date_now n (reset parse text))
  = 1 + issuedTotal Date_now n (reset parse text) /\
  ((forall k, (k < n)%nat ->
      mispredicted (steps Date_now k (reset parse text)) = false) ->
   instructionsCommitted (steps Date_now n (reset parse text))
     + Z.of_nat (length (rob (steps Date_now n (reset parse text))))
   = issuedTotal Date_now n (reset parse text)).
Proof.
  intros _.
  destruct (steps_count Date_now n (reset parse text)) as [H1 H2].
  destruct (reset_inFlight parse text) as [H3 H4].
  pose proof (discardedTotal_nonneg Date_now n (reset parse text)) as H5.
  unfold inFlight in *.
  repeat split; try lia.
  intros Hno. rewrite (discardedTotal_no_flush _ _ _ Hno) in H1. lia.
Qed.

Lemma issued_accounting_witness :
  wfProgram (parsedAs mispredictProgram "").1 /\
  instructionsCommitted mispredictRun
    + Z.of_nat (length (rob mispredictRun))
    + discardedTotal tickingClock 4 (reset (parsedAs mispredictProgram) "")
  = issuedTotal tickingClock 4 (reset (parsedAs mispredictProgram) "").
Proof.
  assert (H : wfProgram (parsedAs mispredictProgram "").1).
  { apply wfProgram_storeProgram. repeat constructor. }
  split; [exact H|].
  exact (proj1 (issued_accounting tickingClock (parsedAs mispredictProgram) "" 4 H)).
Defined.

(** ** Register x0 *)

Lemma ratSet_lookup_0 rd op v (rt : list Z) :
  writesRegister rd op = true -> ratSet rd v rt !! 0%nat = rt !! 0%nat.
Proof.
  intros H%writesRegister_rd. unfold ratSet.
  destruct (Z.leb_spec 0 rd); [|reflexivity].
  apply list_lookup_insert_ne. lia.
Qed.

Lemma issue_rat_0 Date_now template s :
  rat (issue Date_now template s) !! 0%nat = rat s !! 0%nat.
Proof.
  rewrite (ie_rat _ _ _ _ _ (issue_effect Date_now template s)).
  destruct (writesRegister _ _) eqn:Hw; [|reflexivity].
  eapply ratSet_lookup_0. exact Hw.
Qed.

Lemma stageFetchAndIssue_x0 Date_now s :
  rat (stageFetchAndIssue Date_now s).1 !! 0%nat = rat s !! 0%nat /\
  regFile (stageFetchAndIssue Date_now s).1 = regFile s.
Proof.
  destruct (stageFetchAndIssue Date_now s) as [s' ok] eqn:Hissue.
  destruct ok.
  - apply stageFetchAndIssue_true in Hissue as (template & _ & ->).
    split; [apply issue_rat_0|].
    apply (ie_regFile _ _ _ _ _ (issue_effect Date_now template s)).
  - apply stageFetchAndIssue_false in Hissue as ->. split; reflexivity.
Qed.

Lemma issueLoop_x0 Date_now n s :
  rat (issueLoop Date_now n s).1 !! 0%nat = rat s !! 0%nat /\
  regFile (issueLoop Date_now n s).1 = regFile s.
Proof.
  revert s. induction n as [|n IH]; intros s; [split; reflexivity|].
  cbn [issueLoop].
  destruct (stageFetchAndIssue_x0 Date_now s) as [H1 H2].
  destruct (stageFetchAndIssue Date_now s) as [s' ok].
  destruct ok; [|split; assumption].
  destruct (IH s') as [H3 H4].
  destruct (issueLoop Date_now n s') as [s'' k]. cbn in *.
  split; congruence.
Qed.

Lemma stageCommit_rd_0 Date_now s head rest :
  rob s = head :: rest -> RobEntry.rd head = 0 ->
  regFile (stageCommit Date_now s) = regFile s.
Proof.
  intros Hrob Hrd. unfold_commit. rewrite Hrob.
  unfold writesRegister. rewrite Hrd. cbn.
  repeat case_match; simplify_eq; reflexivity.
Qed.

Lemma step_x0 Date_now s :
  regFile s !! 0%nat = Some 0 -> rat s !! 0%nat = Some (-1) ->
  regFile (step Date_now s) !! 0%nat = Some 0 /\
  rat (step Date_now s) !! 0%nat = Some (-1).
Proof.
  intros Hreg Hrat. unfold step.
  destruct (finished s); [split; assumption|].
  set (s0 := setClock (clock s + 1) s).
  pose proof (stageCommit_regFile_0 Date_now s0) as Hc1.
  pose proof (stageCommit_rat_0 Date_now s0 Hrat) as Hc2.
  pose proof (ef_regFile _ _ (stageExecute_frame Date_now (stageCommit Date_now s0)))
    as He1.
  pose proof (ef_rat _ _ (stageExecute_frame Date_now (stageCommit Date_now s0)))
    as He2.
  set (s1 := stageExecute Date_now (stageCommit Date_now s0)) in *.
  destruct (issueLoop_x0 Date_now (width s1) s1) as [Hi1 Hi2].
  destruct (issueLoop Date_now (width s1) s1) as [s2 k].
  cbn in *. split; congruence.
Qed.

Lemma reset_x0 parse text :
  regFile (reset parse text) !! 0%nat = Some 0 /\
  rat (reset parse text) !! 0%nat = Some (-1).
Proof.
  unfold reset, loadProgram.
  destruct (parse text) as [prog completed].
  destruct completed; cbn; split; reflexivity.
Qed.

(** C8: in every run from reset, after every cycle, the architectural
    register x0 is 0 (and its RAT entry is architectural); the commit
    stage never writes element 0 of the register file, and leaves the
    whole file alone when the destination of the head is register 0; the
    issue stage never changes the RAT entry of register 0. *)
Theorem x0_invariance Date_now parse text n :
  wfProgram (parse text).1 ->
  (regFile (steps Date_now n (reset parse text)) !! 0%nat = Some 0 /\
   rat (steps Date_now n (reset parse text)) !! 0%nat = Some (-1)) /\
  (forall s, regFile (stageCommit Date_now s) !! 0%nat = regFile s !! 0%nat) /\
  (forall s head rest,
     rob s = head :: rest -> RobEntry.rd head = 0 ->
     regFile (stageCommit Date_now s) = regFile s) /\
  (forall s, rat (stageFetchAndIssue Date_now s).1 !! 0%nat = rat s !! 0%nat).
Proof.
  intros _. split; [|split; [|split]].
  - induction n as [|n [IH1 IH2]]; [apply reset_x0|].
    cbn [steps]. apply step_x0; assumption.
  - apply stageCommit_regFile_0.
  - apply stageCommit_rd_0.
  - intros s. apply stageFetchAndIssue_x0.
Qed.

Lemma x0_invariance_witness :
  wfProgram (parsedAs x0Program "").1 /\
  regFile (steps tickingClock 6 (reset (parsedAs x0Program) "")) !! 0%nat = Some 0.
Proof.
  assert (H : wfProgram (parsedAs x0Program "").1).
  { apply wfProgram_storeProgram. repeat constructor. }
  split; [exact H|].
  exact (proj1 (proj1 (x0_invariance tickingClock (parsedAs x0Program) "" 6 H))).
Defined.

(** ** Tags of the LSQ and of the window *)

Lemma issueLoop_lsqBelow Date_now n s :
  lsqBelow s -> lsqBelow (issueLoop Date_now n s).1.
Proof.
  revert s. induction n as [|n IH]; intros s H; [exact H|].
  cbn [issueLoop].
  destruct (stageFetchAndIssue Date_now s) as [s' ok] eqn:Hissue.
  destruct ok.
  - apply stageFetchAndIssue_true in Hissue as (template & _ & ->).
    pose proof (issue_effect Date_now template s) as He.
    specialize (IH (issue Date_now template s)).
    destruct (issueLoop Date_now n (issue Date_now template s)) as [s'' k].
    cbn in *. apply IH. unfold lsqBelow in *.
    rewrite (ie_nextRobTag _ _ _ _ _ He).
    destruct (ie_lsq _ _ _ _ _ He) as [->|(l & -> & Hl)].
    + eapply Forall_impl; [exact H|]. cbn. intros. lia.
    + rewrite map_app, Forall_app. split.
      * eapply Forall_impl; [exact H|]. cbn. intros. lia.
      * cbn. repeat constructor. lia.
  - apply stageFetchAndIssue_false in Hissue as ->. exact H.
Qed.

Lemma stageCommit_lsqBelow Date_now s :
  lsqBelow s -> lsqBelow (stageCommit Date_now s).
Proof.
  intros H. unfold lsqBelow in *.
  rewrite stageCommit_nextRobTag.
  destruct (stageCommit_outcome Date_now s)
    as [_ ->|head rest _ _ _ _ _ _ _ -> _ _
       |head rest _ _ _ _ _ _ _ _ -> _
       |head rest _ _ _ _ _ _ Hl _]; try exact H.
  destruct (isLoadStore (RobEntry.op head)); [|rewrite Hl; exact H].
  destruct Hl as (lsqHead & Hl & _). rewrite Hl in H.
  cbn in H. apply Forall_cons in H as [_ H]. exact H.
Qed.

Lemma step_lsqBelow Date_now s : lsqBelow s -> lsqBelow (step Date_now s).
Proof.
  intros H. unfold step.
  destruct (finished s); [exact H|].
  set (s0 := setClock (clock s + 1) s).
  assert (H0 : lsqBelow s0) by exact H.
  apply (stageCommit_lsqBelow Date_now) in H0.
  pose proof (stageExecute_frame Date_now (stageCommit Date_now s0)) as Hf.
  set (s1 := stageExecute Date_now (stageCommit Date_now s0)) in *.
  assert (H1 : lsqBelow s1).
  { unfold lsqBelow in *.
    rewrite (ef_lsqTags _ _ Hf), (ef_nextRobTag _ _ Hf). exact H0. }
  pose proof (issueLoop_lsqBelow Date_now (width s1) s1 H1) as H2.
  destruct (issueLoop Date_now (width s1) s1) as [s2 k]. exact H2.
Qed.

Lemma reset_lsq parse text : lsq (reset parse text) = [].
Proof.
  unfold reset, loadProgram.
  destruct (parse text) as [prog completed]. destruct completed; reflexivity.
Qed.

Lemma steps_lsqBelow Date_now parse text n :
  lsqBelow (steps Date_now n (reset parse text)).
Proof.
  induction n as [|n IH].
  - unfold lsqBelow. cbn [steps]. rewrite reset_lsq. constructor.
  - cbn [steps]. apply step_lsqBelow. exact IH.
Qed.

(** ** After a flush that left entries in the LSQ *)

Lemma stationFrom_free b : stationFrom b Station.free.
Proof. intros Hb. discriminate. Qed.

Lemma stationFrom_mono b b' rs : b <= b' -> stationFrom b' rs -> stationFrom b rs.
Proof.
  intros Hle H Hbusy f Hf. specialize (H Hbusy f Hf). lia.
Qed.

Lemma isBranch_not_loadStore op : isBranch op = true -> isLoadStore op = false.
Proof.
  unfold isBranch, isLoadStore. intros H.
  destruct (String.eqb_spec op "SW") as [->|]; [discriminate|].
  destruct (String.eqb_spec op "LW") as [->|]; [discriminate|]. reflexivity.
Qed.

Lemma mispredicted_head s :
  mispredicted s = true ->
  exists head rest, rob s = head :: rest /\ isBranch (RobEntry.op head) = true.
Proof.
  unfold mispredicted. destruct (rob s) as [|head rest]; [discriminate|].
  intros H. exists head, rest. split; [reflexivity|].
  destruct (RobEntry.isReady head); [|discriminate].
  destruct (isBranch _); [reflexivity|discriminate].
Qed.

(** With a stale entry at the head of the LSQ, the commit stage cannot
    retire a load or a store. *)
Lemma stageCommit_stale Date_now stale b s :
  stale <> [] -> staleInv stale b s ->
  staleInv stale b (stageCommit Date_now s) /\
  (forall head rest, rob s = head :: rest ->
     isLoadStore (RobEntry.op head) = true ->
     rob (stageCommit Date_now s) = rob s /\
     instructionsCommitted (stageCommit Date_now s) = instructionsCommitted s).
Proof.
  intros Hne Hinv.
  pose proof (stageCommit_nextRobTag Date_now s) as Hnext.
  destruct Hinv as [(younger & Hlsq) Hstale Hrob Halu Hls Hb].
  destruct (stageCommit_outcome Date_now s)
    as [_ ->|head rest Hr Hmis Hr' Ha' Hl' _ _ Hq' _ Hc'
       |head rest Hr _ _ _ _ Hr' Ha' Hl' Hq' Hc'
       |head rest Hr _ _ Hr' Ha' Hl' Hq' Hc'].
  - split; [split; eauto|]. intros; split; reflexivity.
  - split.
    + split.
      * rewrite Hq'. eauto.
      * exact Hstale.
      * rewrite Hr'. constructor.
      * rewrite Ha'. apply Forall_replicate, stationFrom_free.
      * rewrite Hl'. apply Forall_replicate, stationFrom_free.
      * rewrite Hnext. exact Hb.
    + intros head' rest' Hr2 Hls2. rewrite Hr in Hr2. simplify_eq.
      apply mispredicted_head in Hmis as (h & r & Hr3 & Hbr).
      rewrite Hr in Hr3. simplify_eq.
      apply isBranch_not_loadStore in Hbr. congruence.
  - split.
    + split.
      * rewrite Hq'. eauto.
      * exact Hstale.
      * rewrite Hr'. exact Hrob.
      * rewrite Ha'. exact Halu.
      * rewrite Hl'. exact Hls.
      * rewrite Hnext. exact Hb.
    + intros; split; assumption.
  - assert (Hnls : isLoadStore (RobEntry.op head) = false).
    { destruct (isLoadStore (RobEntry.op head)); [|reflexivity].
      destruct Hq' as (lsqHead & Hq1 & Htag & _).
      destruct stale as [|l0 stale']; [contradiction|].
      rewrite Hlsq in Hq1. cbn in Hq1. simplify_eq.
      apply Forall_cons in Hstale as [Hl0 _].
      rewrite Hr in Hrob. cbn in Hrob. apply Forall_cons in Hrob as [Hh _].
      lia. }
    rewrite Hnls in Hq'. split.
    + split.
      * rewrite Hq'. eauto.
      * exact Hstale.
      * rewrite Hr'. rewrite Hr in Hrob. cbn in Hrob.
        apply Forall_cons in Hrob as [_ Hrob]. exact Hrob.
      * rewrite Ha'. exact Halu.
      * rewrite Hl'. exact Hls.
      * rewrite Hnext. exact Hb.
    + intros head' rest' Hr2 Hls2. rewrite Hr in Hr2. simplify_eq. congruence.
Qed.

Lemma captureOperands_inst rb f :
  Station.inst (captureOperands rb f) = Station.inst f.
Proof.
  unfold captureOperands. repeat case_match; reflexivity.
Qed.

Lemma stale_miss stale b tag :
  Forall (fun l => LsqEntry.robTag l < b) stale -> b <= tag ->
  Forall (fun l => (LsqEntry.robTag l =? tag) = false) stale.
Proof.
  intros H Hb. eapply Forall_impl; [exact H|].
  cbn. intros l Hl. apply Z.eqb_neq. lia.
Qed.

Lemma computeResult_stale Date_now stale b f inst s :
  Forall (fun l => LsqEntry.robTag l < b) stale ->
  b <= Instruction.robTag inst ->
  (exists younger, lsq s = stale ++ younger) ->
  exists younger, lsq (computeResult Date_now f inst s).1 = stale ++ younger.
Proof.
  intros Hstale Hb (younger & Hlsq).
  pose proof (stale_miss stale b _ Hstale Hb) as Hmiss.
  unfold computeResult, l1dAccess, markLoad, markStore.
  repeat case_match; simplify_eq; cbn; rewrite Hlsq;
    rewrite ?(updFirst_app_miss _ _ stale younger Hmiss); eauto.
Qed.

Lemma executeStation_stale Date_now stale b s rs :
  Forall (fun l => LsqEntry.robTag l < b) stale ->
  (exists younger, lsq s = stale ++ younger) ->
  stationFrom b rs ->
  (exists younger, lsq (executeStation Date_now s rs).1 = stale ++ younger) /\
  stationFrom b (executeStation Date_now s rs).2.
Proof.
  intros Hstale Hlsq Hrs. unfold executeStation.
  destruct (Station.busy rs) eqn:Hbusy; cbn [negb]; [|split; assumption].
  destruct (Station.slot rs) as [f|] eqn:Hslot; [|split; assumption].
  specialize (Hrs Hbusy f Hslot).
  pose proof (captureOperands_inst (rob s) f) as Hinst.
  cbv zeta.
  set (f' := captureOperands (rob s) f) in *.
  destruct (_ && _ && _ && _).
  2:{ split; [exact Hlsq|]. intros _ g [= <-]. rewrite Hinst. exact Hrs. }
  match goal with
  | |- context [Instruction.setExecutionCyclesLeft ?v ?i] =>
      set (inst2 := Instruction.setExecutionCyclesLeft v i)
  end.
  assert (Htag : Instruction.robTag inst2 = Instruction.robTag (Station.inst f)).
  { unfold inst2. rewrite <- Hinst. destruct (_ && _); reflexivity. }
  destruct (Instruction.executionCyclesLeft inst2 =? 0).
  - assert (Hb : b <= Instruction.robTag inst2) by (rewrite Htag; exact Hrs).
    pose proof (computeResult_stale Date_now stale b f' inst2 s Hstale Hb Hlsq) as Hc.
    destruct (computeResult Date_now f' inst2 s) as [s' val]. cbn in *.
    split; [exact Hc|]. intros Hfalse. discriminate.
  - split; [exact Hlsq|]. intros _ g [= <-].
    change (b <= Instruction.robTag inst2). rewrite Htag. exact Hrs.
Qed.

Lemma executeStations_stale Date_now stale b sts s :
  Forall (fun l => LsqEntry.robTag l < b) stale ->
  (exists younger, lsq s = stale ++ younger) ->
  Forall (stationFrom b) sts ->
  (exists younger, lsq (executeStations Date_now s sts).1 = stale ++ younger) /\
  Forall (stationFrom b) (executeStations Date_now s sts).2.
Proof.
  intros Hstale Hlsq Hsts. revert s Hlsq.
  induction Hsts as [|rs sts Hrs _ IH]; intros s Hlsq.
  - split; [exact Hlsq|constructor].
  - cbn [executeStations].
    destruct (executeStation_stale Date_now stale b s rs Hstale Hlsq Hrs) as [H1 H2].
    destruct (executeStation Date_now s rs) as [s1 rs']. cbn in H1, H2.
    destruct (IH s1 H1) as [H3 H4].
    destruct (executeStations Date_now s1 sts) as [s2 rest']. cbn in *.
    split; [exact H3|constructor; assumption].
Qed.

Lemma stageExecute_stale Date_now stale b s :
  staleInv stale b s -> staleInv stale b (stageExecute Date_now s).
Proof.
  intros [Hlsq Hstale Hrob Halu Hls Hb].
  pose proof (stageExecute_frame Date_now s) as Hf.
  revert Hf. unfold stageExecute.
  destruct (executeStations_stale Date_now stale b (rsALU s) s Hstale Hlsq Halu)
    as [H1 H2].
  destruct (executeStations Date_now s (rsALU s)) as [s1 alu]. cbn in H1, H2.
  destruct (executeStations_stale Date_now stale b (rsLS s) s1 Hstale H1 Hls)
    as [H3 H4].
  destruct (executeStations Date_now s1 (rsLS s)) as [s2 ls]. cbn in H3, H4.
  intros Hf. split; cbn.
  - exact H3.
  - exact Hstale.
  - rewrite <- (ef_robTags _ _ Hf) in Hrob. exact Hrob.
  - exact H2.
  - exact H4.
  - rewrite <- (ef_nextRobTag _ _ Hf) in Hb. exact Hb.
Qed.

Lemma Forall_fill {A} (Q : A -> Prop) (p : A -> bool) x (l : list A) :
  Q x -> Forall Q l -> Forall Q (updFirst p (fun _ => x) l).
Proof.
  intros Hx. apply Forall_updFirst. intros _ _. exact Hx.
Qed.

Lemma issue_stale Date_now stale b template s :
  staleInv stale b s -> staleInv stale b (issue Date_now template s).
Proof.
  intros [(younger & Hlsq) Hstale Hrob Halu Hls Hb].
  pose proof (issue_effect Date_now template s) as He.
  destruct (ie_rob _ _ _ _ _ He) as (entry & Hr & Htag).
  destruct (ie_stations _ _ _ _ _ He) as (station & Hst & Hpool).
  apply (stationFrom_mono b) in Hst; [|exact Hb].
  split.
  - destruct (ie_lsq _ _ _ _ _ He) as [->|(l & -> & _)].
    + eauto.
    + rewrite Hlsq, <- app_assoc. eauto.
  - exact Hstale.
  - rewrite Hr, map_app, Forall_app. split; [exact Hrob|].
    cbn. repeat constructor. lia.
  - destruct Hpool as [[-> _]|[_ ->]]; [apply Forall_fill|]; assumption.
  - destruct Hpool as [[_ ->]|[-> _]]; [|apply Forall_fill]; assumption.
  - rewrite (ie_nextRobTag _ _ _ _ _ He). lia.
Qed.

Lemma issueLoop_stale Date_now stale b n s :
  staleInv stale b s -> staleInv stale b (issueLoop Date_now n s).1.
Proof.
  revert s. induction n as [|n IH]; intros s H; [exact H|].
  cbn [issueLoop].
  destruct (stageFetchAndIssue Date_now s) as [s' ok] eqn:Hissue.
  destruct ok.
  - apply stageFetchAndIssue_true in Hissue as (template & _ & ->).
    specialize (IH _ (issue_stale Date_now stale b template s H)).
    destruct (issueLoop Date_now n (issue Date_now template s)) as [s'' k].
    exact IH.
  - apply stageFetchAndIssue_false in Hissue as ->. exact H.
Qed.

Lemma issueLoop_window Date_now n s :
  instructionsCommitted (issueLoop Date_now n s).1 = instructionsCommitted s /\
  exists younger, rob (issueLoop Date_now n s).1 = rob s ++ younger.
Proof.
  revert s. induction n as [|n IH]; intros s.
  { split; [reflexivity|]. exists []. symmetry. apply app_nil_r. }
  cbn [issueLoop].
  destruct (stageFetchAndIssue Date_now s) as [s' ok] eqn:Hissue.
  destruct ok.
  - apply stageFetchAndIssue_true in Hissue as (template & _ & ->).
    pose proof (issue_effect Date_now template s) as He.
    destruct (ie_rob _ _ _ _ _ He) as (entry & Hr & _).
    destruct (IH (issue Date_now template s)) as (Hc & younger & Hy).
    destruct (issueLoop Date_now n (issue Date_now template s)) as [s'' k].
    cbn in *. split.
    + rewrite Hc. apply (ie_committed _ _ _ _ _ He).
    + rewrite Hy, Hr, <- app_assoc. eauto.
  - apply stageFetchAndIssue_false in Hissue as ->.
    split; [reflexivity|]. exists []. symmetry. apply app_nil_r.
Qed.

Lemma step_stale Date_now stale b s :
  stale <> [] -> staleInv stale b s ->
  staleInv stale b (step Date_now s) /\
  (forall head rest, rob s = head :: rest ->
     isLoadStore (RobEntry.op head) = true ->
     instructionsCommitted (step Date_now s) = instructionsCommitted s /\
     robHeadTag (step Date_now s) = Some (RobEntry.robTag head)).
Proof.
  intros Hne Hinv. unfold step, robHeadTag.
  destruct (finished s) eqn:Hfin.
  { split.
    - destruct Hinv. split; assumption.
    - intros head rest Hr _. cbn. rewrite Hr. split; reflexivity. }
  set (s0 := setClock (clock s + 1) s).
  assert (H0 : staleInv stale b s0) by (destruct Hinv; split; assumption).
  destruct (stageCommit_stale Date_now stale b s0 Hne H0) as [H1 Hkeep].
  pose proof (stageExecute_stale Date_now stale b _ H1) as H2.
  pose proof (stageExecute_frame Date_now (stageCommit Date_now s0)) as Hf.
  set (s1 := stageExecute Date_now (stageCommit Date_now s0)) in *.
  pose proof (issueLoop_stale Date_now stale b (width s1) s1 H2) as H3.
  destruct (issueLoop_window Date_now (width s1) s1) as (Hc & younger & Hy).
  destruct (issueLoop Date_now (width s1) s1) as [s2 k]. cbn in *.
  split.
  - destruct H3. split; assumption.
  - intros head rest Hr Hls.
    destruct (Hkeep head rest Hr Hls) as [Hr1 Hc1].
    split.
    + rewrite Hc, (ef_committed _ _ Hf), Hc1. reflexivity.
    + rewrite Hy.
      pose proof (ef_robTags _ _ Hf) as Ht. rewrite Hr1 in Ht.
      change (rob s0) with (rob s) in Ht. rewrite Hr in Ht.
      destruct (rob s1) as [|h1 r1]; [discriminate|].
      cbn in Ht |- *. congruence.
Qed.

Lemma steps_stale Date_now stale b n s :
  stale <> [] -> staleInv stale b s -> staleInv stale b (steps Date_now n s).
Proof.
  intros Hne H. induction n as [|n IH]; [exact H|].
  cbn [steps]. apply step_stale; assumption.
Qed.

(** The cycle that flushes leaves the window in the state described by
    [staleInv]. *)
Lemma flush_step_stale Date_now s :
  lsqBelow s -> mispredicted s = true ->
  staleInv (lsq s) (nextRobTag s) (step Date_now s).
Proof.
  intros Hbelow Hmis. unfold step.
  destruct (mispredicted_head s Hmis) as (head & rest & Hr & _).
  assert (Hfin : finished s = false).
  { unfold finished. rewrite Hr. cbn. apply andb_false_r. }
  rewrite Hfin.
  set (s0 := setClock (clock s + 1) s).
  assert (H1 : staleInv (lsq s) (nextRobTag s) (stageCommit Date_now s0)).
  { pose proof (stageCommit_nextRobTag Date_now s0) as Hnext.
    destruct (stageCommit_outcome Date_now s0)
      as [Hidle _|h r _ _ Hr' Ha' Hl' _ _ Hq' _ _
         |h r _ _ Hno _ _ _ _ _ _ _
         |h r _ _ Hno _ _ _ _ _].
    - exfalso. change (rob s0) with (rob s) in Hidle. rewrite Hr in Hidle.
      destruct Hidle as [?|(h & r & [= <- <-] & Hready)]; [discriminate|].
      unfold mispredicted in Hmis. rewrite Hr, Hready in Hmis. discriminate.
    - split.
      + exists []. rewrite Hq'. symmetry. apply app_nil_r.
      + unfold lsqBelow in Hbelow. rewrite Forall_map in Hbelow. exact Hbelow.
      + rewrite Hr'. constructor.
      + rewrite Ha'. apply Forall_replicate, stationFrom_free.
      + rewrite Hl'. apply Forall_replicate, stationFrom_free.
      + rewrite Hnext. reflexivity.
    - change (mispredicted s0) with (mispredicted s) in Hno. congruence.
    - change (mispredicted s0) with (mispredicted s) in Hno. congruence. }
  pose proof (stageExecute_stale Date_now _ _ _ H1) as H2.
  set (s1 := stageExecute Date_now (stageCommit Date_now s0)) in *.
  pose proof (issueLoop_stale Date_now _ _ (width s1) s1 H2) as H3.
  destruct (issueLoop Date_now (width s1) s1) as [s2 k]. cbn in *.
  destruct H3. split; assumption.
Qed.

(** C9: in every run from reset in which the commit stage flushes while
    the LSQ holds entries, those entries stay at the front of the LSQ, as
    they are, in every later cycle; their tags are below the tag of every
    entry that the ROB holds from then on, so none of them matches a later
    ROB head; and whenever the head of the ROB is a load or a store, the
    next cycle commits nothing and leaves that head in place: no load or
    store issued after the flush commits. *)
Theorem stale_lsq_blocks_memory_commits Date_now parse text k n :
  wfProgram (parse text).1 ->
  mispredicted (steps Date_now k (reset parse text)) = true ->
  lsq (steps Date_now k (reset parse text)) <> [] ->
  (exists younger,
     lsq (steps Date_now n (steps Date_now (S k) (reset parse text)))
     = lsq (steps Date_now k (reset parse text)) ++ younger) /\
  (forall l r,
     l ∈ lsq (steps Date_now k (reset parse text)) ->
     r ∈ rob (steps Date_now n (steps Date_now (S k) (reset parse text))) ->
     LsqEntry.robTag l < RobEntry.robTag r) /\
  (forall head rest,
     rob (steps Date_now n (steps Date_now (S k) (reset parse text)))
     = head :: rest ->
     isLoadStore (RobEntry.op head) = true ->
     instructionsCommitted
       (step Date_now (steps Date_now n (steps Date_now (S k) (reset parse text))))
     = instructionsCommitted
         (steps Date_now n (steps Date_now (S k) (reset parse text))) /\
     robHeadTag
       (step Date_now (steps Date_now n (steps Date_now (S k) (reset parse text))))
     = Some (RobEntry.robTag head)).
Proof.
  intros _ Hmis Hne.
  pose proof (steps_lsqBelow Date_now parse text k) as Hbelow.
  set (pre := steps Date_now k (reset parse text)) in *.
  pose proof (flush_step_stale Date_now pre Hbelow Hmis) as H1.
  change (step Date_now pre) with (steps Date_now (S k) (reset parse text)) in H1.
  pose proof (steps_stale Date_now _ _ n _ Hne H1) as H2.
  set (s := steps Date_now n (steps Date_now (S k) (reset parse text))) in *.
  split; [|split].
  - exact (si_lsq _ _ _ H2).
  - intros l r Hl Hr.
    pose proof (si_stale _ _ _ H2) as Hs. rewrite Forall_forall in Hs.
    pose proof (si_rob _ _ _ H2) as Hb. rewrite Forall_forall in Hb.
    specialize (Hs l Hl).
    specialize (Hb (RobEntry.robTag r)).
    assert (RobEntry.robTag r ∈ map RobEntry.robTag (rob s)).
    { apply list_elem_of_fmap. exists r. split; [reflexivity|exact Hr]. }
    specialize (Hb H). lia.
  - apply (step_stale Date_now _ _ s Hne H2).
Qed.

Lemma stale_lsq_blocks_memory_commits_witness :
  wfProgram (parsedAs staleLoadProgram "").1 /\
  mispredicted (steps tickingClock 3 (reset (parsedAs staleLoadProgram) "")) = true /\
  lsq (steps tickingClock 3 (reset (parsedAs staleLoadProgram) "")) <> [] /\
  exists younger,
    lsq (steps tickingClock 5 (steps tickingClock 4 (reset (parsedAs staleLoadProgram) "")))
    = lsq (steps tickingClock 3 (reset (parsedAs staleLoadProgram) "")) ++ younger.
Proof.
  assert (H1 : wfProgram (parsedAs staleLoadProgram "").1).
  { apply wfProgram_storeProgram. repeat constructor. }
  assert (H2 : mispredicted (steps tickingClock 3 (reset (parsedAs staleLoadProgram) "")) = true).
  { vm_compute. reflexivity. }
  assert (H3 : lsq (steps tickingClock 3 (reset (parsedAs staleLoadProgram) "")) <> []).
  { vm_compute. discriminate. }
  split; [exact H1|split; [exact H2|split; [exact H3|]]].
  exact (proj1 (stale_lsq_blocks_memory_commits tickingClock
                  (parsedAs staleLoadProgram) "" 3 5 H1 H2 H3)).
Defined.

(** ** Flush and program load *)

Lemma flushPipeline_effect correctPC taken s :
  rob (flushPipeline correctPC taken s) = [] /\
  rsALU (flushPipeline correctPC taken s) = replicate 8 Station.free /\
  rsLS (flushPipeline correctPC taken s) = replicate 4 Station.free /\
  rat (flushPipeline correctPC taken s) = replicate (length (rat s)) (-1) /\
  pc (flushPipeline correctPC taken s) = correctPC /\
  regFile (flushPipeline correctPC taken s) = regFile s /\
  lsq (flushPipeline correctPC taken s) = lsq s.
Proof.
  unfold flushPipeline. destruct taken; repeat split; reflexivity.
Qed.

(** C1 fails on the code: [flushPipeline] does not touch the LSQ.  At the
    state in which the mispredicted branch of [staleLoadProgram] is about to
    commit, the LSQ holds the entries of the two loads issued behind the
    branch (tags 3 and 4); the flush to the correct address 12 empties the
    ROB and leaves both entries in the LSQ. *)
Theorem flushPipeline_keeps_lsq :
  map LsqEntry.robTag (lsq staleLoadBeforeFlush) = [3; 4] /\
  rob (flushPipeline 12 true staleLoadBeforeFlush) = [] /\
  lsq (flushPipeline 12 true staleLoadBeforeFlush) = lsq staleLoadBeforeFlush /\
  lsq (flushPipeline 12 true staleLoadBeforeFlush) <> [].
Proof.
  assert (H : map LsqEntry.robTag (lsq staleLoadBeforeFlush) = [3; 4])
    by (vm_compute; reflexivity).
  destruct (flushPipeline_effect 12 true staleLoadBeforeFlush)
    as (Hrob & _ & _ & _ & _ & _ & Hlsq).
  split; [exact H|split; [exact Hrob|split; [exact Hlsq|]]].
  rewrite Hlsq. intros Hnil. rewrite Hnil in H. discriminate H.
Qed.

(** C10: [loadProgram] resets the PC, the memory (every word reads 0), the
    register file, the RAT, the ROB, the reservation stations, the clock
    and the committed count, and starts the log afresh (with the one line
    it writes when the parser went through the text); it leaves the LSQ,
    the next ROB tag, the predictor, both caches and the occupancy
    histories as they were. *)
Theorem loadProgram_frame parse text s :
  (pc (loadProgram parse text s) = 0 /\
   memory (loadProgram parse text s) = ∅ /\
   (forall i, memRead (memory (loadProgram parse text s)) i = 0) /\
   regFile (loadProgram parse text s) = replicate (length (regFile s)) 0 /\
   rat (loadProgram parse text s) = replicate (length (rat s)) (-1) /\
   rob (loadProgram parse text s) = [] /\
   rsALU (loadProgram parse text s) = replicate 8 Station.free /\
   rsLS (loadProgram parse text s) = replicate 4 Station.free /\
   clock (loadProgram parse text s) = 0 /\
   instructionsCommitted (loadProgram parse text s) = 0 /\
   logs (loadProgram parse text s)
   = (if (parse text).2 then [(0, MsgLoaded)] else [])) /\
  (lsq (loadProgram parse text s) = lsq s /\
   nextRobTag (loadProgram parse text s) = nextRobTag s /\
   predictor (loadProgram parse text s) = predictor s /\
   l1i (loadProgram parse text s) = l1i s /\
   l1d (loadProgram parse text s) = l1d s /\
   robOccupationHistory (loadProgram parse text s) = robOccupationHistory s /\
   rsOccupationHistory (loadProgram parse text s) = rsOccupationHistory s).
Proof.
  unfold loadProgram. destruct (parse text) as [prog completed].
  assert (Hmem : forall i, memRead ∅ i = 0).
  { intros i. unfold memRead. destruct (_ && _); reflexivity. }
  destruct completed; cbn -[replicate]; repeat split; try reflexivity;
    exact Hmem.
Qed.

(** ** Results computed by the execute stage *)

(** C2 fails on the code.  The [switch] of [stageExecute] has no case for
    AND (nor for OR, XOR and SLT): the station that holds [AND x3,x1,x2]
    with the operands 6 and 3 completes with the result 0 on its ROB
    entry, and x3 is still 0 at the end of the run, where 6 AND 3 is 2.
    The sum of ADD is not wrapped either: 2147483647 + 1 reaches the ROB
    entry as 2147483648. *)
Theorem execute_and_yields_zero :
  (Station.slot <$> rsALU (steps tickingClock 2 (reset (parsedAs andProgram) "")) !! 0%nat)
    ≫= (fun o => (fun f => (Station.op f, Station.vj f, Station.vk f)) <$> o)
  = Some ("AND", 6, 3) /\
  (fun r => (RobEntry.isReady r, RobEntry.result r))
    <$> findRob 3 (rob (steps tickingClock 3 (reset (parsedAs andProgram) "")))
  = Some (true, 0) /\
  regFile (steps tickingClock 5 (reset (parsedAs andProgram) "")) !! 3%nat = Some 0 /\
  instructionsCommitted (steps tickingClock 5 (reset (parsedAs andProgram) "")) = 3 /\
  Z.land 6 3 = 2 /\
  (fun r => (RobEntry.isReady r, RobEntry.result r))
    <$> findRob 3 (rob (steps tickingClock 3 (reset (parsedAs overflowProgram) "")))
  = Some (true, 2147483648) /\
  JS.toInt32 (2147483647 + 1) = -2147483648.
Proof. vm_compute. repeat split; reflexivity. Qed.

(** ** Dependence on the wall clock *)

(** C3 fails on the code: [Cache.access] stamps lines with [Date.now()].
    Two runs of the same program from reset, one in which the clock has
    advanced between any two accesses and one in which all accesses fall in
    the same millisecond, replace different lines of the data cache and
    have different hit and miss counts after five cycles. *)
Theorem clock_changes_cache_counters :
  Cache.hitCount (l1d (steps tickingClock 5 (reset (parsedAs lruProgram) ""))) = 2 /\
  Cache.missCount (l1d (steps tickingClock 5 (reset (parsedAs lruProgram) ""))) = 3 /\
  Cache.hitCount (l1d (steps frozenClock 5 (reset (parsedAs lruProgram) ""))) = 1 /\
  Cache.missCount (l1d (steps frozenClock 5 (reset (parsedAs lruProgram) ""))) = 4.
Proof. vm_compute. repeat split; reflexivity. Qed.

(** ** A stalled commit *)

(** C4 fails on the code: the commit stage writes the register file and
    releases the RAT entry before it looks at the LSQ.  In the state
    [staleLoadStalled] the head of the ROB is the ready load of x6 (tag 6)
    and the head of the LSQ is a stale entry (tag 3), so the commit
    stalls: the ROB and the committed count stay as they are, but x6
    changes from 9 to 0 and its RAT entry from tag 6 to architectural. *)
Theorem stalled_commit_writes_register :
  (fun r => (RobEntry.robTag r, RobEntry.op r, RobEntry.rd r, RobEntry.isReady r))
    <$> head (rob staleLoadStalled) = Some (6, "LW", 6, true) /\
  LsqEntry.robTag <$> head (lsq staleLoadStalled) = Some 3 /\
  rob (stageCommit tickingClock staleLoadStalled) = rob staleLoadStalled /\
  lsq (stageCommit tickingClock staleLoadStalled) = lsq staleLoadStalled /\
  instructionsCommitted (stageCommit tickingClock staleLoadStalled)
  = instructionsCommitted staleLoadStalled /\
  regFile staleLoadStalled !! 6%nat = Some 9 /\
  regFile (stageCommit tickingClock staleLoadStalled) !! 6%nat = Some 0 /\
  rat staleLoadStalled !! 6%nat = Some 6 /\
  rat (stageCommit tickingClock staleLoadStalled) !! 6%nat = Some (-1).
Proof. vm_compute. repeat split; reflexivity. Qed.

(** ** Branches at commit and at completion *)

Lemma isBranch_cases op : isBranch op = true -> op = "BEQ" \/ op = "BNE".
Proof.
  unfold isBranch.
  destruct (String.eqb_spec op "BEQ"); [left; assumption|].
  destruct (String.eqb_spec op "BNE"); [right; assumption|discriminate].
Qed.

Lemma commitBranch_eq head s :
  commitBranch head s
  = if Bool.eqb (RobEntry.result head =? 1) (RobEntry.predictedTaken head)
    then (branchCounted head s, false)
    else (flushPipeline (RobEntry.targetAddr head) (RobEntry.result head =? 1)
            (log (MsgFlush (RobEntry.pc head)) (branchCounted head s)), true).
Proof.
  unfold commitBranch, branchCounted.
  destruct (Bool.eqb _ _); reflexivity.
Qed.

Lemma stageCommit_branch Date_now s head rest :
  rob s = head :: rest ->
  RobEntry.isReady head = true ->
  isBranch (RobEntry.op head) = true ->
  stageCommit Date_now s
  = if Bool.eqb (RobEntry.result head =? 1) (RobEntry.predictedTaken head)
    then setInstructionsCommitted (instructionsCommitted s + 1)
           (setRob rest (branchCounted head s))
    else flushPipeline (RobEntry.targetAddr head) (RobEntry.result head =? 1)
           (log (MsgFlush (RobEntry.pc head)) (branchCounted head s)).
Proof.
  intros Hrob Hready Hbr. unfold stageCommit.
  rewrite Hrob, Hready, Hbr, commitBranch_eq.
  destruct (Bool.eqb _ _) eqn:Heq; [|reflexivity].
  unfold commitRegister, commitMemory, writesRegister.
  rewrite (isBranch_not_loadStore _ Hbr).
  assert (Hrob' : rob (branchCounted head s) = head :: rest).
  { unfold branchCounted. rewrite Heq. exact Hrob. }
  destruct (isBranch_cases _ Hbr) as [-> | ->];
    rewrite ?andb_false_r; cbn [negb andb String.eqb Ascii.eqb Bool.eqb];
    rewrite ?andb_false_r; rewrite Hrob'; unfold branchCounted; rewrite Heq;
    reflexivity.
Qed.

Lemma findRob_broadcast inst val rb :
  findRob (Instruction.robTag inst) (broadcast inst val rb)
  = (fun r =>
       let r := RobEntry.setIsReady true (RobEntry.setResult val r) in
       if isBranch (Instruction.op inst) then
         RobEntry.setTargetAddr
           (if val =? 1 then Instruction.pc inst + Instruction.imm inst
            else Instruction.pc inst + 4) r
       else r) <$> findRob (Instruction.robTag inst) rb.
Proof.
  unfold findRob, broadcast. apply find_updFirst.
  intros r Hr. destruct (isBranch _); exact Hr.
Qed.

Lemma computeResult_branch Date_now f inst s :
  isBranch (Instruction.op inst) = true ->
  computeResult Date_now f inst s
  = (s, JS.ofBool (branchTaken (Instruction.op inst) (Station.vj f) (Station.vk f))).
Proof.
  intros Hbr. unfold computeResult, branchTaken.
  destruct (isBranch_cases _ Hbr) as [-> | ->]; reflexivity.
Qed.

(** C5: with a ready BEQ or BNE at the head of the ROB, the commit stage
    counts the branch and updates the predictor with the actual direction
    (result = 1); if that direction differs from the prediction the state it
    returns is the flushed one, with the PC at the target address of the
    head, an empty ROB and the committed count unchanged; otherwise it
    retires the head.  When a station completes a branch, the ROB entry
    of its tag receives the result (1 when the condition holds on the
    captured operands), the ready flag and the target address: pc + imm
    when taken, pc + 4 otherwise. *)
Theorem branch_commit_and_target Date_now :
  (forall s head rest,
     rob s = head :: rest ->
     RobEntry.isReady head = true ->
     isBranch (RobEntry.op head) = true ->
     predictor (stageCommit Date_now s)
     = GsharePredictor.update (predictor s) (RobEntry.pc head)
         (RobEntry.result head =? 1) /\
     branchTotal (stageCommit Date_now s) = branchTotal s + 1 /\
     (Bool.eqb (RobEntry.result head =? 1) (RobEntry.predictedTaken head) = false ->
      stageCommit Date_now s
      = flushPipeline (RobEntry.targetAddr head) (RobEntry.result head =? 1)
          (log (MsgFlush (RobEntry.pc head)) (branchCounted head s)) /\
      pc (stageCommit Date_now s) = RobEntry.targetAddr head /\
      rob (stageCommit Date_now s) = [] /\
      instructionsCommitted (stageCommit Date_now s) = instructionsCommitted s /\
      regFile (stageCommit Date_now s) = regFile s) /\
     (Bool.eqb (RobEntry.result head =? 1) (RobEntry.predictedTaken head) = true ->
      rob (stageCommit Date_now s) = rest /\
      instructionsCommitted (stageCommit Date_now s) = instructionsCommitted s + 1 /\
      branchCorrect (stageCommit Date_now s) = branchCorrect s + 1 /\
      pc (stageCommit Date_now s) = pc s)) /\
  (forall s rs f r,
     Station.busy rs = true ->
     Station.slot rs = Some f ->
     isBranch (Instruction.op (Station.inst f)) = true ->
     Station.qj (captureOperands (rob s) f) = -1 ->
     Station.qk (captureOperands (rob s) f) = -1 ->
     Instruction.isReady (Station.inst f) = false ->
     Instruction.executionCyclesLeft (Station.inst f) = 1 ->
     findRob (Instruction.robTag (Station.inst f)) (rob s) = Some r ->
     findRob (Instruction.robTag (Station.inst f))
       (rob (executeStation Date_now s rs).1)
     = Some
         (RobEntry.setTargetAddr
            (if branchTaken (Instruction.op (Station.inst f))
                  (Station.vj (captureOperands (rob s) f))
                  (Station.vk (captureOperands (rob s) f))
             then Instruction.pc (Station.inst f) + Instruction.imm (Station.inst f)
             else Instruction.pc (Station.inst f) + 4)
            (RobEntry.setIsReady true
               (RobEntry.setResult
                  (JS.ofBool
                     (branchTaken (Instruction.op (Station.inst f))
                        (Station.vj (captureOperands (rob s) f))
                        (Station.vk (captureOperands (rob s) f)))) r)))).
Proof.
  split.
  - intros s head rest Hrob Hready Hbr.
    rewrite (stageCommit_branch Date_now s head rest Hrob Hready Hbr).
    unfold branchCounted, flushPipeline, log.
    destruct (Bool.eqb _ _) eqn:Heq.
    + repeat split; try discriminate; reflexivity.
    + destruct (RobEntry.result head =? 1);
        repeat split; try discriminate; reflexivity.
  - intros s rs f r Hbusy Hslot Hbr Hqj Hqk Hready Hleft Hfind.
    unfold executeStation. rewrite Hbusy, Hslot. cbv zeta. cbn [negb].
    pose proof (captureOperands_inst (rob s) f) as Hinst.
    set (f' := captureOperands (rob s) f) in *.
    assert (Hls : String.eqb (Instruction.op (Station.inst f)) "LW"
                  || String.eqb (Instruction.op (Station.inst f)) "SW" = false).
    { destruct (isBranch_cases _ Hbr) as [-> | ->]; reflexivity. }
    rewrite Hqj, Hqk, Hinst, Hready, Hls, andb_false_r.
    cbv iota. rewrite !Hleft.
    change (-1 =? -1) with true. change (0 <? 1) with true.
    cbn [negb andb].
    set (inst2 := Instruction.setExecutionCyclesLeft (1 - 1) (Station.inst f)).
    change (Instruction.executionCyclesLeft inst2 =? 0) with true. cbv iota.
    assert (Hbr2 : isBranch (Instruction.op inst2) = true) by exact Hbr.
    rewrite (computeResult_branch Date_now f' inst2 s Hbr2).
    set (val := JS.ofBool (branchTaken (Instruction.op inst2) (Station.vj f') (Station.vk f'))).
    set (inst3 := Instruction.setIsReady true (Instruction.setResult val inst2)).
    change (findRob (Instruction.robTag inst3) (broadcast inst3 val (rob s))
            = Some (RobEntry.setTargetAddr
                      (if branchTaken (Instruction.op inst3) (Station.vj f') (Station.vk f')
                       then Instruction.pc inst3 + Instruction.imm inst3
                       else Instruction.pc inst3 + 4)
                      (RobEntry.setIsReady true (RobEntry.setResult val r)))).
    rewrite findRob_broadcast.
    change (Instruction.robTag inst3) with (Instruction.robTag (Station.inst f)).
    rewrite Hfind.
    change (isBranch (Instruction.op inst3)) with (isBranch (Instruction.op (Station.inst f))).
    rewrite Hbr. cbn [fmap option_fmap option_map].
    unfold val. destruct (branchTaken _ _ _); reflexivity.
Qed.

Lemma branch_commit_and_target_witness :
  (exists head rest,
     rob mispredictBeforeFlush = head :: rest /\
     RobEntry.isReady head = true /\
     isBranch (RobEntry.op head) = true /\
     branchTotal (stageCommit tickingClock mispredictBeforeFlush)
     = branchTotal mispredictBeforeFlush + 1) /\
  (exists rs f r,
     rsALU branchIssued !! 0%nat = Some rs /\
     Station.slot rs = Some f /\
     findRob (Instruction.robTag (Station.inst f)) (rob branchIssued) = Some r /\
     RobEntry.targetAddr
       <$> findRob (Instruction.robTag (Station.inst f))
             (rob (executeStation tickingClock branchIssued rs).1)
     = Some 8).
Proof.
  split.
  - eexists _, _.
    assert (Hrob : rob mispredictBeforeFlush
                   = hd (RobEntry.Build_t 0 "" 0 0 "" false 0 false 0)
                       (rob mispredictBeforeFlush)
                     :: tail (rob mispredictBeforeFlush))
      by (vm_compute; reflexivity).
    split; [exact Hrob|].
    assert (Hready : RobEntry.isReady
                       (hd (RobEntry.Build_t 0 "" 0 0 "" false 0 false 0)
                          (rob mispredictBeforeFlush)) = true)
      by (vm_compute; reflexivity).
    assert (Hbr : isBranch
                    (RobEntry.op
                       (hd (RobEntry.Build_t 0 "" 0 0 "" false 0 false 0)
                          (rob mispredictBeforeFlush))) = true)
      by (vm_compute; reflexivity).
    split; [exact Hready|split; [exact Hbr|]].
    exact (proj1 (proj2 (proj1 (branch_commit_and_target tickingClock)
                           _ _ _ Hrob Hready Hbr))).
  - destruct (rsALU branchIssued !! 0%nat) as [rs|] eqn:Hrs;
      [|vm_compute in Hrs; discriminate Hrs].
    destruct (Station.slot rs) as [f|] eqn:Hslot;
      [|vm_compute in Hrs; injection Hrs as <-; discriminate Hslot].
    destruct (findRob (Instruction.robTag (Station.inst f)) (rob branchIssued))
      as [r|] eqn:Hfind;
      [|vm_compute in Hrs; injection Hrs as <-; injection Hslot as <-;
        vm_compute in Hfind; discriminate Hfind].
    exists rs, f, r. split; [reflexivity|split; [exact Hslot|split; [exact Hfind|]]].
    assert (Hall : Station.busy rs = true /\
                   isBranch (Instruction.op (Station.inst f)) = true /\
                   Station.qj (captureOperands (rob branchIssued) f) = -1 /\
                   Station.qk (captureOperands (rob branchIssued) f) = -1 /\
                   Instruction.isReady (Station.inst f) = false /\
                   Instruction.executionCyclesLeft (Station.inst f) = 1 /\
                   branchTaken (Instruction.op (Station.inst f))
                     (Station.vj (captureOperands (rob branchIssued) f))
                     (Station.vk (captureOperands (rob branchIssued) f)) = true /\
                   Instruction.pc (Station.inst f) + Instruction.imm (Station.inst f) = 8).
    { vm_compute in Hrs. injection Hrs as <-. injection Hslot as <-.
      vm_compute. repeat split; reflexivity. }
    destruct Hall as (Hbusy & Hbr & Hqj & Hqk & Hready & Hleft & Htaken & Htarget).
    rewrite (proj2 (branch_commit_and_target tickingClock)
               branchIssued rs f r Hbusy Hslot Hbr Hqj Hqk Hready Hleft Hfind).
    rewrite Htaken, Htarget. reflexivity.
Defined.

Lemma wfProgram_x0Program : wfProgram (parsedAs x0Program "").1.
Proof. apply wfProgram_storeProgram. repeat constructor. Qed.

(** * Further properties of the pipeline *)

(** ** What no stage assigns *)

Lemma constantFrame_refl s : constantFrame s s.
Proof. split; reflexivity. Qed.

Lemma constantFrame_trans s1 s2 s3 :
  constantFrame s1 s2 -> constantFrame s2 s3 -> constantFrame s1 s3.
Proof.
  intros H1 H2. split.
  - rewrite (cf_memory _ _ H2). apply (cf_memory _ _ H1).
  - rewrite (cf_robSize _ _ H2). apply (cf_robSize _ _ H1).
  - rewrite (cf_width _ _ H2). apply (cf_width _ _ H1).
  - rewrite (cf_instructions _ _ H2). apply (cf_instructions _ _ H1).
Qed.

Lemma stageCommit_constants Date_now s :
  constantFrame s (stageCommit Date_now s).
Proof.
  unfold_commit. repeat case_match; simplify_eq; split; reflexivity.
Qed.

Lemma stageExecute_constants Date_now s :
  constantFrame s (stageExecute Date_now s).
Proof.
  pose proof (stageExecute_frame Date_now s) as H. split.
  - apply (ef_memory _ _ H).
  - apply (ef_robSize _ _ H).
  - apply (ef_width _ _ H).
  - apply (ef_instructions _ _ H).
Qed.

Lemma issueFetch_constants Date_now s : constantFrame s (issueFetch Date_now s).
Proof.
  unfold issueFetch, l1iAccess, log.
  repeat case_match; simplify_eq; split; reflexivity.
Qed.

Lemma issueAllocate_constants inst qj vj qk vk s :
  constantFrame s (issueAllocate inst qj vj qk vk s).
Proof.
  unfold issueAllocate. repeat case_match; split; reflexivity.
Qed.

Lemma issueAdvance_constants inst s : constantFrame s (issueAdvance inst s).
Proof.
  unfold issueAdvance, log. repeat case_match; split; reflexivity.
Qed.

Lemma issue_constants Date_now template s :
  constantFrame s (issue Date_now template s).
Proof.
  unfold issue.
  pose proof (issueFetch_constants Date_now s) as H1.
  set (s1 := issueFetch Date_now s) in *.
  set (s2 := setNextRobTag (nextRobTag s1 + 1) s1).
  assert (H2 : constantFrame s s2) by (destruct H1; split; assumption).
  destruct (renameSource (Template.rs1 template) s2) as [qj vj].
  destruct (renameSource (Template.rs2 template) s2) as [qk vk].
  eapply constantFrame_trans; [|apply issueAdvance_constants].
  eapply constantFrame_trans; [exact H2|apply issueAllocate_constants].
Qed.

Lemma issueLoop_constants Date_now n s :
  constantFrame s (issueLoop Date_now n s).1.
Proof.
  revert s. induction n as [|n IH]; intros s; [apply constantFrame_refl|].
  cbn [issueLoop].
  destruct (stageFetchAndIssue Date_now s) as [s' ok] eqn:Hissue.
  destruct ok.
  - apply stageFetchAndIssue_true in Hissue as (template & _ & ->).
    specialize (IH (issue Date_now template s)).
    destruct (issueLoop Date_now n (issue Date_now template s)) as [s'' k].
    eapply constantFrame_trans; [apply issue_constants|exact IH].
  - apply stageFetchAndIssue_false in Hissue as ->. apply constantFrame_refl.
Qed.

Lemma step_constants Date_now s : constantFrame s (step Date_now s).
Proof.
  unfold step. destruct (finished s); [split; reflexivity|].
  set (s0 := setClock (clock s + 1) s).
  assert (H0 : constantFrame s s0) by (split; reflexivity).
  pose proof (stageCommit_constants Date_now s0) as H1.
  pose proof (stageExecute_constants Date_now (stageCommit Date_now s0)) as H2.
  set (s1 := stageExecute Date_now (stageCommit Date_now s0)) in *.
  pose proof (issueLoop_constants Date_now (width s1) s1) as H3.
  destruct (issueLoop Date_now (width s1) s1) as [s2 k]. cbn in H3.
  pose proof (constantFrame_trans _ _ _ H0
                (constantFrame_trans _ _ _ H1
                   (constantFrame_trans _ _ _ H2 H3))) as H.
  destruct H. split; assumption.
Qed.

Lemma steps_constants Date_now n s : constantFrame s (steps Date_now n s).
Proof.
  induction n as [|n IH]; [apply constantFrame_refl|].
  cbn [steps]. eapply constantFrame_trans; [exact IH|apply step_constants].
Qed.

Lemma reset_fields parse text :
  memory (reset parse text) = ∅ /\ robSize (reset parse text) = 32%nat /\
  width (reset parse text) = 2%nat /\ rob (reset parse text) = [] /\
  clock (reset parse text) = 0 /\ instructionsCommitted (reset parse text) = 0 /\
  robOccupationHistory (reset parse text) = [] /\
  rsOccupationHistory (reset parse text) = [] /\
  branchCorrect (reset parse text) = 0 /\ branchTotal (reset parse text) = 0 /\
  nextRobTag (reset parse text) = 1 /\
  instructions (reset parse text) = (parse text).1.
Proof.
  unfold reset, loadProgram.
  destruct (parse text) as [prog completed].
  destruct completed; repeat split; reflexivity.
Qed.

(** X1: no cycle changes main memory.  The commit of a store assigns
    [this.memory[head.memAddr / 4]], where [head] is a ROB entry, which
    has no [memAddr]; so in every run from reset the memory stays as
    [loadProgram] left it, all zero, whatever the program stores. *)
Theorem memory_never_written Date_now parse text n :
  wfProgram (parse text).1 ->
  (forall s, memory (step Date_now s) = memory s) /\
  memory (steps Date_now n (reset parse text)) = ∅ /\
  (forall i, memRead (memory (steps Date_now n (reset parse text))) i = 0).
Proof.
  intros _.
  assert (H : memory (steps Date_now n (reset parse text)) = ∅).
  { rewrite (cf_memory _ _ (steps_constants Date_now n _)).
    apply (reset_fields parse text). }
  split; [|split].
  - intros s. apply (cf_memory _ _ (step_constants Date_now s)).
  - exact H.
  - intros i. rewrite H. unfold memRead. destruct (_ && _); reflexivity.
Qed.

Lemma memory_never_written_witness :
  wfProgram (parsedAs storeProgramExample "").1 /\
  instructionsCommitted (steps tickingClock 6 (reset (parsedAs storeProgramExample) ""))
  = 2 /\
  memory (steps tickingClock 6 (reset (parsedAs storeProgramExample) "")) = ∅.
Proof.
  assert (H : wfProgram (parsedAs storeProgramExample "").1).
  { apply wfProgram_storeProgram. repeat constructor. }
  split; [exact H|]. split; [reflexivity|].
  exact (proj1 (proj2 (memory_never_written tickingClock
                         (parsedAs storeProgramExample) "" 6 H))).
Defined.

(** ** The clock, the histories and the counters *)

Lemma meterFrame_refl s : meterFrame s s.
Proof. split; reflexivity. Qed.

Lemma meterFrame_trans s1 s2 s3 :
  meterFrame s1 s2 -> meterFrame s2 s3 -> meterFrame s1 s3.
Proof.
  intros H1 H2. split.
  - rewrite (mf_clock _ _ H2). apply (mf_clock _ _ H1).
  - rewrite (mf_robHistory _ _ H2). apply (mf_robHistory _ _ H1).
  - rewrite (mf_rsHistory _ _ H2). apply (mf_rsHistory _ _ H1).
  - rewrite (mf_isRunning _ _ H2). apply (mf_isRunning _ _ H1).
Qed.

Lemma stageCommit_meter Date_now s : meterFrame s (stageCommit Date_now s).
Proof.
  unfold_commit. repeat case_match; simplify_eq; split; reflexivity.
Qed.

Lemma computeResult_meter Date_now f inst s :
  meterFrame s (computeResult Date_now f inst s).1 /\
  branchFrame s (computeResult Date_now f inst s).1.
Proof.
  unfold computeResult, l1dAccess.
  repeat case_match; simplify_eq; split; split; reflexivity.
Qed.

Lemma executeStation_meter Date_now s rs :
  meterFrame s (executeStation Date_now s rs).1 /\
  branchFrame s (executeStation Date_now s rs).1.
Proof.
  unfold executeStation.
  repeat case_match; simplify_eq; cbn -[broadcast];
    try (split; split; reflexivity).
  all: match goal with H : computeResult _ ?f ?i ?s = _ |- _ =>
    pose proof (computeResult_meter Date_now f i s) as Hf; rewrite H in Hf
  end.
  all: destruct Hf as [[] []]; split; split; cbn -[broadcast] in *; assumption.
Qed.

Lemma branchFrame_trans s1 s2 s3 :
  branchFrame s1 s2 -> branchFrame s2 s3 -> branchFrame s1 s3.
Proof.
  intros H1 H2. split.
  - rewrite (bf_branchCorrect _ _ H2). apply (bf_branchCorrect _ _ H1).
  - rewrite (bf_branchTotal _ _ H2). apply (bf_branchTotal _ _ H1).
  - rewrite (bf_predictor _ _ H2). apply (bf_predictor _ _ H1).
  - rewrite (bf_l1i _ _ H2). apply (bf_l1i _ _ H1).
Qed.

Lemma executeStations_meter Date_now sts s :
  meterFrame s (executeStations Date_now s sts).1 /\
  branchFrame s (executeStations Date_now s sts).1.
Proof.
  revert s. induction sts as [|rs sts IH]; intros s.
  { split; split; reflexivity. }
  simpl.
  destruct (executeStation_meter Date_now s rs) as [H1 H1'].
  destruct (executeStation Date_now s rs) as [s1 rs'].
  destruct (IH s1) as [H2 H2'].
  destruct (executeStations Date_now s1 sts) as [s2 rest']. cbn in *.
  split; [eapply meterFrame_trans|eapply branchFrame_trans]; eassumption.
Qed.

Lemma stageExecute_meter Date_now s :
  meterFrame s (stageExecute Date_now s) /\
  branchFrame s (stageExecute Date_now s).
Proof.
  unfold stageExecute.
  destruct (executeStations_meter Date_now (rsALU s) s) as [H1 H1'].
  destruct (executeStations Date_now s (rsALU s)) as [s1 alu].
  destruct (executeStations_meter Date_now (rsLS s) s1) as [H2 H2'].
  destruct (executeStations Date_now s1 (rsLS s)) as [s2 ls]. cbn in *.
  destruct (meterFrame_trans _ _ _ H1 H2).
  destruct (branchFrame_trans _ _ _ H1' H2').
  split; split; assumption.
Qed.

Lemma issueFetch_meter Date_now s : meterFrame s (issueFetch Date_now s).
Proof.
  unfold issueFetch, l1iAccess, log.
  repeat case_match; simplify_eq; split; reflexivity.
Qed.

Lemma issueAllocate_meter inst qj vj qk vk s :
  meterFrame s (issueAllocate inst qj vj qk vk s).
Proof.
  unfold issueAllocate. repeat case_match; split; reflexivity.
Qed.

Lemma issueAdvance_meter inst s : meterFrame s (issueAdvance inst s).
Proof.
  unfold issueAdvance, log. repeat case_match; split; reflexivity.
Qed.

Lemma issue_meter Date_now template s :
  meterFrame s (issue Date_now template s).
Proof.
  unfold issue.
  pose proof (issueFetch_meter Date_now s) as H1.
  set (s1 := issueFetch Date_now s) in *.
  set (s2 := setNextRobTag (nextRobTag s1 + 1) s1).
  assert (H2 : meterFrame s s2) by (destruct H1; split; assumption).
  destruct (renameSource (Template.rs1 template) s2) as [qj vj].
  destruct (renameSource (Template.rs2 template) s2) as [qk vk].
  eapply meterFrame_trans; [|apply issueAdvance_meter].
  eapply meterFrame_trans; [exact H2|apply issueAllocate_meter].
Qed.

Lemma issueLoop_meter Date_now n s :
  meterFrame s (issueLoop Date_now n s).1 /\
  ((issueLoop Date_now n s).2 <= n)%nat.
Proof.
  revert s. induction n as [|n IH]; intros s.
  { split; [apply meterFrame_refl|reflexivity]. }
  cbn [issueLoop].
  destruct (stageFetchAndIssue Date_now s) as [s' ok] eqn:Hissue.
  destruct ok.
  - apply stageFetchAndIssue_true in Hissue as (template & _ & ->).
    destruct (IH (issue Date_now template s)) as [H1 H2].
    destruct (issueLoop Date_now n (issue Date_now template s)) as [s'' k].
    cbn in *. split; [|lia].
    eapply meterFrame_trans; [apply issue_meter|exact H1].
  - apply stageFetchAndIssue_false in Hissue as ->.
    split; [apply meterFrame_refl|cbn; lia].
Qed.

Lemma stageCommit_committed Date_now s :
  instructionsCommitted (stageCommit Date_now s) = instructionsCommitted s \/
  instructionsCommitted (stageCommit Date_now s) = instructionsCommitted s + 1.
Proof.
  destruct (stageCommit_outcome Date_now s)
    as [_ ->|? ? _ _ _ _ _ _ _ _ _ H|? ? _ _ _ _ _ _ _ _ _ H|? ? _ _ _ _ _ _ _ H];
    auto.
Qed.

(** What one cycle does to the clock, the histories, the committed
    count and the tag counter. *)
Lemma step_meter Date_now s :
  finished s = false ->
  clock (step Date_now s) = clock s + 1 /\
  length (robOccupationHistory (step Date_now s))
  = S (length (robOccupationHistory s)) /\
  length (rsOccupationHistory (step Date_now s))
  = S (length (rsOccupationHistory s)) /\
  (instructionsCommitted (step Date_now s) = instructionsCommitted s \/
   instructionsCommitted (step Date_now s) = instructionsCommitted s + 1) /\
  nextRobTag s <= nextRobTag (step Date_now s) <= nextRobTag s + Z.of_nat (width s) /\
  last (robOccupationHistory (step Date_now s))
  = Some (Z.of_nat (length (rob (step Date_now s)))).
Proof.
  intros Hfin. unfold step. rewrite Hfin.
  set (s0 := setClock (clock s + 1) s).
  pose proof (stageCommit_meter Date_now s0) as Hc.
  pose proof (stageCommit_committed Date_now s0) as Hcc.
  pose proof (stageCommit_nextRobTag Date_now s0) as Hcn.
  pose proof (cf_width _ _ (stageCommit_constants Date_now s0)) as Hcw.
  destruct (stageExecute_meter Date_now (stageCommit Date_now s0)) as [He _].
  pose proof (stageExecute_frame Date_now (stageCommit Date_now s0)) as Hef.
  set (s1 := stageExecute Date_now (stageCommit Date_now s0)) in *.
  destruct (issueLoop_meter Date_now (width s1) s1) as [Hi Hk].
  destruct (issueLoop_window Date_now (width s1) s1) as [Hic _].
  destruct (issueLoop_count Date_now (width s1) s1) as [_ Hin].
  destruct (issueLoop Date_now (width s1) s1) as [s2 k]. cbn in *.
  pose proof (meterFrame_trans _ _ _ Hc (meterFrame_trans _ _ _ He Hi)) as Hm.
  rewrite (mf_clock _ _ Hm), (mf_robHistory _ _ Hm), (mf_rsHistory _ _ Hm).
  rewrite !length_app, last_snoc. cbn.
  rewrite Hic, (ef_committed _ _ Hef), Hin, (ef_nextRobTag _ _ Hef), Hcn.
  rewrite (ef_width _ _ Hef), Hcw in Hk. cbn in Hk.
  repeat split; first [lia | exact Hcc | reflexivity].
Qed.

Lemma step_finished Date_now s :
  finished s = true -> idleFrame s (step Date_now s).
Proof.
  intros Hfin. unfold step. rewrite Hfin. split; reflexivity.
Qed.

Lemma idle_finished s s' : idleFrame s s' -> finished s' = finished s.
Proof.
  intros H. unfold finished.
  rewrite (if_instructions _ _ H), (if_pc _ _ H), (if_rob _ _ H). reflexivity.
Qed.

Lemma idleFrame_trans s1 s2 s3 :
  idleFrame s1 s2 -> idleFrame s2 s3 -> idleFrame s1 s3.
Proof.
  intros [] []. split; congruence.
Qed.

(** X2: once the PC is past the program and the ROB is empty, [step] no
    longer runs a cycle: however often it is called, only [isRunning] and
    the log change (the clock, the registers, the counters and both
    caches stay as they are), and the run stays finished. *)
Theorem finished_is_final Date_now s n :
  finished s = true ->
  idleFrame s (steps Date_now n s) /\
  finished (steps Date_now n s) = true /\
  (forall m, (0 < m)%nat -> isRunning (steps Date_now m s) = false).
Proof.
  intros Hfin.
  assert (H : forall k, idleFrame s (steps Date_now k s)
                        /\ finished (steps Date_now k s) = true).
  { induction k as [|k [IH1 IH2]].
    - split; [split; reflexivity|exact Hfin].
    - cbn [steps].
      pose proof (step_finished Date_now _ IH2) as Hs.
      split; [eapply idleFrame_trans; eassumption|].
      rewrite (idle_finished _ _ Hs). exact IH2. }
  split; [apply H|split; [apply H|]].
  intros m Hm. destruct m as [|m]; [lia|].
  cbn [steps]. unfold step. rewrite (proj2 (H m)). reflexivity.
Qed.

Lemma finished_is_final_witness :
  finished (steps tickingClock 5 (reset (parsedAs x0Program) "")) = true /\
  clock (steps tickingClock 3 (steps tickingClock 5 (reset (parsedAs x0Program) "")))
  = clock (steps tickingClock 5 (reset (parsedAs x0Program) "")).
Proof.
  assert (H : finished (steps tickingClock 5 (reset (parsedAs x0Program) "")) = true)
    by (vm_compute; reflexivity).
  split; [exact H|].
  exact (if_clock _ _ (proj1 (finished_is_final tickingClock _ 3 H))).
Defined.

Lemma steps_width Date_now parse text n :
  width (steps Date_now n (reset parse text)) = 2%nat /\
  robSize (steps Date_now n (reset parse text)) = 32%nat.
Proof.
  pose proof (steps_constants Date_now n (reset parse text)) as H.
  rewrite (cf_width _ _ H), (cf_robSize _ _ H).
  split; apply (reset_fields parse text).
Qed.

Lemma step_limits Date_now s :
  instructionsCommitted s <= instructionsCommitted (step Date_now s)
    <= instructionsCommitted s + 1 /\
  nextRobTag s <= nextRobTag (step Date_now s)
    <= nextRobTag s + Z.of_nat (width s).
Proof.
  destruct (finished s) eqn:Hfin.
  - pose proof (step_finished Date_now s Hfin) as H.
    rewrite (if_committed _ _ H), (if_nextRobTag _ _ H). lia.
  - destruct (step_meter Date_now s Hfin) as (_ & _ & _ & Hc & Hn & _). lia.
Qed.

(** X3: a cycle commits at most one instruction and issues at most
    [width] of them; so in every run from reset the committed count never
    exceeds the cycle count (the IPC shown is at most 1), and at most two
    tags are allocated per cycle. *)
Theorem cycle_limits Date_now parse text n :
  wfProgram (parse text).1 ->
  (forall s,
     instructionsCommitted s <= instructionsCommitted (step Date_now s)
       <= instructionsCommitted s + 1 /\
     nextRobTag s <= nextRobTag (step Date_now s)
       <= nextRobTag s + Z.of_nat (width s)) /\
  0 <= clock (steps Date_now n (reset parse text)) <= Z.of_nat n /\
  0 <= instructionsCommitted (steps Date_now n (reset parse text))
    <= clock (steps Date_now n (reset parse text)) /\
  1 <= nextRobTag (steps Date_now n (reset parse text))
    <= 1 + 2 * clock (steps Date_now n (reset parse text)).
Proof.
  intros _.
  split.
  - intros s. apply step_limits.
  - induction n as [|n IH].
    + cbn [steps].
      destruct (reset_fields parse text)
        as (_ & _ & _ & _ & -> & -> & _ & _ & _ & _ & -> & _). lia.
    + cbn [steps].
      destruct (steps_width Date_now parse text n) as [Hw _].
      set (s := steps Date_now n (reset parse text)) in *.
      destruct (finished s) eqn:Hfin.
      * pose proof (step_finished Date_now s Hfin) as H.
        rewrite (if_committed _ _ H), (if_nextRobTag _ _ H), (if_clock _ _ H).
        lia.
      * destruct (step_meter Date_now s Hfin) as (Hk & _ & _ & Hc & Hn & _).
        rewrite Hw in Hn. lia.
Qed.

Lemma cycle_limits_witness :
  wfProgram (parsedAs x0Program "").1 /\
  0 <= clock (steps tickingClock 6 (reset (parsedAs x0Program) "")) <= 6.
Proof.
  split; [exact wfProgram_x0Program|].
  exact (proj1 (proj2 (cycle_limits tickingClock (parsedAs x0Program) "" 6
                         wfProgram_x0Program))).
Defined.

(** X4: in every run from reset, each executed cycle adds exactly one
    sample to each occupancy history, so both have as many samples as the
    clock counts cycles; and after a cycle the last ROB sample is the
    number of entries the ROB then holds. *)
Theorem occupancy_history_samples Date_now parse text n :
  wfProgram (parse text).1 ->
  Z.of_nat (length (robOccupationHistory (steps Date_now n (reset parse text))))
  = clock (steps Date_now n (reset parse text)) /\
  Z.of_nat (length (rsOccupationHistory (steps Date_now n (reset parse text))))
  = clock (steps Date_now n (reset parse text)) /\
  (forall s, finished s = false ->
     last (robOccupationHistory (step Date_now s))
     = Some (Z.of_nat (length (rob (step Date_now s))))).
Proof.
  intros _.
  split; [|split].
  3:{ intros s Hfin. apply (step_meter Date_now s Hfin). }
  all: induction n as [|n IH]; cbn [steps];
    [destruct (reset_fields parse text)
       as (_ & _ & _ & _ & Hclk & _ & Hrh & Hsh & _);
     rewrite ?Hclk, ?Hrh, ?Hsh; reflexivity|].
  all: set (s := steps Date_now n (reset parse text)) in *;
    destruct (finished s) eqn:Hfin;
    [pose proof (step_finished Date_now s Hfin) as H;
     rewrite ?(if_robHistory _ _ H), ?(if_rsHistory _ _ H), (if_clock _ _ H);
     exact IH|].
  all: destruct (step_meter Date_now s Hfin) as (Hk & Hr & Hs & _); lia.
Qed.

Lemma occupancy_history_samples_witness :
  wfProgram (parsedAs x0Program "").1 /\
  Z.of_nat (length (robOccupationHistory
                      (steps tickingClock 6 (reset (parsedAs x0Program) ""))))
  = clock (steps tickingClock 6 (reset (parsedAs x0Program) "")).
Proof.
  split; [exact wfProgram_x0Program|].
  exact (proj1 (occupancy_history_samples tickingClock (parsedAs x0Program) "" 6
                  wfProgram_x0Program)).
Defined.

(** ** The capacity of the ROB *)

Lemma stageFetchAndIssue_room Date_now s s' :
  stageFetchAndIssue Date_now s = (s', true) ->
  (length (rob s) < robSize s)%nat.
Proof.
  unfold stageFetchAndIssue.
  destruct (Nat.leb_spec (robSize s) (length (rob s))); [intros [= ]|].
  intros _. assumption.
Qed.

Lemma issueLoop_capacity Date_now n s :
  (length (rob s) <= robSize s)%nat ->
  (length (rob (issueLoop Date_now n s).1) <= robSize s)%nat.
Proof.
  revert s. induction n as [|n IH]; intros s H; [exact H|].
  cbn [issueLoop].
  destruct (stageFetchAndIssue Date_now s) as [s' ok] eqn:Hissue.
  destruct ok; [|apply stageFetchAndIssue_false in Hissue as ->; exact H].
  pose proof (stageFetchAndIssue_room _ _ _ Hissue) as Hroom.
  apply stageFetchAndIssue_true in Hissue as (template & _ & ->).
  pose proof (issue_effect Date_now template s) as He.
  pose proof (cf_robSize _ _ (issue_constants Date_now template s)) as Hsize.
  destruct (ie_rob _ _ _ _ _ He) as (entry & Hr & _).
  specialize (IH (issue Date_now template s)).
  destruct (issueLoop Date_now n (issue Date_now template s)) as [s'' k].
  cbn in *. rewrite Hsize in IH. apply IH.
  rewrite Hr, length_app. cbn. lia.
Qed.

Lemma stageCommit_rob_length Date_now s :
  (length (rob (stageCommit Date_now s)) <= length (rob s))%nat.
Proof.
  destruct (stageCommit_outcome Date_now s)
    as [_ ->|? ? _ _ -> _ _ _ _ _ _ _|? ? _ _ _ _ _ -> _ _ _ _
       |? ? Hr _ _ -> _ _ _ _]; cbn; try lia.
  rewrite Hr. cbn. lia.
Qed.

Lemma step_capacity Date_now s :
  (length (rob s) <= robSize s)%nat ->
  (length (rob (step Date_now s)) <= robSize (step Date_now s))%nat.
Proof.
  intros H. rewrite (cf_robSize _ _ (step_constants Date_now s)).
  unfold step. destruct (finished s); [exact H|].
  set (s0 := setClock (clock s + 1) s).
  pose proof (stageCommit_rob_length Date_now s0) as Hc.
  pose proof (executeFrame_rob_length _ _
                (stageExecute_frame Date_now (stageCommit Date_now s0))) as He.
  pose proof (cf_robSize _ _
                (constantFrame_trans _ _ _
                   (stageCommit_constants Date_now s0)
                   (stageExecute_constants Date_now (stageCommit Date_now s0))))
    as Hsize.
  set (s1 := stageExecute Date_now (stageCommit Date_now s0)) in *.
  assert (H1 : (length (rob s1) <= robSize s1)%nat).
  { rewrite He, Hsize. change (rob s0) with (rob s) in Hc.
    change (robSize s0) with (robSize s). lia. }
  pose proof (issueLoop_capacity Date_now (width s1) s1 H1) as Hi.
  destruct (issueLoop Date_now (width s1) s1) as [s2 k]. cbn in *.
  rewrite Hsize in Hi. exact Hi.
Qed.

(** X5: in every run from reset the ROB never holds more than 32
    entries; and [stageFetchAndIssue] refuses, returning [false] with the
    state as it was, when the ROB is full, when there is no instruction at
    the PC, and whenever it returns [false]. *)
Theorem rob_capacity Date_now parse text n :
  wfProgram (parse text).1 ->
  (length (rob (steps Date_now n (reset parse text))) <= 32)%nat /\
  (forall s, (robSize s <= length (rob s))%nat ->
     stageFetchAndIssue Date_now s = (s, false)) /\
  (forall s, instructions s !! pc s = None ->
     stageFetchAndIssue Date_now s = (s, false)) /\
  (forall s, (stageFetchAndIssue Date_now s).2 = false ->
     (stageFetchAndIssue Date_now s).1 = s).
Proof.
  intros _.
  split; [|split; [|split]].
  - destruct (steps_width Date_now parse text n) as [_ Hsize].
    rewrite <- Hsize. clear Hsize.
    induction n as [|n IH].
    + cbn [steps].
      destruct (reset_fields parse text) as (_ & -> & _ & -> & _). cbn. lia.
    + cbn [steps]. apply step_capacity. exact IH.
  - intros s H. unfold stageFetchAndIssue.
    destruct (Nat.leb_spec (robSize s) (length (rob s))); [reflexivity|lia].
  - intros s H. unfold stageFetchAndIssue. rewrite H.
    destruct (_ <=? _)%nat; reflexivity.
  - intros s H.
    destruct (stageFetchAndIssue Date_now s) as [s' ok] eqn:Hissue.
    cbn in *. subst ok. apply (stageFetchAndIssue_false _ _ _ Hissue).
Qed.

Lemma rob_capacity_witness :
  wfProgram (parsedAs x0Program "").1 /\
  (length (rob (steps tickingClock 6 (reset (parsedAs x0Program) ""))) <= 32)%nat.
Proof.
  split; [exact wfProgram_x0Program|].
  exact (proj1 (rob_capacity tickingClock (parsedAs x0Program) "" 6
                  wfProgram_x0Program)).
Defined.

(** ** Tags of the ROB and of the LSQ *)

Lemma ascending_snoc l t :
  ascending l -> Forall (fun x => x < t) l -> ascending (l ++ [t]).
Proof.
  induction l as [|x l IH]; intros Ha Hb; [cbn; auto|].
  cbn in *. destruct Ha as [Hx Ha]. apply Forall_cons in Hb as [Hxt Hb].
  split; [|apply IH; assumption].
  apply Forall_app. split; [exact Hx|]. repeat constructor. exact Hxt.
Qed.

Lemma ascending_lookup l i j x y :
  ascending l -> (i < j)%nat -> l !! i = Some x -> l !! j = Some y -> x < y.
Proof.
  revert i j. induction l as [|z l IH]; intros i j Ha Hij Hi Hj; [discriminate|].
  destruct Ha as [Hz Ha]. destruct j as [|j]; [lia|].
  destruct i as [|i].
  - cbn in Hi, Hj. simplify_eq. rewrite Forall_forall in Hz.
    apply Hz. eapply list_elem_of_lookup_2. exact Hj.
  - cbn in Hi, Hj. apply (IH i j); auto. lia.
Qed.

Lemma tagInv_issue Date_now template s :
  1 <= nextRobTag s -> tagInv s -> tagInv (issue Date_now template s).
Proof.
  intros Hone [Hr Hrr Hl Hlr].
  pose proof (issue_effect Date_now template s) as He.
  destruct (ie_rob _ _ _ _ _ He) as (entry & Hrob & Htag).
  assert (Hlt : forall l, Forall (fun t => 1 <= t < nextRobTag s) l ->
                          Forall (fun x => x < nextRobTag s) l).
  { intros l H. eapply Forall_impl; [exact H|]. cbn. intros. lia. }
  assert (Hup : forall l, Forall (fun t => 1 <= t < nextRobTag s) l ->
                          Forall (fun t => 1 <= t < nextRobTag s + 1) l).
  { intros l H. eapply Forall_impl; [exact H|]. cbn. intros. lia. }
  split; rewrite ?(ie_nextRobTag _ _ _ _ _ He).
  - rewrite Hrob, map_app. cbn. rewrite Htag. apply ascending_snoc; auto.
  - rewrite Hrob, map_app. cbn. rewrite Htag. apply Forall_app. split; auto.
    repeat constructor; lia.
  - destruct (ie_lsq _ _ _ _ _ He) as [->|(l & -> & Hlt')]; [exact Hl|].
    rewrite map_app. cbn. rewrite Hlt'. apply ascending_snoc; auto.
  - destruct (ie_lsq _ _ _ _ _ He) as [->|(l & -> & Hlt')]; [auto|].
    rewrite map_app. cbn. rewrite Hlt'. apply Forall_app. split; auto.
    repeat constructor; lia.
Qed.

Lemma tagInv_issueLoop Date_now n s :
  1 <= nextRobTag s -> tagInv s -> tagInv (issueLoop Date_now n s).1.
Proof.
  revert s. induction n as [|n IH]; intros s Hone H; [exact H|].
  cbn [issueLoop].
  destruct (stageFetchAndIssue Date_now s) as [s' ok] eqn:Hissue.
  destruct ok; [|apply stageFetchAndIssue_false in Hissue as ->; exact H].
  apply stageFetchAndIssue_true in Hissue as (template & _ & ->).
  pose proof (ie_nextRobTag _ _ _ _ _ (issue_effect Date_now template s)) as Hn.
  specialize (IH (issue Date_now template s)).
  destruct (issueLoop Date_now n (issue Date_now template s)) as [s'' k].
  apply IH; [lia|]. apply tagInv_issue; assumption.
Qed.

Lemma ascending_tail x l : ascending (x :: l) -> ascending l.
Proof. intros [_ H]. exact H. Qed.

Lemma tagInv_commit Date_now s : tagInv s -> tagInv (stageCommit Date_now s).
Proof.
  intros [Hr Hrr Hl Hlr].
  pose proof (stageCommit_nextRobTag Date_now s) as Hn.
  destruct (stageCommit_outcome Date_now s)
    as [_ ->|head rest _ _ Hr' _ _ _ _ Hq' _ _
       |head rest _ _ _ _ _ Hr' _ _ Hq' _
       |head rest Hrob _ _ Hr' _ _ Hq' _].
  - split; assumption.
  - split; rewrite ?Hn, ?Hr', ?Hq'; try assumption; constructor.
  - split; rewrite ?Hn, ?Hr', ?Hq'; assumption.
  - rewrite Hrob in Hr, Hrr. cbn in Hr, Hrr.
    apply Forall_cons in Hrr as [_ Hrr].
    assert (Hlsq : ascending (map LsqEntry.robTag (lsq (stageCommit Date_now s)))
                   /\ Forall (fun t => 1 <= t < nextRobTag s)
                        (map LsqEntry.robTag (lsq (stageCommit Date_now s)))).
    { destruct (isLoadStore _); [|rewrite Hq'; split; assumption].
      destruct Hq' as (h & Hq' & _). rewrite Hq' in Hl, Hlr. cbn in Hl, Hlr.
      apply Forall_cons in Hlr as [_ Hlr]. split; [apply Hl|exact Hlr]. }
    split; rewrite ?Hn, ?Hr'; try apply Hlsq; try assumption. apply Hr.
Qed.

Lemma tagInv_execute Date_now s : tagInv s -> tagInv (stageExecute Date_now s).
Proof.
  intros [Hr Hrr Hl Hlr].
  pose proof (stageExecute_frame Date_now s) as Hf.
  split; rewrite ?(ef_robTags _ _ Hf), ?(ef_lsqTags _ _ Hf),
           ?(ef_nextRobTag _ _ Hf); assumption.
Qed.

Lemma tagInv_step Date_now s :
  1 <= nextRobTag s -> tagInv s -> tagInv (step Date_now s).
Proof.
  intros Hone H. unfold step.
  destruct (finished s); [destruct H; split; assumption|].
  set (s0 := setClock (clock s + 1) s).
  assert (H0 : tagInv s0) by (destruct H; split; assumption).
  apply (tagInv_commit Date_now) in H0.
  apply (tagInv_execute Date_now) in H0.
  pose proof (ef_nextRobTag _ _ (stageExecute_frame Date_now (stageCommit Date_now s0)))
    as Hn.
  rewrite stageCommit_nextRobTag in Hn. change (nextRobTag s0) with (nextRobTag s) in Hn.
  set (s1 := stageExecute Date_now (stageCommit Date_now s0)) in *.
  assert (Hone1 : 1 <= nextRobTag s1) by lia.
  pose proof (tagInv_issueLoop Date_now (width s1) s1 Hone1 H0) as Hi.
  destruct (issueLoop Date_now (width s1) s1) as [s2 k]. cbn in Hi.
  destruct Hi. split; assumption.
Qed.

Lemma tagInv_steps Date_now parse text n :
  tagInv (steps Date_now n (reset parse text)).
Proof.
  induction n as [|n IH].
  - cbn [steps]. destruct (reset_fields parse text) as (_ & _ & _ & Hr & _).
    split; rewrite ?Hr, ?reset_lsq; cbn; auto.
  - cbn [steps]. apply tagInv_step; [|exact IH].
    destruct (steps_count Date_now n (reset parse text)) as [_ Hn].
    destruct (reset_inFlight parse text) as [_ Hone].
    assert (0 <= issuedTotal Date_now n (reset parse text)).
    { clear. induction n as [|n IH]; [reflexivity|].
      cbn [issuedTotal]. unfold issuedBy.
      destruct (finished _); lia. }
    lia.
Qed.

(** X6: in every run from reset the tags of the ROB entries increase
    strictly from the head to the tail, and so do the tags of the LSQ
    entries; every tag is at least 1 and below the next tag to allocate.
    So no two live entries share a tag, and the LSQ holds its entries in
    the order in which the ROB holds theirs. *)
Theorem tags_increase Date_now parse text n :
  wfProgram (parse text).1 ->
  (forall i j a b,
     (i < j)%nat ->
     rob (steps Date_now n (reset parse text)) !! i = Some a ->
     rob (steps Date_now n (reset parse text)) !! j = Some b ->
     RobEntry.robTag a < RobEntry.robTag b) /\
  (forall i j a b,
     (i < j)%nat ->
     lsq (steps Date_now n (reset parse text)) !! i = Some a ->
     lsq (steps Date_now n (reset parse text)) !! j = Some b ->
     LsqEntry.robTag a < LsqEntry.robTag b) /\
  (forall a, a ∈ rob (steps Date_now n (reset parse text)) ->
     1 <= RobEntry.robTag a < nextRobTag (steps Date_now n (reset parse text))) /\
  (forall a, a ∈ lsq (steps Date_now n (reset parse text)) ->
     1 <= LsqEntry.robTag a < nextRobTag (steps Date_now n (reset parse text))).
Proof.
  intros _.
  destruct (tagInv_steps Date_now parse text n) as [Hr Hrr Hl Hlr].
  set (s := steps Date_now n (reset parse text)) in *.
  split; [|split; [|split]].
  - intros i j a b Hij Ha Hb.
    apply (ascending_lookup _ i j _ _ Hr Hij);
      rewrite list_lookup_fmap; [rewrite Ha|rewrite Hb]; reflexivity.
  - intros i j a b Hij Ha Hb.
    apply (ascending_lookup _ i j _ _ Hl Hij);
      rewrite list_lookup_fmap; [rewrite Ha|rewrite Hb]; reflexivity.
  - intros a Ha. rewrite Forall_forall in Hrr. apply Hrr.
    apply list_elem_of_fmap. eauto.
  - intros a Ha. rewrite Forall_forall in Hlr. apply Hlr.
    apply list_elem_of_fmap. eauto.
Qed.

Lemma tags_increase_witness :
  wfProgram (parsedAs x0Program "").1 /\
  (forall a, a ∈ rob (steps tickingClock 1 (reset (parsedAs x0Program) "")) ->
     1 <= RobEntry.robTag a
       < nextRobTag (steps tickingClock 1 (reset (parsedAs x0Program) ""))).
Proof.
  split; [exact wfProgram_x0Program|].
  exact (proj1 (proj2 (proj2 (tags_increase tickingClock (parsedAs x0Program) "" 1
                                wfProgram_x0Program)))).
Defined.

(** ** Branch counters and the predictor along a run *)

Lemma stageCommit_not_branch Date_now s head rest :
  rob s = head :: rest ->
  isBranch (RobEntry.op head) = false ->
  branchFrame s (stageCommit Date_now s) \/
  (branchCorrect (stageCommit Date_now s) = branchCorrect s /\
   branchTotal (stageCommit Date_now s) = branchTotal s /\
   predictor (stageCommit Date_now s) = predictor s).
Proof.
  intros Hrob Hbr. right. unfold_commit. rewrite Hrob, Hbr.
  repeat case_match; simplify_eq; repeat split; reflexivity.
Qed.

Lemma stageCommit_branchCounters Date_now s :
  (branchTotal (stageCommit Date_now s) = branchTotal s /\
   branchCorrect (stageCommit Date_now s) = branchCorrect s /\
   predictor (stageCommit Date_now s) = predictor s) \/
  (exists pc taken,
     predictor (stageCommit Date_now s)
     = GsharePredictor.update (predictor s) pc taken /\
     branchTotal (stageCommit Date_now s) = branchTotal s + 1 /\
     ((branchCorrect (stageCommit Date_now s) = branchCorrect s + 1 /\
       instructionsCommitted (stageCommit Date_now s) = instructionsCommitted s + 1)
      \/ (branchCorrect (stageCommit Date_now s) = branchCorrect s /\
          instructionsCommitted (stageCommit Date_now s) = instructionsCommitted s))).
Proof.
  destruct (rob s) as [|head rest] eqn:Hrob.
  { left. unfold stageCommit. rewrite Hrob. repeat split; reflexivity. }
  destruct (RobEntry.isReady head) eqn:Hready.
  2:{ left. unfold stageCommit. rewrite Hrob, Hready. repeat split; reflexivity. }
  destruct (isBranch (RobEntry.op head)) eqn:Hbr.
  - right. exists (RobEntry.pc head), (RobEntry.result head =? 1).
    rewrite (stageCommit_branch Date_now s head rest Hrob Hready Hbr).
    unfold branchCounted, flushPipeline, log.
    destruct (Bool.eqb _ _).
    + split; [reflexivity|split; [reflexivity|left; split; reflexivity]].
    + destruct (RobEntry.result head =? 1);
        (split; [reflexivity|split; [reflexivity|right; split; reflexivity]]).
  - left.
    destruct (stageCommit_not_branch Date_now s head rest Hrob Hbr)
      as [H|(H1 & H2 & H3)].
    + repeat split; [apply (bf_branchTotal _ _ H)|apply (bf_branchCorrect _ _ H)
                    |apply (bf_predictor _ _ H)].
    + repeat split; assumption.
Qed.

Lemma issueQuiet_trans s1 s2 s3 :
  issueQuiet s1 s2 -> issueQuiet s2 s3 -> issueQuiet s1 s3.
Proof.
  intros H1 H2. split.
  - rewrite (iq_branchCorrect _ _ H2). apply (iq_branchCorrect _ _ H1).
  - rewrite (iq_branchTotal _ _ H2). apply (iq_branchTotal _ _ H1).
  - rewrite (iq_predictor _ _ H2). apply (iq_predictor _ _ H1).
  - rewrite (iq_l1d _ _ H2). apply (iq_l1d _ _ H1).
Qed.

Lemma issueFetch_quiet Date_now s : issueQuiet s (issueFetch Date_now s).
Proof.
  unfold issueFetch, l1iAccess, log.
  repeat case_match; simplify_eq; split; reflexivity.
Qed.

Lemma issueAllocate_quiet inst qj vj qk vk s :
  issueQuiet s (issueAllocate inst qj vj qk vk s).
Proof.
  unfold issueAllocate. repeat case_match; split; reflexivity.
Qed.

Lemma issueAdvance_quiet inst s : issueQuiet s (issueAdvance inst s).
Proof.
  unfold issueAdvance, log. repeat case_match; split; reflexivity.
Qed.

Lemma issue_quiet Date_now template s :
  issueQuiet s (issue Date_now template s).
Proof.
  unfold issue.
  pose proof (issueFetch_quiet Date_now s) as H1.
  set (s1 := issueFetch Date_now s) in *.
  set (s2 := setNextRobTag (nextRobTag s1 + 1) s1).
  assert (H2 : issueQuiet s s2) by (destruct H1; split; assumption).
  destruct (renameSource (Template.rs1 template) s2) as [qj vj].
  destruct (renameSource (Template.rs2 template) s2) as [qk vk].
  eapply issueQuiet_trans; [|apply issueAdvance_quiet].
  eapply issueQuiet_trans; [exact H2|apply issueAllocate_quiet].
Qed.

Lemma issueLoop_quiet Date_now n s :
  issueQuiet s (issueLoop Date_now n s).1.
Proof.
  revert s. induction n as [|n IH]; intros s; [split; reflexivity|].
  cbn [issueLoop].
  destruct (stageFetchAndIssue Date_now s) as [s' ok] eqn:Hissue.
  destruct ok.
  - apply stageFetchAndIssue_true in Hissue as (template & _ & ->).
    specialize (IH (issue Date_now template s)).
    destruct (issueLoop Date_now n (issue Date_now template s)) as [s'' k].
    eapply issueQuiet_trans; [apply issue_quiet|exact IH].
  - apply stageFetchAndIssue_false in Hissue as ->. split; reflexivity.
Qed.

(** What a cycle does to the branch counters and the predictor. *)
Lemma step_branchCounters Date_now s :
  (branchTotal (step Date_now s) = branchTotal s /\
   branchCorrect (step Date_now s) = branchCorrect s /\
   predictor (step Date_now s) = predictor s) \/
  (exists pc taken,
     predictor (step Date_now s) = GsharePredictor.update (predictor s) pc taken /\
     branchTotal (step Date_now s) = branchTotal s + 1 /\
     ((branchCorrect (step Date_now s) = branchCorrect s + 1 /\
       instructionsCommitted (step Date_now s) = instructionsCommitted s + 1)
      \/ (branchCorrect (step Date_now s) = branchCorrect s /\
          instructionsCommitted (step Date_now s) = instructionsCommitted s))).
Proof.
  unfold step. destruct (finished s); [left; repeat split; reflexivity|].
  set (s0 := setClock (clock s + 1) s).
  pose proof (stageCommit_branchCounters Date_now s0) as Hc.
  destruct (stageExecute_meter Date_now (stageCommit Date_now s0)) as [_ He].
  pose proof (ef_committed _ _ (stageExecute_frame Date_now (stageCommit Date_now s0)))
    as Hec.
  set (s1 := stageExecute Date_now (stageCommit Date_now s0)) in *.
  pose proof (issueLoop_quiet Date_now (width s1) s1) as Hi.
  destruct (issueLoop_window Date_now (width s1) s1) as [Hic _].
  destruct (issueLoop Date_now (width s1) s1) as [s2 k]. cbn in *.
  rewrite (iq_branchTotal _ _ Hi), (iq_branchCorrect _ _ Hi), (iq_predictor _ _ Hi).
  rewrite (bf_branchTotal _ _ He), (bf_branchCorrect _ _ He), (bf_predictor _ _ He).
  rewrite Hic, Hec. exact Hc.
Qed.

Lemma update_wf p pc taken :
  GsharePredictor.wf p -> GsharePredictor.wf (GsharePredictor.update p pc taken).
Proof.
  intros Hwf.
  pose proof (index_range p pc) as Hi.
  destruct (counter_lookup p _ Hwf Hi) as (c & Hc & Hcr).
  destruct Hwf as (Hg & Hlen & Hall).
  unfold GsharePredictor.update, GsharePredictor.wf, GsharePredictor.counter.
  cbn [GsharePredictor.ghr GsharePredictor.pht]. rewrite Hc. cbn. unfold id.
  split; [|split].
  - rewrite ghr_update_spec by exact Hg. apply land_1023_range.
  - rewrite length_insert. exact Hlen.
  - apply Forall_insert; [exact Hall|]. unfold JS.toUint8.
    destruct taken; [destruct (Z.ltb_spec c 3)|destruct (Z.ltb_spec 0 c)];
      rewrite Z.mod_small; lia.
Qed.

(** X7: in every run from reset the branch counters satisfy
    0 <= branchCorrect <= branchTotal, and every correctly predicted branch
    is a committed instruction (branchCorrect <= instructionsCommitted; a
    mispredicted branch is flushed with the rest of the ROB and never
    counted as committed); the predictor keeps its shape, a 10-bit history
    and 1024 counters in [0, 3]. *)
Theorem branch_counters Date_now parse text n :
  wfProgram (parse text).1 ->
  0 <= branchCorrect (steps Date_now n (reset parse text))
    <= branchTotal (steps Date_now n (reset parse text)) /\
  branchCorrect (steps Date_now n (reset parse text))
    <= instructionsCommitted (steps Date_now n (reset parse text)) /\
  GsharePredictor.wf (predictor (steps Date_now n (reset parse text))).
Proof.
  intros _.
  induction n as [|n (IH1 & IH2 & IH3)].
  - cbn [steps].
    destruct (reset_fields parse text)
      as (_ & _ & _ & _ & _ & -> & _ & _ & -> & -> & _).
    split; [lia|split; [lia|]].
    unfold reset, loadProgram. destruct (parse text) as [prog completed].
    destruct completed; apply gshare_new_wf.
  - cbn [steps].
    set (s := steps Date_now n (reset parse text)) in *.
    pose proof (proj1 (step_limits Date_now s)) as Hmono.
    destruct (step_branchCounters Date_now s)
      as [(-> & -> & ->)|(pc & taken & -> & -> & [[-> ->]|[-> ->]])].
    + split; [lia|split; [lia|exact IH3]].
    + split; [lia|split; [lia|apply update_wf; exact IH3]].
    + split; [lia|split; [lia|apply update_wf; exact IH3]].
Qed.

Lemma branch_counters_witness :
  wfProgram (parsedAs mispredictProgram "").1 /\
  branchCorrect (steps tickingClock 6 (reset (parsedAs mispredictProgram) ""))
  <= instructionsCommitted (steps tickingClock 6 (reset (parsedAs mispredictProgram) "")).
Proof.
  assert (H : wfProgram (parsedAs mispredictProgram "").1).
  { apply wfProgram_storeProgram. repeat constructor. }
  split; [exact H|].
  exact (proj1 (proj2 (branch_counters tickingClock (parsedAs mispredictProgram) "" 6 H))).
Defined.

(** ** The cache *)

Lemma setIndex_range addr : (setIndex addr < 32)%nat.
Proof.
  unfold setIndex, JS.band. change (JS.toInt32 31) with (Z.ones 5).
  rewrite Z.land_ones by lia.
  pose proof (Z.mod_pos_bound (JS.toInt32 (JS.sar addr 6)) (2 ^ 5) ltac:(lia)).
  change (2 ^ 5) with 32 in *. lia.
Qed.

Lemma findWay_Some tg i set j :
  Cache.findWay tg i set = Some j ->
  (i <= j)%nat /\ exists l, set !! (j - i)%nat = Some l /\ Cache.tag l = tg.
Proof.
  revert i. induction set as [|l set IH]; intros i H; [discriminate|].
  cbn in H. destruct (Z.eqb_spec (Cache.tag l) tg) as [Heq|Hne].
  - simplify_eq. split; [lia|]. exists l. rewrite Nat.sub_diag. auto.
  - apply IH in H as (Hle & l' & Hl' & Htag). split; [lia|].
    exists l'. split; [|exact Htag].
    replace (j - i)%nat with (S (j - S i)) by lia. exact Hl'.
Qed.

Lemma findWay_None tg i set :
  Cache.findWay tg i set = None <-> Forall (fun l => Cache.tag l <> tg) set.
Proof.
  revert i. induction set as [|l set IH]; intros i; cbn.
  - split; [constructor|reflexivity].
  - destruct (Z.eqb_spec (Cache.tag l) tg) as [Heq|Hne].
    + split; [discriminate|]. intros H. apply Forall_cons in H as [H _].
      contradiction.
    + rewrite IH. split.
      * intros H. constructor; assumption.
      * intros H. apply Forall_cons in H as [_ H]. exact H.
Qed.

Lemma victimFrom_spec i v m set :
  let r := Cache.victimFrom i v m set in
  (r = v /\ Forall (fun l => m <= Cache.lru l) set) \/
  ((i <= r < i + length set)%nat /\
   exists l, set !! (r - i)%nat = Some l /\ Cache.lru l < m /\
     Forall (fun l' => Cache.lru l <= Cache.lru l') set /\
     forall k l', (k < r - i)%nat -> set !! k = Some l' -> Cache.lru l < Cache.lru l').
Proof.
  revert i v m. induction set as [|l set IH]; intros i v m; cbn.
  { left. split; [reflexivity|constructor]. }
  destruct (Z.ltb_spec (Cache.lru l) m) as [Hlt|Hge].
  - right. destruct (IH (S i) i (Cache.lru l))
      as [[-> Hall]|(Hr & l' & Hl' & Hlt' & Hall & Hfirst)].
    + split; [lia|]. exists l. rewrite Nat.sub_diag.
      split; [reflexivity|split; [exact Hlt|split]].
      * constructor; [lia|exact Hall].
      * intros k l' Hk. lia.
    + split; [lia|]. exists l'.
      replace (Cache.victimFrom (S i) i (Cache.lru l) set - i)%nat
        with (S (Cache.victimFrom (S i) i (Cache.lru l) set - S i)) by lia.
      split; [exact Hl'|split; [lia|split]].
      * constructor; [lia|exact Hall].
      * intros k l'' Hk Hk'. destruct k as [|k]; cbn in Hk'.
        -- simplify_eq. exact Hlt'.
        -- apply (Hfirst k); [lia|exact Hk'].
  - destruct (IH (S i) v m)
      as [[-> Hall]|(Hr & l' & Hl' & Hlt' & Hall & Hfirst)].
    + left. split; [reflexivity|]. constructor; assumption.
    + right. split; [lia|]. exists l'.
      replace (Cache.victimFrom (S i) v m set - i)%nat
        with (S (Cache.victimFrom (S i) v m set - S i)) by lia.
      split; [exact Hl'|split; [exact Hlt'|split]].
      * constructor; [lia|exact Hall].
      * intros k l'' Hk Hk'. destruct k as [|k]; cbn in Hk'.
        -- simplify_eq. lia.
        -- apply (Hfirst k); [lia|exact Hk'].
Qed.

(** X8: the replacement loop picks a way with the smallest LRU stamp, and
    among ways with equal stamps the first: every way has a stamp at least
    that of the victim, and every way before the victim a strictly larger
    one.  (With equal stamps in every way the victim is way 0.) *)
Theorem victim_is_first_least (set : list Cache.Line) :
  set <> [] ->
  exists l,
    set !! Cache.victim set = Some l /\
    (forall k l', set !! k = Some l' -> Cache.lru l <= Cache.lru l') /\
    (forall k l', (k < Cache.victim set)%nat -> set !! k = Some l' ->
       Cache.lru l < Cache.lru l').
Proof.
  destruct set as [|l0 rest]; [contradiction|]. intros _.
  unfold Cache.victim.
  destruct (victimFrom_spec 1 0 (Cache.lru l0) rest)
    as [[-> Hall]|(Hr & l & Hl & Hlt & Hall & Hfirst)].
  - exists l0. split; [reflexivity|split].
    + intros k l' Hk. destruct k as [|k]; cbn in Hk; [simplify_eq; lia|].
      rewrite Forall_forall in Hall. apply Hall.
      eapply list_elem_of_lookup_2. exact Hk.
    + intros k l' Hk. lia.
  - set (r := Cache.victimFrom 1 0 (Cache.lru l0) rest) in *.
    exists l. split; [|split].
    + replace r with (S (r - 1)) by lia. exact Hl.
    + intros k l' Hk. destruct k as [|k]; cbn in Hk; [simplify_eq; lia|].
      rewrite Forall_forall in Hall. apply Hall.
      eapply list_elem_of_lookup_2. exact Hk.
    + intros k l' Hk Hk'. destruct k as [|k]; cbn in Hk'; [simplify_eq; lia|].
      apply (Hfirst k); [lia|exact Hk'].
Qed.

Lemma victim_is_first_least_witness :
  exists l,
    [Cache.Build_Line 7 5 false; Cache.Build_Line 8 5 true]
      !! Cache.victim [Cache.Build_Line 7 5 false; Cache.Build_Line 8 5 true]
    = Some l /\ Cache.lru l = 5.
Proof.
  destruct (victim_is_first_least
              [Cache.Build_Line 7 5 false; Cache.Build_Line 8 5 true]
              ltac:(discriminate)) as (l & Hl & Hmin & _).
  exists l. split; [exact Hl|].
  cbn in Hl. injection Hl as <-. reflexivity.
Defined.

Lemma access_set now c addr isWrite :
  cacheShaped c ->
  exists set,
    Cache.tags c !! setIndex addr = Some set /\ length set = 2%nat /\
    Cache.access now c addr isWrite
    = match Cache.findWay (lineTag addr) 0 set with
      | Some wayIdx =>
          (Cache.setTags
             (<[setIndex addr :=
                  match set !! wayIdx with
                  | Some l =>
                      <[wayIdx := {| Cache.tag := Cache.tag l; Cache.lru := now;
                                     Cache.dirty := if isWrite then true
                                                    else Cache.dirty l |}]> set
                  | None => set
                  end]> (Cache.tags c))
             (Cache.setHitCount (Cache.hitCount c + 1)
                (Cache.setAccessCount (Cache.accessCount c + 1) c)),
           {| Cache.hit := true; Cache.cycles := Cache.latency c |})
      | None =>
          (Cache.setTags
             (<[setIndex addr :=
                  <[Cache.victim set :=
                      {| Cache.tag := lineTag addr; Cache.lru := now;
                         Cache.dirty := isWrite |}]> set]> (Cache.tags c))
             (Cache.setMissCount (Cache.missCount c + 1)
                (Cache.setAccessCount (Cache.accessCount c + 1) c)),
           {| Cache.hit := false;
              Cache.cycles := Cache.latency c + Cache.missPenalty c |})
      end.
Proof.
  intros (Hways & Hlen & Hsets).
  destruct (lookup_lt_is_Some_2 (Cache.tags c) (setIndex addr)) as [set Hset].
  { rewrite Hlen. apply setIndex_range. }
  assert (Hl : length set = 2%nat).
  { rewrite Forall_forall in Hsets. apply Hsets.
    eapply list_elem_of_lookup_2. exact Hset. }
  exists set. split; [exact Hset|split; [exact Hl|]].
  unfold Cache.access. cbv zeta.
  cbn [Cache.tags Cache.setAccessCount Cache.setMissCount Cache.setHitCount
    Cache.ways Cache.hitCount Cache.missCount Cache.latency Cache.missPenalty].
  fold (setIndex addr). fold (lineTag addr). rewrite Hset. cbn [default from_option].
  unfold id. rewrite Hways, (take_ge set 2) by lia.
  destruct (Cache.findWay (lineTag addr) 0 set); reflexivity.
Qed.

Lemma victim_lt set : length set = 2%nat -> (Cache.victim set < 2)%nat.
Proof.
  intros Hl. destruct set as [|a [|b [|? ?]]]; try discriminate.
  unfold Cache.victim. cbn. destruct (_ <? _); lia.
Qed.

Lemma findWay_lt tg set j :
  length set = 2%nat -> Cache.findWay tg 0 set = Some j -> (j < 2)%nat.
Proof.
  intros Hl H. apply findWay_Some in H as (_ & l & Hj & _).
  apply lookup_lt_Some in Hj. lia.
Qed.

Lemma access_shape now c addr isWrite :
  cacheShaped c -> cacheShaped (Cache.access now c addr isWrite).1.
Proof.
  intros Hs. destruct (access_set now c addr isWrite Hs) as (set & Hset & Hl & ->).
  destruct Hs as (Hways & Hlen & Hsets).
  destruct (Cache.findWay _ _ _) eqn:Hfind; unfold cacheShaped;
    cbn [fst Cache.setTags Cache.setHitCount Cache.setMissCount
         Cache.setAccessCount Cache.tags Cache.ways];
    (split; [exact Hways|split; [rewrite length_insert; exact Hlen|]]);
    apply Forall_insert; try exact Hsets.
  - destruct (set !! n); rewrite ?length_insert; exact Hl.
  - rewrite length_insert. exact Hl.
Qed.

(** X9: an access to a cache of 32 sets of 2 ways touches one line only,
    in the set that bits 6 to 10 of the address select: on a hit the line
    that holds the tag, on a miss the victim.  That line gets the time of
    the call as its stamp; a hit keeps the tag and sets the dirty flag on
    a write, a miss installs the tag with the dirty flag of the access.
    Every other line, and the shape, the name and the latencies of the
    cache stay as they are; the result reports the latency on a hit and
    the latency plus the miss penalty on a miss. *)
Theorem access_touches_one_line now c addr isWrite :
  cacheShaped c ->
  cacheShaped (Cache.access now c addr isWrite).1 /\
  Cache.latency (Cache.access now c addr isWrite).1 = Cache.latency c /\
  Cache.missPenalty (Cache.access now c addr isWrite).1 = Cache.missPenalty c /\
  Cache.cycles (Cache.access now c addr isWrite).2
  = (if Cache.hit (Cache.access now c addr isWrite).2 then Cache.latency c
     else Cache.latency c + Cache.missPenalty c) /\
  exists way old,
    (way < 2)%nat /\
    lineAt c (setIndex addr) way = Some old /\
    (Cache.hit (Cache.access now c addr isWrite).2 = true ->
     Cache.tag old = lineTag addr) /\
    lineAt (Cache.access now c addr isWrite).1 (setIndex addr) way
    = Some {| Cache.tag := lineTag addr; Cache.lru := now;
              Cache.dirty :=
                if Cache.hit (Cache.access now c addr isWrite).2
                then isWrite || Cache.dirty old else isWrite |} /\
    (forall i j, (i, j) <> (setIndex addr, way) ->
       lineAt (Cache.access now c addr isWrite).1 i j = lineAt c i j).
Proof.
  intros Hs. split; [apply access_shape; exact Hs|].
  destruct (access_set now c addr isWrite Hs) as (set & Hset & Hl & ->).
  assert (Hidx : (setIndex addr < length (Cache.tags c))%nat).
  { apply lookup_lt_Some in Hset. exact Hset. }
  assert (Hother : forall set' way i j,
             (forall k, k <> way -> set' !! k = set !! k) ->
             (i, j) <> (setIndex addr, way) ->
             <[setIndex addr := set']> (Cache.tags c) !! i ≫= (fun s => s !! j)
             = Cache.tags c !! i ≫= (fun s => s !! j)).
  { intros set' way i j Hset' Hij.
    destruct (decide (i = setIndex addr)) as [->|Hi].
    - rewrite list_lookup_insert_eq by exact Hidx. rewrite Hset. cbn.
      apply Hset'. intros ->. apply Hij. reflexivity.
    - rewrite list_lookup_insert_ne by auto. reflexivity. }
  destruct (Cache.findWay (lineTag addr) 0 set) as [way|] eqn:Hfind.
  - pose proof (findWay_lt _ _ _ Hl Hfind) as Hway.
    apply findWay_Some in Hfind as (_ & l & Hway' & Htag).
    rewrite Nat.sub_0_r in Hway'. rewrite Hway'.
    cbn [fst snd Cache.latency Cache.missPenalty Cache.setTags Cache.hit
         Cache.cycles Cache.setHitCount Cache.setAccessCount].
    repeat split. exists way, l. unfold lineAt.
    cbn [Cache.tags Cache.setTags Cache.setHitCount Cache.setMissCount
         Cache.setAccessCount].
    rewrite Hset. cbn [mbind option_bind].
    split; [exact Hway|split; [exact Hway'|split; [intros _; exact Htag|split]]].
    + rewrite list_lookup_insert_eq by exact Hidx. cbn [mbind option_bind].
      rewrite list_lookup_insert_eq by lia. rewrite Htag.
      destruct isWrite; reflexivity.
    + intros i j Hij. apply (Hother _ way); [|exact Hij].
      intros k Hk. apply list_lookup_insert_ne. auto.
  - pose proof (victim_lt set Hl) as Hv.
    destruct (lookup_lt_is_Some_2 set (Cache.victim set)) as [old Hold]; [lia|].
    cbn [fst snd Cache.latency Cache.missPenalty Cache.setTags Cache.hit
         Cache.cycles Cache.setMissCount Cache.setAccessCount].
    repeat split. exists (Cache.victim set), old. unfold lineAt.
    cbn [Cache.tags Cache.setTags Cache.setHitCount Cache.setMissCount
         Cache.setAccessCount].
    rewrite Hset. cbn [mbind option_bind].
    split; [exact Hv|split; [exact Hold|split; [discriminate|split]]].
    + rewrite list_lookup_insert_eq by exact Hidx. cbn [mbind option_bind].
      rewrite list_lookup_insert_eq by lia. reflexivity.
    + intros i j Hij. apply (Hother _ (Cache.victim set)); [|exact Hij].
      intros k Hk. apply list_lookup_insert_ne. auto.
Qed.

Lemma new_shaped nm lat pen : cacheShaped (Cache.new nm lat pen).
Proof.
  unfold cacheShaped, Cache.new. cbn [Cache.ways Cache.tags].
  split; [reflexivity|split; [apply length_replicate|]].
  apply Forall_replicate. reflexivity.
Qed.

Lemma access_touches_one_line_witness :
  cacheShaped (Cache.new "L1D" 2 10) /\
  Cache.latency (Cache.access 7 (Cache.new "L1D" 2 10) 64 true).1 = 2.
Proof.
  split; [apply new_shaped|].
  exact (proj1 (proj2 (access_touches_one_line 7 (Cache.new "L1D" 2 10) 64 true
                         (new_shaped "L1D" 2 10)))).
Defined.

Lemma access_tags_other now c addr isWrite i :
  cacheShaped c -> i <> setIndex addr ->
  Cache.tags (Cache.access now c addr isWrite).1 !! i = Cache.tags c !! i.
Proof.
  intros Hs Hi.
  destruct (access_set now c addr isWrite Hs) as (set & Hset & Hl & ->).
  destruct (Cache.findWay _ _ _);
    cbn [fst Cache.setTags Cache.tags];
    apply list_lookup_insert_ne; auto.
Qed.

Lemma access_static now c addr isWrite :
  Cache.latency (Cache.access now c addr isWrite).1 = Cache.latency c /\
  Cache.missPenalty (Cache.access now c addr isWrite).1 = Cache.missPenalty c /\
  Cache.name (Cache.access now c addr isWrite).1 = Cache.name c /\
  Cache.sets (Cache.access now c addr isWrite).1 = Cache.sets c /\
  Cache.ways (Cache.access now c addr isWrite).1 = Cache.ways c.
Proof.
  unfold Cache.access. cbv zeta.
  destruct (Cache.findWay _ _ _); cbn; auto.
Qed.

Lemma cached_hit now c addr isWrite :
  cacheShaped c ->
  (Cache.access now c addr isWrite).2
  = {| Cache.hit := cached c addr;
       Cache.cycles := if cached c addr then Cache.latency c
                       else Cache.latency c + Cache.missPenalty c |}.
Proof.
  intros Hs.
  destruct (access_set now c addr isWrite Hs) as (set & Hset & Hl & ->).
  unfold cached. rewrite Hset. cbn [default from_option]. unfold id.
  destruct (Cache.findWay _ _ _); reflexivity.
Qed.

Lemma access_cached now c addr isWrite :
  cacheShaped c -> cached (Cache.access now c addr isWrite).1 addr = true.
Proof.
  intros Hs.
  destruct (access_set now c addr isWrite Hs) as (set & Hset & Hl & Heq).
  assert (Hidx : (setIndex addr < length (Cache.tags c))%nat).
  { apply lookup_lt_Some in Hset. exact Hset. }
  unfold cached. rewrite Heq.
  destruct (Cache.findWay (lineTag addr) 0 set) as [way|] eqn:Hfind;
    cbn [fst Cache.setTags Cache.tags];
    rewrite list_lookup_insert_eq by exact Hidx; cbn [default from_option];
    unfold id.
  - pose proof (findWay_lt _ _ _ Hl Hfind) as Hway.
    apply findWay_Some in Hfind as (_ & l & Hway' & Htag).
    rewrite Nat.sub_0_r in Hway'. rewrite Hway'.
    match goal with |- match ?o with Some _ => _ | None => _ end = true =>
      destruct o eqn:Hnone end; [reflexivity|].
    apply findWay_None in Hnone. rewrite Forall_forall in Hnone.
    exfalso.
    refine (Hnone {| Cache.tag := Cache.tag l; Cache.lru := now;
                     Cache.dirty := if isWrite then true else Cache.dirty l |}
              _ Htag).
    eapply list_elem_of_lookup_2 with (i := way).
    rewrite list_lookup_insert_eq by lia. reflexivity.
  - pose proof (victim_lt set Hl) as Hv.
    match goal with |- match ?o with Some _ => _ | None => _ end = true =>
      destruct o eqn:Hnone end; [reflexivity|].
    apply findWay_None in Hnone. rewrite Forall_forall in Hnone.
    exfalso.
    refine (Hnone {| Cache.tag := lineTag addr; Cache.lru := now;
                     Cache.dirty := isWrite |} _ eq_refl).
    eapply list_elem_of_lookup_2 with (i := Cache.victim set).
    rewrite list_lookup_insert_eq by lia. reflexivity.
Qed.

Lemma accessAll_shape l c : cacheShaped c -> cacheShaped (accessAll l c).
Proof.
  revert c. induction l as [|[[now addr] w] l IH]; intros c Hs; [exact Hs|].
  cbn [accessAll]. apply IH, access_shape, Hs.
Qed.

Lemma accessAll_latency l c :
  Cache.latency (accessAll l c) = Cache.latency c.
Proof.
  revert c. induction l as [|[[now addr] w] l IH]; intros c; [reflexivity|].
  cbn [accessAll]. rewrite IH. apply access_static.
Qed.

Lemma accessAll_other_sets l c i :
  cacheShaped c ->
  Forall (fun a => setIndex a.1.2 <> i) l ->
  Cache.tags (accessAll l c) !! i = Cache.tags c !! i.
Proof.
  revert c. induction l as [|[[now addr] w] l IH]; intros c Hs Hl; [reflexivity|].
  apply Forall_cons in Hl as [Ha Hl]. cbn [accessAll fst snd] in *.
  rewrite IH by (try apply access_shape; assumption).
  apply access_tags_other; [exact Hs|]. intros ->. apply Ha. reflexivity.
Qed.

(** X10: a block that has been accessed stays in the cache while the
    accesses that follow go to other sets: the next access to an address
    of the same set and tag hits, whatever the clock readings were, and
    costs the latency without the miss penalty. *)
Theorem access_again_hits now c addr isWrite l now' addr' isWrite' :
  cacheShaped c ->
  setIndex addr' = setIndex addr ->
  lineTag addr' = lineTag addr ->
  Forall (fun a => setIndex a.1.2 <> setIndex addr) l ->
  (Cache.access now' (accessAll l (Cache.access now c addr isWrite).1)
     addr' isWrite').2
  = {| Cache.hit := true; Cache.cycles := Cache.latency c |}.
Proof.
  intros Hs Hidx Htag Hl.
  pose proof (access_shape now c addr isWrite Hs) as Hs1.
  rewrite cached_hit by (apply accessAll_shape; exact Hs1).
  assert (Hc : cached (accessAll l (Cache.access now c addr isWrite).1) addr'
               = true).
  { unfold cached. rewrite Hidx, Htag.
    rewrite accessAll_other_sets by assumption.
    apply (access_cached now c addr isWrite Hs). }
  rewrite Hc, accessAll_latency.
  destruct (access_static now c addr isWrite) as [-> _]. reflexivity.
Qed.

Lemma access_again_hits_witness :
  (Cache.access 9 (accessAll [(8, 64, false)]
                     (Cache.access 7 (Cache.new "L1D" 2 10) 4096 false).1)
     4100 true).2
  = {| Cache.hit := true; Cache.cycles := 2 |}.
Proof.
  apply (access_again_hits 7 (Cache.new "L1D" 2 10) 4096 false
           [(8, 64, false)] 9 4100 true).
  - apply new_shaped.
  - reflexivity.
  - reflexivity.
  - repeat constructor; cbn; discriminate.
Defined.

Lemma lineTag_invalid addr :
  lineTag addr = -1 <-> -2048 <= JS.toInt32 addr < 0.
Proof.
  unfold lineTag, JS.sar. change (11 mod 32) with 11.
  rewrite Z.shiftr_div_pow2 by lia. change (2 ^ 11) with 2048.
  split; intros H.
  - pose proof (Z.div_mod (JS.toInt32 addr) 2048 ltac:(lia)) as Hd.
    pose proof (Z.mod_pos_bound (JS.toInt32 addr) 2048 ltac:(lia)). lia.
  - symmetry. apply (Z.div_unique _ _ _ (JS.toInt32 addr + 2048)); lia.
Qed.

(** X11: the lines of a new cache carry the tag -1, which is also the tag
    of the addresses from -2048 to -1 (as 32-bit integers): the first
    access to a new cache hits exactly for these addresses, and misses for
    every other one. *)
Theorem new_cache_hits_tag_minus_one nm lat pen now addr isWrite :
  Cache.hit (Cache.access now (Cache.new nm lat pen) addr isWrite).2 = true
  <-> -2048 <= JS.toInt32 addr < 0.
Proof.
  rewrite <- lineTag_invalid.
  rewrite cached_hit by apply new_shaped. cbn [Cache.hit].
  unfold cached, Cache.new. cbn [Cache.tags].
  rewrite lookup_replicate_2 by apply setIndex_range.
  cbn [default from_option]. unfold id.
  cbn [replicate Cache.findWay Cache.invalidLine Cache.tag].
  destruct (Z.eqb_spec (-1) (lineTag addr)) as [Heq|Hne].
  - split; auto.
  - split; [discriminate|]. intros H. congruence.
Qed.

(** ** The counters of the caches *)

Lemma access_counters now c addr isWrite :
  Cache.accessCount (Cache.access now c addr isWrite).1 = Cache.accessCount c + 1 /\
  Cache.hitCount (Cache.access now c addr isWrite).1
  = Cache.hitCount c
    + (if Cache.hit (Cache.access now c addr isWrite).2 then 1 else 0) /\
  Cache.missCount (Cache.access now c addr isWrite).1
  = Cache.missCount c
    + (if Cache.hit (Cache.access now c addr isWrite).2 then 0 else 1).
Proof.
  unfold Cache.access. cbv zeta.
  destruct (Cache.findWay _ _ _); cbn; lia.
Qed.

Lemma access_counted now c addr isWrite :
  cacheCounted c -> cacheCounted (Cache.access now c addr isWrite).1.
Proof.
  intros (Hsum & Hh & Hm).
  destruct (access_counters now c addr isWrite) as (Ha & Hh' & Hm').
  unfold cacheCounted. rewrite Ha, Hh', Hm'.
  destruct (Cache.hit _); lia.
Qed.

Lemma cacheInv_dataStep s s' : cacheInv s -> dataStep s s' -> cacheInv s'.
Proof.
  intros [Hi Hd Hic Hdc Hclk Hf] (Htag & Hl1i & [[Hl1d Hdn]|(now & addr & w & Hl1d & Hdn)]).
  - split; rewrite ?Hl1i, ?Hl1d, ?Hdn, ?Htag; assumption.
  - destruct (access_counters now (l1d s) addr w) as (Ha & _).
    split; rewrite ?Hl1i, ?Hl1d, ?Hdn, ?Htag; try assumption.
    + apply access_shape, Hd.
    + apply access_counted, Hdc.
    + rewrite Ha. lia.
Qed.

Lemma dataStep_refl s : dataStep s s.
Proof. split; [reflexivity|split; [reflexivity|left; split; reflexivity]]. Qed.

Lemma stageCommit_dataStep Date_now s : dataStep s (stageCommit Date_now s).
Proof.
  unfold_commit.
  repeat case_match; simplify_eq;
    (split; [reflexivity|split; [reflexivity|]]);
    try (left; split; reflexivity).
  all: right; cbn in *.
  all: match goal with H : Cache.access ?n ?c ?a ?w = _ |- _ =>
         exists n, a, w; rewrite H end.
  all: split; reflexivity.
Qed.

Lemma computeResult_dataStep Date_now f inst s :
  dataStep s (computeResult Date_now f inst s).1.
Proof.
  unfold computeResult, l1dAccess.
  repeat case_match; simplify_eq;
    (split; [reflexivity|split; [reflexivity|]]);
    try (left; split; reflexivity).
  all: right; cbn -[markLoad] in *.
  all: match goal with H : Cache.access ?n ?c ?a ?w = _ |- _ =>
         exists n, a, w; rewrite H end.
  all: split; reflexivity.
Qed.

Lemma executeStation_dataStep Date_now s rs :
  dataStep s (executeStation Date_now s rs).1.
Proof.
  unfold executeStation.
  repeat case_match; simplify_eq; cbn -[broadcast];
    try apply dataStep_refl.
  all: match goal with H : computeResult _ ?f ?i ?s = _ |- _ =>
    pose proof (computeResult_dataStep Date_now f i s) as Hf; rewrite H in Hf
  end.
  all: exact Hf.
Qed.

Lemma executeStations_cacheInv Date_now sts s :
  cacheInv s -> cacheInv (executeStations Date_now s sts).1.
Proof.
  revert s. induction sts as [|rs sts IH]; intros s Hs; [exact Hs|].
  simpl.
  pose proof (executeStation_dataStep Date_now s rs) as H1.
  destruct (executeStation Date_now s rs) as [s1 rs'].
  specialize (IH s1 (cacheInv_dataStep _ _ Hs H1)).
  destruct (executeStations Date_now s1 sts) as [s2 rest']. exact IH.
Qed.

Lemma cacheInv_fields s s' :
  cacheInv s -> l1i s' = l1i s -> l1d s' = l1d s ->
  dateNowCalls s' = dateNowCalls s -> nextRobTag s' = nextRobTag s ->
  cacheInv s'.
Proof.
  intros Hs H1 H2 H3 H4. apply (cacheInv_dataStep s); [exact Hs|].
  split; [exact H4|split; [exact H1|left; split; assumption]].
Qed.

Lemma stageExecute_cacheInv Date_now s :
  cacheInv s -> cacheInv (stageExecute Date_now s).
Proof.
  intros Hs. unfold stageExecute.
  pose proof (executeStations_cacheInv Date_now (rsALU s) s Hs) as H1.
  destruct (executeStations Date_now s (rsALU s)) as [s1 alu].
  pose proof (executeStations_cacheInv Date_now (rsLS s) s1 H1) as H2.
  destruct (executeStations Date_now s1 (rsLS s)) as [s2 ls]. cbn [fst] in *.
  apply (cacheInv_fields s2); [exact H2|reflexivity..].
Qed.

Lemma issueFetch_caches Date_now s :
  l1i (issueFetch Date_now s)
  = (Cache.access (Date_now (dateNowCalls s)) (l1i s) (pc s) false).1 /\
  l1d (issueFetch Date_now s) = l1d s /\
  dateNowCalls (issueFetch Date_now s) = S (dateNowCalls s) /\
  nextRobTag (issueFetch Date_now s) = nextRobTag s.
Proof.
  unfold issueFetch, l1iAccess, log.
  destruct (Cache.access _ _ _ _) as [c r]. cbn.
  destruct (Cache.hit r); cbn; auto.
Qed.

Lemma issueAllocate_caches inst qj vj qk vk s :
  l1i (issueAllocate inst qj vj qk vk s) = l1i s /\
  l1d (issueAllocate inst qj vj qk vk s) = l1d s /\
  dateNowCalls (issueAllocate inst qj vj qk vk s) = dateNowCalls s /\
  nextRobTag (issueAllocate inst qj vj qk vk s) = nextRobTag s.
Proof.
  unfold issueAllocate. repeat case_match; repeat split; reflexivity.
Qed.

Lemma issueAdvance_caches inst s :
  l1i (issueAdvance inst s) = l1i s /\
  l1d (issueAdvance inst s) = l1d s /\
  dateNowCalls (issueAdvance inst s) = dateNowCalls s /\
  nextRobTag (issueAdvance inst s) = nextRobTag s.
Proof.
  unfold issueAdvance, log. repeat case_match; repeat split; reflexivity.
Qed.

Lemma issue_cacheInv Date_now template s :
  cacheInv s -> cacheInv (issue Date_now template s).
Proof.
  intros [Hi Hd Hic Hdc Hclk Hf]. unfold issue.
  destruct (issueFetch_caches Date_now s) as (F1 & F2 & F3 & F4).
  set (s1 := issueFetch Date_now s) in *.
  set (s2 := setNextRobTag (nextRobTag s1 + 1) s1).
  destruct (renameSource (Template.rs1 template) s2) as [qj vj].
  destruct (renameSource (Template.rs2 template) s2) as [qk vk].
  match goal with |- cacheInv (issueAdvance ?i (issueAllocate ?i ?a ?b ?c ?d s2)) =>
    destruct (issueAdvance_caches i (issueAllocate i a b c d s2)) as (A1 & A2 & A3 & A4);
    destruct (issueAllocate_caches i a b c d s2) as (B1 & B2 & B3 & B4)
  end.
  destruct (access_counters (Date_now (dateNowCalls s)) (l1i s) (pc s) false)
    as (Ha & _).
  split; rewrite ?A1, ?A2, ?A3, ?A4, ?B1, ?B2, ?B3, ?B4; subst s2;
    cbn [l1i l1d dateNowCalls nextRobTag setNextRobTag];
    rewrite ?F1, ?F2, ?F3, ?F4; try assumption.
  - apply access_shape, Hi.
  - apply access_counted, Hic.
  - rewrite Ha. lia.
  - rewrite Ha. lia.
Qed.

Lemma issueLoop_cacheInv Date_now n s :
  cacheInv s -> cacheInv (issueLoop Date_now n s).1.
Proof.
  revert s. induction n as [|n IH]; intros s Hs; [exact Hs|].
  cbn [issueLoop].
  destruct (stageFetchAndIssue Date_now s) as [s' ok] eqn:Hissue.
  destruct ok.
  - apply stageFetchAndIssue_true in Hissue as (template & _ & ->).
    specialize (IH (issue Date_now template s) (issue_cacheInv _ _ _ Hs)).
    destruct (issueLoop Date_now n (issue Date_now template s)) as [s'' k].
    exact IH.
  - apply stageFetchAndIssue_false in Hissue as ->. exact Hs.
Qed.

Lemma step_cacheInv Date_now s : cacheInv s -> cacheInv (step Date_now s).
Proof.
  intros Hs. unfold step. destruct (finished s).
  { apply (cacheInv_fields s); [exact Hs|reflexivity..]. }
  set (s0 := setClock (clock s + 1) s).
  assert (H0 : cacheInv s0) by (apply (cacheInv_fields s); [exact Hs|reflexivity..]).
  pose proof (cacheInv_dataStep _ _ H0 (stageCommit_dataStep Date_now s0)) as H1.
  apply stageExecute_cacheInv with (Date_now := Date_now) in H1.
  set (s1 := stageExecute Date_now (stageCommit Date_now s0)) in *.
  pose proof (issueLoop_cacheInv Date_now (width s1) s1 H1) as H2.
  destruct (issueLoop Date_now (width s1) s1) as [s2 k]. cbn [fst] in H2.
  apply (cacheInv_fields s2); [exact H2|reflexivity..].
Qed.

Lemma reset_cacheInv parse text : cacheInv (reset parse text).
Proof.
  unfold reset, loadProgram, newSimulator, initRS, log.
  destruct (parse text) as [prog completed].
  destruct completed; (split; unfold cacheCounted; cbn;
    [apply new_shaped|apply new_shaped|lia|lia|reflexivity|reflexivity]).
Qed.

Lemma accessAll_counters l c :
  Cache.accessCount (accessAll l c) = Cache.accessCount c + Z.of_nat (length l) /\
  (cacheCounted c -> cacheCounted (accessAll l c)).
Proof.
  revert c. induction l as [|[[now addr] w] l IH]; intros c.
  { cbn. split; [lia|auto]. }
  cbn [accessAll length]. destruct (IH (Cache.access now c addr w).1) as [H1 H2].
  destruct (access_counters now c addr w) as (Ha & _).
  split; [rewrite H1, Ha; lia|].
  intros Hc. apply H2, access_counted, Hc.
Qed.

(** X12: the counters of a cache add up.  Each access adds one to the
    access count and one to either the hit count or the miss count, as the
    result it returns says; so after any sequence of accesses to a new
    cache the access count is the length of the sequence and equals hits
    plus misses.  In every run from reset both caches keep 32 sets of 2
    ways, their counters add up, the instruction cache has been accessed
    once for each tag allocated, and the clock has been read once per
    access. *)
Theorem cache_accounting Date_now parse text n :
  wfProgram (parse text).1 ->
  (forall now c addr isWrite,
     Cache.accessCount (Cache.access now c addr isWrite).1
     = Cache.accessCount c + 1 /\
     Cache.hitCount (Cache.access now c addr isWrite).1
     = Cache.hitCount c
       + (if Cache.hit (Cache.access now c addr isWrite).2 then 1 else 0) /\
     Cache.missCount (Cache.access now c addr isWrite).1
     = Cache.missCount c
       + (if Cache.hit (Cache.access now c addr isWrite).2 then 0 else 1)) /\
  (forall nm lat pen l,
     Cache.accessCount (accessAll l (Cache.new nm lat pen)) = Z.of_nat (length l) /\
     cacheCounted (accessAll l (Cache.new nm lat pen))) /\
  cacheInv (steps Date_now n (reset parse text)).
Proof.
  intros _.
  split; [apply access_counters|split].
  - intros nm lat pen l.
    destruct (accessAll_counters l (Cache.new nm lat pen)) as [H1 H2].
    split; [rewrite H1; cbn; lia|].
    apply H2. unfold cacheCounted. cbn. lia.
  - induction n as [|n IH]; [apply reset_cacheInv|].
    cbn [steps]. apply step_cacheInv, IH.
Qed.

Lemma cache_accounting_witness :
  wfProgram (parsedAs lruProgram "").1 /\
  cacheInv (steps tickingClock 5 (reset (parsedAs lruProgram) "")).
Proof.
  assert (H : wfProgram (parsedAs lruProgram "").1).
  { apply wfProgram_storeProgram. repeat constructor. }
  split; [exact H|].
  exact (proj2 (proj2 (cache_accounting tickingClock (parsedAs lruProgram) "" 5 H))).
Defined.

(** ** The register file and the RAT *)

Lemma stageCommit_registers Date_now s :
  (rob (stageCommit Date_now s) = rob s /\
   rat (stageCommit Date_now s) = rat s /\
   regFile (stageCommit Date_now s) = regFile s) \/
  (rob (stageCommit Date_now s) = [] /\
   rat (stageCommit Date_now s) = replicate (length (rat s)) (-1) /\
   regFile (stageCommit Date_now s) = regFile s) \/
  (exists head rest,
     rob s = head :: rest /\
     (rob (stageCommit Date_now s) = rob s \/ rob (stageCommit Date_now s) = rest) /\
     regFile (stageCommit Date_now s)
     = (if writesRegister (RobEntry.rd head) (RobEntry.op head)
        then JS.int32ArraySet (RobEntry.rd head) (RobEntry.result head) (regFile s)
        else regFile s) /\
     rat (stageCommit Date_now s)
     = (if writesRegister (RobEntry.rd head) (RobEntry.op head)
           && ratIs (RobEntry.rd head) (RobEntry.robTag head) (rat s)
        then ratSet (RobEntry.rd head) (-1) (rat s) else rat s)).
Proof.
  unfold_commit.
  repeat case_match; simplify_eq; cbn in *;
    try (left; repeat split; congruence);
    try (right; left; repeat split; congruence).
  all: right; right; eexists _, _; (split; [reflexivity|]).
  all: repeat match goal with
       | H : writesRegister _ _ = _ |- _ => rewrite H; clear H
       | H : ratIs _ _ _ = _ |- _ => rewrite H; clear H
       end.
  all: cbn; auto.
  all: match goal with H : rob _ = _ :: _ |- _ => rewrite H end; cbn; auto.
Qed.

Lemma broadcast_static inst val rb :
  map robStatic (broadcast inst val rb) = map robStatic rb.
Proof.
  unfold broadcast. apply updFirst_map. intros x.
  destruct (isBranch (Instruction.op inst)); reflexivity.
Qed.

Lemma computeResult_rob Date_now f inst s :
  rob (computeResult Date_now f inst s).1 = rob s.
Proof.
  unfold computeResult, l1dAccess. repeat case_match; simplify_eq; reflexivity.
Qed.

Lemma executeStation_static Date_now s rs :
  map robStatic (rob (executeStation Date_now s rs).1) = map robStatic (rob s).
Proof.
  unfold executeStation.
  repeat case_match; simplify_eq; cbn -[broadcast]; try reflexivity.
  all: rewrite broadcast_static.
  all: match goal with H : computeResult _ ?f ?i ?s = _ |- _ =>
    pose proof (computeResult_rob Date_now f i s) as Hf; rewrite H in Hf
  end.
  all: cbn in Hf; rewrite Hf; reflexivity.
Qed.

Lemma executeStations_static Date_now sts s :
  map robStatic (rob (executeStations Date_now s sts).1) = map robStatic (rob s).
Proof.
  revert s. induction sts as [|rs sts IH]; intros s; [reflexivity|].
  simpl.
  pose proof (executeStation_static Date_now s rs) as H1.
  destruct (executeStation Date_now s rs) as [s1 rs'].
  specialize (IH s1).
  destruct (executeStations Date_now s1 sts) as [s2 rest']. cbn in *.
  congruence.
Qed.

Lemma stageExecute_static Date_now s :
  map robStatic (rob (stageExecute Date_now s)) = map robStatic (rob s).
Proof.
  unfold stageExecute.
  pose proof (executeStations_static Date_now (rsALU s) s) as H1.
  destruct (executeStations Date_now s (rsALU s)) as [s1 alu].
  pose proof (executeStations_static Date_now (rsLS s) s1) as H2.
  destruct (executeStations Date_now s1 (rsLS s)) as [s2 ls]. cbn in *.
  congruence.
Qed.

Lemma regInv_fields s s' :
  regInv s -> regFile s' = regFile s -> rat s' = rat s ->
  map robStatic (rob s') = map robStatic (rob s) -> regInv s'.
Proof.
  intros [H1 H2 H3 H4] Hr Ht Hb.
  split; rewrite ?Hr, ?Ht, ?Hb; assumption.
Qed.

Lemma int32ArraySet_shape i v (a : list Z) :
  Forall (fun v => - 2 ^ 31 <= v < 2 ^ 31) a ->
  length (JS.int32ArraySet i v a) = length a /\
  Forall (fun v => - 2 ^ 31 <= v < 2 ^ 31) (JS.int32ArraySet i v a).
Proof.
  intros Ha. unfold JS.int32ArraySet. destruct (0 <=? i); [|auto].
  split; [apply length_insert|].
  apply Forall_insert; [exact Ha|apply toInt32_range].
Qed.

Lemma ratSet_length r v (rt : list Z) : length (ratSet r v rt) = length rt.
Proof. unfold ratSet. destruct (0 <=? r); [apply length_insert|reflexivity]. Qed.

Lemma ratSet_lookup r v (rt : list Z) i t :
  ratSet r v rt !! i = Some t ->
  (0 <= r /\ i = Z.to_nat r /\ t = v) \/ rt !! i = Some t.
Proof.
  unfold ratSet. destruct (Z.leb_spec 0 r) as [Hr|Hr]; [|auto].
  destruct (decide (i = Z.to_nat r)) as [->|Hne].
  - intros H. destruct (decide (Z.to_nat r < length rt)%nat) as [Hlt|Hge].
    + rewrite list_lookup_insert_eq in H by exact Hlt. left. split; [lia|].
      split; congruence.
    + rewrite list_insert_ge in H by lia. auto.
  - rewrite list_lookup_insert_ne by auto. auto.
Qed.

Lemma regInv_commit Date_now s : regInv s -> regInv (stageCommit Date_now s).
Proof.
  intros [H1 H2 H3 H4].
  destruct (stageCommit_registers Date_now s)
    as [(Hb & Ht & Hr)|[(Hb & Ht & Hr)|(head & rest & Hrob & Hb & Hr & Ht)]].
  - split; rewrite ?Hb, ?Ht, ?Hr; assumption.
  - split; rewrite ?Hb, ?Ht, ?Hr; try assumption.
    + rewrite length_replicate. exact H3.
    + intros i t Hi Hne. apply lookup_replicate in Hi as [-> _]. contradiction.
  - destruct (int32ArraySet_shape (RobEntry.rd head) (RobEntry.result head)
                (regFile s) H2) as [Hlen Hrange].
    split; rewrite ?Hr, ?Ht.
    + destruct (writesRegister _ _); congruence.
    + destruct (writesRegister _ _); assumption.
    + destruct (_ && _); rewrite ?ratSet_length; exact H3.
    + intros i t Hi Hne.
      assert (Hold : rat s !! i = Some t).
      { destruct (_ && _); [|exact Hi].
        apply ratSet_lookup in Hi as [(_ & _ & ->)|Hi]; [contradiction|exact Hi]. }
      destruct (H4 i t Hold Hne) as (op & Hin & Hw).
      exists op. split; [|exact Hw].
      destruct Hb as [Hb|Hb]; rewrite Hb; [exact Hin|].
      rewrite Hrob in Hin. cbn [map] in Hin.
      apply elem_of_cons in Hin as [Heq|Hin]; [|exact Hin].
      exfalso. unfold robStatic in Heq. injection Heq as Htag Hrd Hop.
      rewrite <- Hrd, <- Hop, <- Htag in *. rewrite Hw in Hi. cbn [andb] in Hi.
      assert (Hris : ratIs (Z.of_nat i) t (rat s) = true).
      { unfold ratIs. destruct (Z.leb_spec 0 (Z.of_nat i)); [|lia].
        rewrite Nat2Z.id, Hold. apply Z.eqb_refl. }
      rewrite Hris in Hi. unfold ratSet in Hi.
      destruct (Z.leb_spec 0 (Z.of_nat i)); [|lia].
      rewrite Nat2Z.id in Hi.
      rewrite list_lookup_insert_eq in Hi by (apply lookup_lt_Some in Hold; exact Hold).
      congruence.
Qed.

Lemma regInv_execute Date_now s : regInv s -> regInv (stageExecute Date_now s).
Proof.
  intros Hs. pose proof (stageExecute_frame Date_now s) as Hf.
  apply (regInv_fields s); [exact Hs| | |].
  - exact (ef_regFile _ _ Hf).
  - exact (ef_rat _ _ Hf).
  - apply stageExecute_static.
Qed.

(** The entry that issue pushes on the ROB. *)
Lemma issue_entry Date_now template s :
  exists entry,
    rob (issue Date_now template s) = rob s ++ [entry] /\
    robStatic entry = (nextRobTag s, Template.rd template, Template.op template) /\
    RobEntry.isReady entry = false.
Proof.
  unfold issue.
  pose proof (issueFetch_frame Date_now s) as Hf.
  set (s1 := issueFetch Date_now s) in *.
  set (s2 := setNextRobTag (nextRobTag s1 + 1) s1).
  destruct (renameSource (Template.rs1 template) s2) as [qj vj].
  destruct (renameSource (Template.rs2 template) s2) as [qk vk].
  match goal with |- context [issueAdvance ?i (issueAllocate ?i ?a ?b ?c ?d s2)] =>
    pose proof (issueAdvance_frame i (issueAllocate i a b c d s2)) as Ha;
    set (inst := i) in *
  end.
  rewrite (wf_rob _ _ Ha).
  eexists. split; [|split].
  - unfold issueAllocate. repeat case_match; cbn [rob setRat setRob setRsALU setRsLS setLsq];
      subst s2; cbn [rob setNextRobTag]; rewrite (wf_rob _ _ Hf); reflexivity.
  - unfold robStatic. cbn. rewrite (wf_nextRobTag _ _ Hf). reflexivity.
  - reflexivity.
Qed.

Lemma regInv_issue Date_now template s :
  regInv s -> regInv (issue Date_now template s).
Proof.
  intros [H1 H2 H3 H4].
  pose proof (issue_effect Date_now template s) as He.
  destruct (issue_entry Date_now template s) as (entry & Hrob & Hst & _).
  split.
  - rewrite (ie_regFile _ _ _ _ _ He). exact H1.
  - rewrite (ie_regFile _ _ _ _ _ He). exact H2.
  - rewrite (ie_rat _ _ _ _ _ He).
    destruct (writesRegister _ _); rewrite ?ratSet_length; exact H3.
  - intros i t Hi Hne. rewrite (ie_rat _ _ _ _ _ He) in Hi.
    rewrite Hrob, map_app. cbn [map]. rewrite Hst.
    destruct (writesRegister (Template.rd template) (Template.op template)) eqn:Hw.
    + apply ratSet_lookup in Hi as [(Hrd & -> & ->)|Hi].
      * exists (Template.op template). rewrite Z2Nat.id by exact Hrd.
        split; [|exact Hw]. apply elem_of_app. right. apply list_elem_of_singleton.
        reflexivity.
      * destruct (H4 i t Hi Hne) as (op & Hin & Hwr).
        exists op. split; [|exact Hwr]. apply elem_of_app. left. exact Hin.
    + destruct (H4 i t Hi Hne) as (op & Hin & Hwr).
      exists op. split; [|exact Hwr]. apply elem_of_app. left. exact Hin.
Qed.

Lemma regInv_issueLoop Date_now n s :
  regInv s -> regInv (issueLoop Date_now n s).1.
Proof.
  revert s. induction n as [|n IH]; intros s Hs; [exact Hs|].
  cbn [issueLoop].
  destruct (stageFetchAndIssue Date_now s) as [s' ok] eqn:Hissue.
  destruct ok.
  - apply stageFetchAndIssue_true in Hissue as (template & _ & ->).
    specialize (IH (issue Date_now template s) (regInv_issue _ _ _ Hs)).
    destruct (issueLoop Date_now n (issue Date_now template s)) as [s'' k].
    exact IH.
  - apply stageFetchAndIssue_false in Hissue as ->. exact Hs.
Qed.

Lemma regInv_step Date_now s : regInv s -> regInv (step Date_now s).
Proof.
  intros Hs. unfold step. destruct (finished s).
  { apply (regInv_fields s); [exact Hs|reflexivity..]. }
  set (s0 := setClock (clock s + 1) s).
  assert (H0 : regInv s0) by (apply (regInv_fields s); [exact Hs|reflexivity..]).
  apply regInv_commit with (Date_now := Date_now) in H0.
  apply regInv_execute with (Date_now := Date_now) in H0.
  set (s1 := stageExecute Date_now (stageCommit Date_now s0)) in *.
  pose proof (regInv_issueLoop Date_now (width s1) s1 H0) as H2.
  destruct (issueLoop Date_now (width s1) s1) as [s2 k]. cbn [fst] in H2.
  apply (regInv_fields s2); [exact H2|reflexivity..].
Qed.

Lemma regInv_reset parse text : regInv (reset parse text).
Proof.
  unfold reset, loadProgram, newSimulator, initRS, log.
  destruct (parse text) as [prog completed].
  destruct completed; (split; cbn -[replicate Z.pow];
    [reflexivity
    |apply Forall_replicate; lia
    |reflexivity
    |intros i t Hi Hne; apply lookup_replicate in Hi as [-> _]; contradiction]).
Qed.

Lemma regInv_steps Date_now parse text n :
  regInv (steps Date_now n (reset parse text)).
Proof.
  induction n as [|n IH]; [apply regInv_reset|].
  cbn [steps]. apply regInv_step, IH.
Qed.

Lemma findRob_Some tag rb r :
  findRob tag rb = Some r -> r ∈ rb /\ RobEntry.robTag r = tag.
Proof.
  unfold findRob. induction rb as [|x rb IH]; [discriminate|].
  cbn. destruct (Z.eqb_spec (RobEntry.robTag x) tag) as [Heq|Hne].
  - intros [= <-]. split; [left|exact Heq].
  - intros H. apply IH in H as [Hin Htag]. split; [right; exact Hin|exact Htag].
Qed.

Lemma findRob_unique rb r :
  ascending (map RobEntry.robTag rb) -> r ∈ rb ->
  findRob (RobEntry.robTag r) rb = Some r.
Proof.
  unfold findRob. induction rb as [|x rb IH]; intros Hasc Hin.
  { apply elem_of_nil in Hin. contradiction. }
  cbn in Hasc. destruct Hasc as [Hlt Hasc].
  cbn. destruct (Z.eqb_spec (RobEntry.robTag x) (RobEntry.robTag r)) as [Heq|Hne].
  - apply elem_of_cons in Hin as [->|Hin]; [reflexivity|].
    exfalso. rewrite Forall_forall in Hlt.
    specialize (Hlt (RobEntry.robTag r)).
    assert (RobEntry.robTag x < RobEntry.robTag r); [|lia].
    apply Hlt. apply list_elem_of_fmap. exists r. auto.
  - apply elem_of_cons in Hin as [->|Hin]; [contradiction|].
    apply IH; assumption.
Qed.

Lemma ratLive_findRob s i t :
  tagInv s -> regInv s -> rat s !! i = Some t -> t <> -1 ->
  exists r, findRob t (rob s) = Some r /\ RobEntry.rd r = Z.of_nat i /\
            writesRegister (RobEntry.rd r) (RobEntry.op r) = true.
Proof.
  intros Htag Hreg Hi Hne.
  destruct (ri_ratLive _ Hreg i t Hi Hne) as (op & Hin & Hw).
  apply list_elem_of_fmap in Hin as (r & Hst & Hin).
  unfold robStatic in Hst. injection Hst as Ht Hrd Hop.
  exists r. rewrite Ht. split; [|split].
  - apply findRob_unique; [exact (ti_rob _ Htag)|exact Hin].
  - symmetry. exact Hrd.
  - rewrite <- Hrd, <- Hop. exact Hw.
Qed.

(** X13: in every run from reset the register file keeps its 32 elements,
    each within the signed 32-bit range (the results that reach it are
    wrapped on the way in), and the RAT keeps its 32 elements, each of
    which is -1 or the tag of an entry that is in the ROB and writes that
    register.  So when issue renames a source register to a tag, that tag
    belongs to an entry of the ROB which writes the register and has not
    produced its result yet. *)
Theorem register_state Date_now parse text n :
  wfProgram (parse text).1 ->
  length (regFile (steps Date_now n (reset parse text))) = 32%nat /\
  Forall (fun v => - 2 ^ 31 <= v < 2 ^ 31)
    (regFile (steps Date_now n (reset parse text))) /\
  length (rat (steps Date_now n (reset parse text))) = 32%nat /\
  (forall i t,
     rat (steps Date_now n (reset parse text)) !! i = Some t ->
     t = -1 \/
     exists r,
       findRob t (rob (steps Date_now n (reset parse text))) = Some r /\
       RobEntry.rd r = Z.of_nat i /\
       writesRegister (RobEntry.rd r) (RobEntry.op r) = true) /\
  (forall r q v,
     0 <= r < 32 ->
     renameSource r (steps Date_now n (reset parse text)) = (q, v) ->
     q <> -1 ->
     exists e,
       findRob q (rob (steps Date_now n (reset parse text))) = Some e /\
       RobEntry.isReady e = false /\ RobEntry.rd e = r).
Proof.
  intros _.
  pose proof (regInv_steps Date_now parse text n) as Hreg.
  pose proof (tagInv_steps Date_now parse text n) as Htag.
  set (s := steps Date_now n (reset parse text)) in *.
  split; [exact (ri_regLen _ Hreg)|].
  split; [exact (ri_regRange _ Hreg)|].
  split; [exact (ri_ratLen _ Hreg)|].
  split.
  - intros i t Hi. destruct (decide (t = -1)) as [->|Hne]; [left; reflexivity|].
    right. apply (ratLive_findRob s i t Htag Hreg Hi Hne).
  - intros r q v Hr Hren Hq.
    destruct (lookup_lt_is_Some_2 (rat s) (Z.to_nat r)) as [t Ht].
    { rewrite (ri_ratLen _ Hreg). lia. }
    unfold renameSource, ratGet in Hren. rewrite Ht in Hren.
    cbn [default from_option] in Hren. unfold id in Hren.
    destruct (Z.eqb_spec t (-1)) as [Heq|Hne]; cbn [negb] in Hren.
    { injection Hren as Hq' _. congruence. }
    destruct (ratLive_findRob s _ t Htag Hreg Ht Hne) as (e & Hfind & Hrd & _).
    rewrite Hfind in Hren.
    destruct (RobEntry.isReady e) eqn:Hready.
    { injection Hren as Hq' _. congruence. }
    injection Hren as Hq' _. subst q. exists e.
    split; [exact Hfind|split; [exact Hready|]].
    rewrite Hrd. lia.
Qed.

Lemma register_state_witness :
  wfProgram (parsedAs x0Program "").1 /\
  length (regFile (steps tickingClock 6 (reset (parsedAs x0Program) ""))) = 32%nat.
Proof.
  split; [exact wfProgram_x0Program|].
  exact (proj1 (register_state tickingClock (parsedAs x0Program) "" 6
                  wfProgram_x0Program)).
Defined.

(** ** Starvation of the head of the ROB *)

Lemma starved_starving t s :
  starved t s = true <-> exists hd, starving hd t s.
Proof.
  unfold starved. split.
  - destruct (rob s) as [|hd rest] eqn:Hrob; [discriminate|].
    intros H. repeat (apply andb_prop in H as [H ?]).
    exists hd.
    match goal with H : forallb _ (_ ++ _) = true |- _ =>
      rewrite forallb_app in H; apply andb_prop in H as [Halu Hls] end.
    split.
    + rewrite Hrob. eauto.
    + destruct (RobEntry.isReady hd); [discriminate|reflexivity].
    + lia.
    + lia.
    + rewrite Hrob. apply Forall_forall. intros r Hr.
      match goal with H : forallb _ (hd :: rest) = true |- _ =>
        rewrite forallb_forall in H; specialize (H r) end.
      apply list_elem_of_In in Hr.
      match goal with H : In r _ -> _ |- _ => specialize (H Hr) end.
      destruct (Z.eqb_spec (RobEntry.robTag r) t); [discriminate|assumption].
    + apply Forall_forall. intros rs Hrs. rewrite forallb_forall in Halu.
      apply Halu, list_elem_of_In, Hrs.
    + apply Forall_forall. intros rs Hrs. rewrite forallb_forall in Hls.
      apply Hls, list_elem_of_In, Hrs.
  - intros (hd & [(rest & Hrob) Hready Ht Hhd Hgone Halu Hls]).
    rewrite Hrob in *. rewrite Hready. rewrite !andb_true_iff.
    split; [split; [repeat split; lia|]|].
    + apply forallb_forall. intros r Hr. apply list_elem_of_In in Hr.
      rewrite Forall_forall in Hgone. specialize (Hgone r Hr).
      destruct (Z.eqb_spec (RobEntry.robTag r) t); [contradiction|reflexivity].
    + rewrite forallb_app. apply andb_true_intro. split; apply forallb_forall;
        intros rs Hrs; apply list_elem_of_In in Hrs.
      * rewrite Forall_forall in Halu. auto.
      * rewrite Forall_forall in Hls. auto.
Qed.

Lemma stageCommit_idle Date_now s hd rest :
  rob s = hd :: rest -> RobEntry.isReady hd = false -> stageCommit Date_now s = s.
Proof. intros Hrob Hready. unfold stageCommit. rewrite Hrob, Hready. reflexivity. Qed.

Lemma findRob_gone t rb :
  Forall (fun r => RobEntry.robTag r <> t) rb -> findRob t rb = None.
Proof.
  unfold findRob. induction 1 as [|r rb Hr _ IH]; [reflexivity|].
  cbn. destruct (Z.eqb_spec (RobEntry.robTag r) t); [contradiction|exact IH].
Qed.

Lemma captureOperands_waiting rb f t :
  t <> -1 -> findRob t rb = None ->
  Station.qj f = t \/ Station.qk f = t ->
  Station.qj (captureOperands rb f) = t \/ Station.qk (captureOperands rb f) = t.
Proof.
  intros Hne Hgone Hw. unfold captureOperands.
  destruct Hw as [Hj|Hk].
  - left. rewrite Hj. destruct (Z.eqb_spec t (-1)); [contradiction|].
    cbn [negb]. rewrite Hgone.
    repeat case_match; cbn; assumption.
  - right.
    assert (Hk' : forall f', Station.qk f' = t ->
              Station.qk (if negb (Station.qk f' =? -1) then
                            match findRob (Station.qk f') rb with
                            | Some producer =>
                                if RobEntry.isReady producer
                                then Station.captureK (RobEntry.result producer) f'
                                else f'
                            | None => f'
                            end
                          else f') = t).
    { intros f' Hf'. rewrite Hf'. destruct (Z.eqb_spec t (-1)); [contradiction|].
      cbn [negb]. rewrite Hgone. exact Hf'. }
    apply Hk'. repeat case_match; cbn; assumption.
Qed.

Lemma executeStation_waiting Date_now s rs f t :
  t <> -1 -> findRob t (rob s) = None ->
  Station.busy rs = true -> Station.slot rs = Some f ->
  Station.qj f = t \/ Station.qk f = t ->
  executeStation Date_now s rs
  = (s, {| Station.busy := true;
           Station.slot := Some (captureOperands (rob s) f) |}).
Proof.
  intros Hne Hgone Hbusy Hslot Hw.
  unfold executeStation. rewrite Hbusy, Hslot. cbn [negb].
  destruct (captureOperands_waiting (rob s) f t Hne Hgone Hw) as [Hj|Hk].
  - rewrite Hj. destruct (Z.eqb_spec t (-1)); [contradiction|]. reflexivity.
  - rewrite Hk. destruct (Z.eqb_spec t (-1)); [contradiction|].
    rewrite andb_false_r. reflexivity.
Qed.

(** The instruction of a station keeps its tag, and a station that
    executes touches the ROB entry of that tag only. *)
Lemma executeStation_other Date_now s rs f hd rest :
  rob s = hd :: rest ->
  Station.slot rs = Some f ->
  Instruction.robTag (Station.inst f) <> RobEntry.robTag hd ->
  (exists rest', rob (executeStation Date_now s rs).1 = hd :: rest') /\
  exists f', Station.slot (executeStation Date_now s rs).2 = Some f' /\
             Instruction.robTag (Station.inst f')
             = Instruction.robTag (Station.inst f).
Proof.
  intros Hrob Hslot Htag. unfold executeStation. rewrite Hslot. cbv zeta.
  pose proof (captureOperands_inst (rob s) f) as Hinst.
  destruct (negb (Station.busy rs)); [cbn; rewrite Hslot; eauto|].
  set (f1 := captureOperands (rob s) f) in *.
  match goal with |- context [if ?c then _ else (s, _)] => destruct c end;
    [|cbn; split; [eauto|exists f1; split; [reflexivity|rewrite Hinst; reflexivity]]].
  match goal with |- context [Instruction.setExecutionCyclesLeft _ ?i] =>
    set (inst1 := i) end.
  assert (Hinst1 : Instruction.robTag inst1 = Instruction.robTag (Station.inst f)).
  { subst inst1. destruct (_ && _); cbn; rewrite Hinst; reflexivity. }
  match goal with |- context [Instruction.setExecutionCyclesLeft ?v inst1] =>
    set (inst2 := Instruction.setExecutionCyclesLeft v inst1) end.
  destruct (Instruction.executionCyclesLeft inst2 =? 0);
    [|cbn; rewrite Hrob; split; [eauto|]; eexists; split; [reflexivity|exact Hinst1]].
  pose proof (computeResult_rob Date_now f1 inst2 s) as Hcr.
  destruct (computeResult Date_now f1 inst2 s) as [s' val]. cbn [fst] in Hcr.
  cbn -[broadcast]. rewrite Hcr, Hrob. split.
  - unfold broadcast. cbn [updFirst Instruction.robTag Instruction.setIsReady
      Instruction.setResult].
    change (Instruction.robTag inst2) with (Instruction.robTag inst1).
    rewrite Hinst1.
    destruct (Z.eqb_spec (RobEntry.robTag hd) (Instruction.robTag (Station.inst f)));
      [congruence|eauto].
  - eexists. split; [reflexivity|exact Hinst1].
Qed.

Lemma gone_tags t rb rb' :
  map RobEntry.robTag rb' = map RobEntry.robTag rb ->
  Forall (fun r => RobEntry.robTag r <> t) rb ->
  Forall (fun r => RobEntry.robTag r <> t) rb'.
Proof.
  revert rb. induction rb' as [|r' rb' IH]; intros rb Hm H; [constructor|].
  destruct rb as [|r rb]; [discriminate|].
  injection Hm as Hr Hm. apply Forall_cons in H as [H1 H2].
  constructor; [congruence|]. apply (IH rb); assumption.
Qed.

Lemma executeStation_starving Date_now hd t s rs :
  RobEntry.isReady hd = false -> t <> -1 ->
  (exists rest, rob s = hd :: rest) ->
  Forall (fun r => RobEntry.robTag r <> t) (rob s) ->
  waitsOn (RobEntry.robTag hd) t rs = true ->
  (exists rest, rob (executeStation Date_now s rs).1 = hd :: rest) /\
  Forall (fun r => RobEntry.robTag r <> t) (rob (executeStation Date_now s rs).1) /\
  waitsOn (RobEntry.robTag hd) t (executeStation Date_now s rs).2 = true.
Proof.
  intros Hready Hne (rest & Hrob) Hgone Hw.
  assert (Hgone' : Forall (fun r => RobEntry.robTag r <> t)
                     (rob (executeStation Date_now s rs).1)).
  { apply (gone_tags t (rob s)); [|exact Hgone].
    exact (ef_robTags _ _ (executeStation_frame Date_now s rs)). }
  split; [|split; [exact Hgone'|]].
  - destruct (Station.busy rs) eqn:Hbusy.
    2:{ unfold executeStation. rewrite Hbusy. cbn. eauto. }
    destruct (Station.slot rs) as [f|] eqn:Hslot.
    2:{ unfold executeStation. rewrite Hbusy, Hslot. cbn. eauto. }
    unfold waitsOn in Hw. rewrite Hbusy, Hslot in Hw. cbn [negb orb] in Hw.
    destruct (Z.eqb_spec (Instruction.robTag (Station.inst f)) (RobEntry.robTag hd))
      as [Heq|Hneq].
    + cbn [negb orb] in Hw.
      rewrite (executeStation_waiting Date_now s rs f t Hne
                 (findRob_gone _ _ Hgone) Hbusy Hslot).
      * cbn. eauto.
      * apply orb_prop in Hw as [Hw|Hw]; apply Z.eqb_eq in Hw; auto.
    + apply (executeStation_other Date_now s rs f hd rest Hrob Hslot Hneq).
  - destruct (Station.busy rs) eqn:Hbusy.
    2:{ unfold executeStation. rewrite Hbusy. cbn. unfold waitsOn.
        rewrite Hbusy. reflexivity. }
    destruct (Station.slot rs) as [f|] eqn:Hslot.
    2:{ unfold executeStation. rewrite Hbusy, Hslot. cbn. exact Hw. }
    unfold waitsOn in Hw. rewrite Hbusy, Hslot in Hw. cbn [negb orb] in Hw.
    destruct (Z.eqb_spec (Instruction.robTag (Station.inst f)) (RobEntry.robTag hd))
      as [Heq|Hneq].
    + cbn [negb orb] in Hw.
      assert (Hw' : Station.qj f = t \/ Station.qk f = t).
      { apply orb_prop in Hw as [Hw|Hw]; apply Z.eqb_eq in Hw; auto. }
      rewrite (executeStation_waiting Date_now s rs f t Hne
                 (findRob_gone _ _ Hgone) Hbusy Hslot Hw').
      unfold waitsOn. cbn [snd Station.busy Station.slot negb orb].
      rewrite captureOperands_inst.
      destruct (captureOperands_waiting (rob s) f t Hne (findRob_gone _ _ Hgone) Hw')
        as [-> | ->]; rewrite Z.eqb_refl; rewrite ?orb_true_r; reflexivity.
    + destruct (executeStation_other Date_now s rs f hd rest Hrob Hslot Hneq)
        as (_ & f' & Hslot' & Htag').
      unfold waitsOn. rewrite Hslot', Htag'.
      destruct (Z.eqb_spec (Instruction.robTag (Station.inst f)) (RobEntry.robTag hd));
        [contradiction|].
      cbn. apply orb_true_r.
Qed.

Lemma executeStations_starving Date_now hd t sts s :
  RobEntry.isReady hd = false -> t <> -1 ->
  (exists rest, rob s = hd :: rest) ->
  Forall (fun r => RobEntry.robTag r <> t) (rob s) ->
  Forall (fun rs => waitsOn (RobEntry.robTag hd) t rs = true) sts ->
  (exists rest, rob (executeStations Date_now s sts).1 = hd :: rest) /\
  Forall (fun r => RobEntry.robTag r <> t) (rob (executeStations Date_now s sts).1) /\
  Forall (fun rs => waitsOn (RobEntry.robTag hd) t rs = true)
    (executeStations Date_now s sts).2.
Proof.
  intros Hready Hne. revert s.
  induction sts as [|rs sts IH]; intros s Hrob Hgone Hsts.
  { cbn. auto. }
  apply Forall_cons in Hsts as [Hrs Hsts]. simpl.
  destruct (executeStation_starving Date_now hd t s rs Hready Hne Hrob Hgone Hrs)
    as (H1 & H2 & H3).
  destruct (executeStation Date_now s rs) as [s1 rs'].
  destruct (IH s1 H1 H2 Hsts) as (H4 & H5 & H6).
  destruct (executeStations Date_now s1 sts) as [s2 rest']. cbn in *.
  split; [exact H4|split; [exact H5|]].
  constructor; assumption.
Qed.

Lemma stageExecute_starving Date_now hd t s :
  starving hd t s -> starving hd t (stageExecute Date_now s).
Proof.
  intros [Hrob Hready Ht Hhd Hgone Halu Hls].
  pose proof (ef_nextRobTag _ _ (stageExecute_frame Date_now s)) as Hn.
  assert (Hne : t <> -1) by lia.
  unfold stageExecute in *.
  destruct (executeStations_starving Date_now hd t (rsALU s) s
              Hready Hne Hrob Hgone Halu) as (H1 & H2 & H3).
  destruct (executeStations Date_now s (rsALU s)) as [s1 alu].
  destruct (executeStations_starving Date_now hd t (rsLS s) s1
              Hready Hne H1 H2 Hls) as (H4 & H5 & H6).
  destruct (executeStations Date_now s1 (rsLS s)) as [s2 ls]. cbn in *.
  split; cbn; try assumption; rewrite Hn; assumption.
Qed.

Lemma waitsOn_from hd t b rs :
  RobEntry.robTag hd < b -> stationFrom b rs ->
  waitsOn (RobEntry.robTag hd) t rs = true.
Proof.
  intros Hlt Hfrom. unfold waitsOn.
  destruct (Station.busy rs) eqn:Hbusy; [|reflexivity].
  destruct (Station.slot rs) as [f|] eqn:Hslot; [|reflexivity].
  specialize (Hfrom Hbusy f Hslot).
  destruct (Z.eqb_spec (Instruction.robTag (Station.inst f)) (RobEntry.robTag hd));
    [lia|reflexivity].
Qed.

Lemma issue_starving Date_now hd t template s :
  starving hd t s -> starving hd t (issue Date_now template s).
Proof.
  intros [(rest & Hrob) Hready Ht Hhd Hgone Halu Hls].
  pose proof (issue_effect Date_now template s) as He.
  destruct (ie_rob _ _ _ _ _ He) as (entry & Hr & Htag).
  destruct (ie_stations _ _ _ _ _ He) as (station & Hst & Hpool).
  pose proof (waitsOn_from hd t _ station Hhd Hst) as Hnew.
  split.
  - rewrite Hr, Hrob. cbn. eauto.
  - exact Hready.
  - rewrite (ie_nextRobTag _ _ _ _ _ He). lia.
  - rewrite (ie_nextRobTag _ _ _ _ _ He). lia.
  - rewrite Hr. apply Forall_app. split; [exact Hgone|].
    repeat constructor. lia.
  - destruct Hpool as [[-> _]|[_ ->]]; [apply Forall_fill|]; assumption.
  - destruct Hpool as [[_ ->]|[-> _]]; [|apply Forall_fill]; assumption.
Qed.

Lemma issueLoop_starving Date_now hd t n s :
  starving hd t s -> starving hd t (issueLoop Date_now n s).1.
Proof.
  revert s. induction n as [|n IH]; intros s H; [exact H|].
  cbn [issueLoop].
  destruct (stageFetchAndIssue Date_now s) as [s' ok] eqn:Hissue.
  destruct ok.
  - apply stageFetchAndIssue_true in Hissue as (template & _ & ->).
    specialize (IH _ (issue_starving Date_now hd t template s H)).
    destruct (issueLoop Date_now n (issue Date_now template s)) as [s'' k].
    exact IH.
  - apply stageFetchAndIssue_false in Hissue as ->. exact H.
Qed.

Lemma starving_unfinished hd t s : starving hd t s -> finished s = false.
Proof.
  intros [(rest & Hrob) _ _ _ _ _ _]. unfold finished. rewrite Hrob.
  apply andb_false_r.
Qed.

Lemma step_starving Date_now hd t s :
  starving hd t s ->
  starving hd t (step Date_now s) /\
  instructionsCommitted (step Date_now s) = instructionsCommitted s /\
  regFile (step Date_now s) = regFile s /\
  clock (step Date_now s) = clock s + 1.
Proof.
  intros Hs. pose proof (starving_unfinished hd t s Hs) as Hfin.
  destruct (step_meter Date_now s Hfin) as (Hclk & _).
  split; [|split; [|split; [|exact Hclk]]]; unfold step; rewrite Hfin.
  all: set (s0 := setClock (clock s + 1) s).
  all: assert (H0 : starving hd t s0) by (destruct Hs; split; assumption).
  all: destruct (sv_rob _ _ _ H0) as (rest & Hrob).
  all: rewrite (stageCommit_idle Date_now s0 hd rest Hrob (sv_ready _ _ _ H0)).
  all: pose proof (stageExecute_starving Date_now hd t s0 H0) as H1.
  all: pose proof (stageExecute_frame Date_now s0) as Hf.
  all: set (s1 := stageExecute Date_now s0) in *.
  all: pose proof (issueLoop_starving Date_now hd t (width s1) s1 H1) as H2.
  all: destruct (issueLoop_window Date_now (width s1) s1) as (Hc & _).
  all: destruct (issueLoop_x0 Date_now (width s1) s1) as (_ & Hreg).
  all: destruct (issueLoop Date_now (width s1) s1) as [s2 k]; cbn in *.
  - destruct H2. split; assumption.
  - rewrite Hc. exact (ef_committed _ _ Hf).
  - rewrite Hreg. exact (ef_regFile _ _ Hf).
Qed.

Lemma steps_starving Date_now hd t n s :
  starving hd t s ->
  starving hd t (steps Date_now n s) /\
  instructionsCommitted (steps Date_now n s) = instructionsCommitted s /\
  regFile (steps Date_now n s) = regFile s /\
  clock (steps Date_now n s) = clock s + Z.of_nat n.
Proof.
  intros Hs. induction n as [|n (IH1 & IH2 & IH3 & IH4)].
  { cbn. split; [exact Hs|split; [reflexivity|split; [reflexivity|lia]]]. }
  cbn [steps]. destruct (step_starving Date_now hd t _ IH1) as (H1 & H2 & H3 & H4).
  split; [exact H1|]. rewrite H2, H3, H4, IH2, IH3, IH4.
  repeat split; lia.
Qed.

(** X14: an instruction at the head of the ROB whose station waits for a
    tag that is no longer in the ROB waits forever.  The operand check of
    the execute stage looks the producer up in the ROB, and the producer
    has committed and left it; so the head never gets its result, nothing
    commits any more, the register file stays as it is, and the run never
    finishes although the clock goes on.  A load followed by an
    instruction that uses its result gets into this state: the load
    completes after the ALU stations were checked in its cycle, and
    commits at the start of the next one. *)
Theorem starved_head_waits_forever Date_now t s n :
  starved t s = true ->
  starved t (steps Date_now n s) = true /\
  head (rob (steps Date_now n s)) = head (rob s) /\
  instructionsCommitted (steps Date_now n s) = instructionsCommitted s /\
  regFile (steps Date_now n s) = regFile s /\
  finished (steps Date_now n s) = false /\
  clock (steps Date_now n s) = clock s + Z.of_nat n.
Proof.
  intros H. apply starved_starving in H as (hd & Hs).
  destruct (steps_starving Date_now hd t n s Hs) as (H1 & H2 & H3 & H4).
  split; [apply starved_starving; eauto|].
  split.
  { destruct (sv_rob _ _ _ H1) as (rest' & ->).
    destruct (sv_rob _ _ _ Hs) as (rest & ->). reflexivity. }
  split; [exact H2|split; [exact H3|split; [|exact H4]]].
  apply (starving_unfinished hd t), H1.
Qed.

Lemma starved_head_waits_forever_witness :
  starved 1 (steps tickingClock 4 (reset (parsedAs loadUseProgram) "")) = true /\
  instructionsCommitted
    (steps tickingClock 100 (steps tickingClock 4 (reset (parsedAs loadUseProgram) "")))
  = 1.
Proof.
  assert (H : starved 1 (steps tickingClock 4 (reset (parsedAs loadUseProgram) ""))
              = true) by (vm_compute; reflexivity).
  split; [exact H|].
  exact (eq_trans
           (proj1 (proj2 (proj2
              (starved_head_waits_forever tickingClock 1
                 (steps tickingClock 4 (reset (parsedAs loadUseProgram) "")) 100 H))))
           (eq_refl : instructionsCommitted
                        (steps tickingClock 4 (reset (parsedAs loadUseProgram) "")) = 1)).
Defined.

(** ** The log *)

Lemma issueLines_app l1 l2 :
  issueLines (l1 ++ l2) = (issueLines l1 + issueLines l2)%nat.
Proof. unfold issueLines. rewrite filter_app, length_app. reflexivity. Qed.

Lemma logGrowth_refl s : logGrowth 0 s s.
Proof.
  split; [reflexivity|]. exists []. rewrite app_nil_r. repeat split. constructor.
Qed.

Lemma logGrowth_trans k1 k2 s1 s2 s3 :
  logGrowth k1 s1 s2 -> logGrowth k2 s2 s3 -> logGrowth (k1 + k2) s1 s3.
Proof.
  intros [Hc1 (m1 & Hl1 & Hf1 & Hk1)] [Hc2 (m2 & Hl2 & Hf2 & Hk2)].
  split; [congruence|]. exists (m1 ++ m2).
  split; [rewrite Hl2, Hl1, app_assoc; reflexivity|].
  split.
  - apply Forall_app. split; [exact Hf1|]. rewrite Hc1 in Hf2. exact Hf2.
  - rewrite issueLines_app. congruence.
Qed.

Lemma logGrowth_same s s' :
  clock s' = clock s -> logs s' = logs s -> logGrowth 0 s s'.
Proof.
  intros Hc Hl. split; [exact Hc|]. exists []. rewrite app_nil_r.
  repeat split; [exact Hl|constructor].
Qed.

Lemma logGrowth_line k m s s' :
  clock s' = clock s -> logs s' = logs s ++ [(clock s, m)] ->
  k = (if isIssueLine (clock s, m) then 1 else 0)%nat ->
  logGrowth k s s'.
Proof.
  intros Hc Hl ->. split; [exact Hc|]. exists [(clock s, m)].
  split; [exact Hl|]. split; [repeat constructor|].
  unfold issueLines. rewrite filter_cons.
  destruct (isIssueLine (clock s, m)) eqn:Hi.
  - rewrite decide_True by reflexivity. reflexivity.
  - rewrite decide_False by discriminate. reflexivity.
Qed.

Lemma stageCommit_logs Date_now s : logGrowth 0 s (stageCommit Date_now s).
Proof.
  unfold_commit.
  repeat case_match; simplify_eq;
    first [ apply logGrowth_refl
          | apply logGrowth_same; reflexivity
          | eapply logGrowth_line; reflexivity ].
Qed.

Lemma computeResult_logs Date_now f inst s :
  logGrowth 0 s (computeResult Date_now f inst s).1.
Proof.
  unfold computeResult, l1dAccess.
  repeat case_match; simplify_eq;
    first [ apply logGrowth_refl | apply logGrowth_same; reflexivity ].
Qed.

Lemma executeStation_logs Date_now s rs :
  logGrowth 0 s (executeStation Date_now s rs).1.
Proof.
  unfold executeStation.
  repeat case_match; simplify_eq; cbn -[broadcast];
    try apply logGrowth_refl.
  all: match goal with H : computeResult _ ?f ?i ?s = _ |- _ =>
    pose proof (computeResult_logs Date_now f i s) as Hf; rewrite H in Hf
  end.
  all: cbn [fst] in Hf.
  all: change 0%nat with (0 + 0)%nat.
  all: eapply logGrowth_trans; [exact Hf|].
  all: eapply logGrowth_line; reflexivity.
Qed.

Lemma executeStations_logs Date_now sts s :
  logGrowth 0 s (executeStations Date_now s sts).1.
Proof.
  revert s. induction sts as [|rs sts IH]; intros s; [apply logGrowth_refl|].
  simpl.
  pose proof (executeStation_logs Date_now s rs) as H1.
  destruct (executeStation Date_now s rs) as [s1 rs'].
  specialize (IH s1).
  destruct (executeStations Date_now s1 sts) as [s2 rest']. cbn [fst] in *.
  change 0%nat with (0 + 0)%nat. eapply logGrowth_trans; eassumption.
Qed.

Lemma stageExecute_logs Date_now s : logGrowth 0 s (stageExecute Date_now s).
Proof.
  unfold stageExecute.
  pose proof (executeStations_logs Date_now (rsALU s) s) as H1.
  destruct (executeStations Date_now s (rsALU s)) as [s1 alu].
  pose proof (executeStations_logs Date_now (rsLS s) s1) as H2.
  destruct (executeStations Date_now s1 (rsLS s)) as [s2 ls]. cbn [fst] in *.
  change 0%nat with (0 + (0 + 0))%nat.
  eapply logGrowth_trans; [exact H1|].
  eapply logGrowth_trans; [exact H2|].
  apply logGrowth_same; reflexivity.
Qed.

Lemma issueFetch_logs Date_now s : logGrowth 0 s (issueFetch Date_now s).
Proof.
  unfold issueFetch, l1iAccess, log.
  repeat case_match; simplify_eq;
    first [ apply logGrowth_same; reflexivity
          | eapply logGrowth_line; reflexivity ].
Qed.

Lemma issueAllocate_logs inst qj vj qk vk s :
  logGrowth 0 s (issueAllocate inst qj vj qk vk s).
Proof.
  unfold issueAllocate. repeat case_match; apply logGrowth_same; reflexivity.
Qed.

Lemma issueAdvance_logs inst s : logGrowth 1 s (issueAdvance inst s).
Proof.
  unfold issueAdvance.
  match goal with |- logGrowth 1 s (log ?m ?s1) =>
    assert (H1 : logGrowth 0 s s1); [|set (s' := s1) in *]
  end.
  { unfold log. repeat case_match;
      first [ apply logGrowth_same; reflexivity
            | eapply logGrowth_line; reflexivity ]. }
  change 1%nat with (0 + 1)%nat.
  eapply logGrowth_trans; [exact H1|].
  unfold log. eapply logGrowth_line; reflexivity.
Qed.

Lemma issue_logs Date_now template s : logGrowth 1 s (issue Date_now template s).
Proof.
  unfold issue.
  pose proof (issueFetch_logs Date_now s) as H1.
  set (s1 := issueFetch Date_now s) in *.
  set (s2 := setNextRobTag (nextRobTag s1 + 1) s1).
  assert (H2 : logGrowth 0 s s2) by (destruct H1; split; assumption).
  destruct (renameSource (Template.rs1 template) s2) as [qj vj].
  destruct (renameSource (Template.rs2 template) s2) as [qk vk].
  change 1%nat with (0 + (0 + 1))%nat.
  eapply logGrowth_trans; [exact H2|].
  eapply logGrowth_trans; [apply issueAllocate_logs|apply issueAdvance_logs].
Qed.

Lemma issueLoop_logs Date_now n s :
  logGrowth (issueLoop Date_now n s).2 s (issueLoop Date_now n s).1.
Proof.
  revert s. induction n as [|n IH]; intros s; [apply logGrowth_refl|].
  cbn [issueLoop].
  destruct (stageFetchAndIssue Date_now s) as [s' ok] eqn:Hissue.
  destruct ok.
  - apply stageFetchAndIssue_true in Hissue as (template & _ & ->).
    specialize (IH (issue Date_now template s)).
    destruct (issueLoop Date_now n (issue Date_now template s)) as [s'' k].
    cbn [fst snd] in *. change (S k) with (1 + k)%nat.
    eapply logGrowth_trans; [apply issue_logs|exact IH].
  - apply stageFetchAndIssue_false in Hissue as ->. apply logGrowth_refl.
Qed.

(** What one call of [step] appends to the log. *)
Lemma step_logs Date_now s :
  exists more,
    logs (step Date_now s) = logs s ++ more /\
    Forall (fun l => l.1 = clock (step Date_now s)) more /\
    Z.of_nat (issueLines more) = nextRobTag (step Date_now s) - nextRobTag s /\
    (finished s = true -> more = [(clock s, MsgFinished)]) /\
    clock s <= clock (step Date_now s) <= clock s + 1.
Proof.
  unfold step. destruct (finished s) eqn:Hfin.
  { exists [(clock s, MsgFinished)].
    split; [reflexivity|]. split; [repeat constructor|].
    split; [|split; [reflexivity|cbn; lia]].
    unfold issueLines. rewrite filter_cons, decide_False by discriminate.
    cbn. lia. }
  set (s0 := setClock (clock s + 1) s).
  pose proof (stageCommit_logs Date_now s0) as H1.
  pose proof (stageCommit_nextRobTag Date_now s0) as N1.
  pose proof (stageExecute_logs Date_now (stageCommit Date_now s0)) as H2.
  pose proof (ef_nextRobTag _ _ (stageExecute_frame Date_now (stageCommit Date_now s0)))
    as N2.
  set (s1 := stageExecute Date_now (stageCommit Date_now s0)) in *.
  pose proof (issueLoop_logs Date_now (width s1) s1) as H3.
  destruct (issueLoop_count Date_now (width s1) s1) as (_ & N3).
  destruct (issueLoop Date_now (width s1) s1) as [s2 k]. cbn [fst snd] in *.
  pose proof (logGrowth_trans _ _ _ _ _ (logGrowth_trans _ _ _ _ _ H1 H2) H3)
    as [Hc (more & Hl & Hf & Hk)].
  exists more. cbn in *.
  split; [exact Hl|]. split; [rewrite Hc; exact Hf|].
  split; [rewrite Hk, N3, N2, N1; lia|].
  split; [discriminate|lia].
Qed.

Lemma nondecreasing_app l more c c' :
  nondecreasing l -> Forall (fun x => x <= c) l ->
  Forall (fun y => y = c') more -> c <= c' ->
  nondecreasing (l ++ more).
Proof.
  intros Hl Hle Hmore Hc. induction l as [|x l IH].
  - cbn. induction Hmore as [|y more Hy Hmore IH]; [exact I|].
    cbn. split; [|exact IH].
    apply (Forall_impl _ _ _ Hmore). intros z ->. lia.
  - cbn in Hl |- *. destruct Hl as [Hx Hl].
    apply Forall_cons in Hle as [Hxc Hle].
    split; [|apply IH; assumption].
    apply Forall_app. split; [exact Hx|].
    apply (Forall_impl _ _ _ Hmore). intros z ->. lia.
Qed.

Lemma step_logInv Date_now s : logInv s -> logInv (step Date_now s).
Proof.
  intros [Hclk Hr Ho Hi].
  destruct (step_logs Date_now s) as (more & Hl & Hf & Hk & _ & Hc).
  split; rewrite ?Hl.
  - lia.
  - apply Forall_app. split.
    + apply (Forall_impl _ _ _ Hr). intros l Hl'. lia.
    + apply (Forall_impl _ _ _ Hf). intros l ->. lia.
  - rewrite map_app.
    apply (nondecreasing_app _ _ (clock s) (clock (step Date_now s))).
    + exact Ho.
    + apply Forall_fmap. apply (Forall_impl _ _ _ Hr). intros l Hl'. cbn. lia.
    + apply Forall_fmap. apply (Forall_impl _ _ _ Hf). intros l Hl'. exact Hl'.
    + lia.
  - rewrite issueLines_app, Nat2Z.inj_add, Hi, Hk. lia.
Qed.

Lemma reset_logInv parse text : logInv (reset parse text).
Proof.
  unfold reset, loadProgram, newSimulator, initRS, log.
  destruct (parse text) as [prog completed].
  destruct completed; split; cbn.
  - lia.
  - repeat constructor; cbn; lia.
  - repeat constructor.
  - reflexivity.
  - lia.
  - constructor.
  - exact I.
  - reflexivity.
Qed.

(** X15: the log only grows.  A call of [step] appends lines that all
    carry the clock of the cycle it ran (when the run is finished, the one
    line saying so, with the clock unchanged) and among them one [ISSUE]
    line for each tag it allocated.  So in every run from reset the lines
    of the log carry cycles between 0 and the clock, in order, and the
    number of [ISSUE] lines is the number of tags allocated. *)
Theorem log_grows_by_cycle Date_now parse text n :
  wfProgram (parse text).1 ->
  (forall s, exists more,
     logs (step Date_now s) = logs s ++ more /\
     Forall (fun l => l.1 = clock (step Date_now s)) more /\
     Z.of_nat (issueLines more) = nextRobTag (step Date_now s) - nextRobTag s /\
     (finished s = true -> more = [(clock s, MsgFinished)]) /\
     clock s <= clock (step Date_now s) <= clock s + 1) /\
  Forall (fun l => 0 <= l.1 <= clock (steps Date_now n (reset parse text)))
    (logs (steps Date_now n (reset parse text))) /\
  nondecreasing (map fst (logs (steps Date_now n (reset parse text)))) /\
  Z.of_nat (issueLines (logs (steps Date_now n (reset parse text))))
  = nextRobTag (steps Date_now n (reset parse text)) - 1.
Proof.
  intros _. split; [apply step_logs|].
  assert (H : logInv (steps Date_now n (reset parse text))).
  { induction n as [|n IH]; [apply reset_logInv|].
    cbn [steps]. apply step_logInv, IH. }
  destruct H as [_ H1 H2 H3]. auto.
Qed.

Lemma log_grows_by_cycle_witness :
  wfProgram (parsedAs x0Program "").1 /\
  Z.of_nat (issueLines (logs (steps tickingClock 6 (reset (parsedAs x0Program) ""))))
  = nextRobTag (steps tickingClock 6 (reset (parsedAs x0Program) "")) - 1.
Proof.
  split; [exact wfProgram_x0Program|].
  exact (proj2 (proj2 (proj2 (log_grows_by_cycle tickingClock (parsedAs x0Program)
                                "" 6 wfProgram_x0Program)))).
Defined.

(** ** The reservation stations and the ROB *)

Lemma captureOperands_static rb f :
  Station.op (captureOperands rb f) = Station.op f /\
  Station.robTag (captureOperands rb f) = Station.robTag f.
Proof. unfold captureOperands. repeat case_match; cbn; auto. Qed.

Lemma memRead_empty i : memRead ∅ i = 0.
Proof.
  unfold memRead. destruct (_ && _); [|reflexivity].
  rewrite lookup_empty. reflexivity.
Qed.

Lemma computeResult_load Date_now f inst s :
  Instruction.op inst = "LW" -> memory s = ∅ ->
  (computeResult Date_now f inst s).2 = 0.
Proof.
  intros Hop Hmem. unfold computeResult, l1dAccess. rewrite Hop. cbn [String.eqb].
  change (("LW" =? "ADD")%string) with false.
  change (("LW" =? "SUB")%string) with false.
  change (("LW" =? "ADDI")%string) with false.
  change (("LW" =? "LW")%string) with true. cbv iota.
  destruct (Cache.access _ _ _ _) as [c r]. cbn -[markLoad].
  rewrite Hmem. apply memRead_empty.
Qed.

(** What the callback of the execute stage does with a busy station. *)
Lemma executeStation_spec Date_now s rs f :
  Station.busy rs = true -> Station.slot rs = Some f ->
  exists f',
    Station.slot (executeStation Date_now s rs).2 = Some f' /\
    (Instruction.robTag (Station.inst f') = Instruction.robTag (Station.inst f) /\
     Instruction.op (Station.inst f') = Instruction.op (Station.inst f) /\
     Instruction.rd (Station.inst f') = Instruction.rd (Station.inst f) /\
     Instruction.pc (Station.inst f') = Instruction.pc (Station.inst f) /\
     Instruction.totalCycles (Station.inst f')
     = Instruction.totalCycles (Station.inst f) /\
     Station.op f' = Station.op f /\
     Station.robTag f' = Station.robTag f) /\
    ((Station.busy (executeStation Date_now s rs).2 = true /\
      rob (executeStation Date_now s rs).1 = rob s /\
      Instruction.isReady (Station.inst f') = Instruction.isReady (Station.inst f) /\
      (Instruction.executionCyclesLeft (Station.inst f')
       = Instruction.executionCyclesLeft (Station.inst f) \/
       (Instruction.executionCyclesLeft (Station.inst f')
        = Instruction.executionCyclesLeft (Station.inst f) - 1 /\
        Instruction.executionCyclesLeft (Station.inst f') <> 0 /\
        0 < Instruction.executionCyclesLeft (Station.inst f))))
     \/
     (Station.busy (executeStation Date_now s rs).2 = false /\
      exists val,
        rob (executeStation Date_now s rs).1
        = broadcast (Station.inst f') val (rob s) /\
        (Instruction.op (Station.inst f) = "LW" -> memory s = ∅ -> val = 0))).
Proof.
  intros Hbusy Hslot. unfold executeStation. rewrite Hbusy, Hslot. cbv zeta.
  cbn [negb].
  pose proof (captureOperands_inst (rob s) f) as Hinst.
  destruct (captureOperands_static (rob s) f) as [Hop Htag].
  set (f1 := captureOperands (rob s) f) in *.
  match goal with |- context [if ?c then _ else (s, _)] => destruct c eqn:Hcond end.
  2:{ exists f1. cbn. split; [reflexivity|].
      split; [rewrite Hinst; repeat split; assumption|].
      left. split; [reflexivity|]. split; [reflexivity|].
      rewrite Hinst. split; [reflexivity|left; reflexivity]. }
  apply andb_prop in Hcond as [Hcond Hleft]. apply Z.ltb_lt in Hleft.
  rewrite Hinst in Hleft.
  match goal with |- context [Instruction.setExecutionCyclesLeft _ ?i] =>
    set (inst1 := i) end.
  assert (Hinst1 :
    Instruction.robTag inst1 = Instruction.robTag (Station.inst f) /\
    Instruction.op inst1 = Instruction.op (Station.inst f) /\
    Instruction.rd inst1 = Instruction.rd (Station.inst f) /\
    Instruction.pc inst1 = Instruction.pc (Station.inst f) /\
    Instruction.totalCycles inst1 = Instruction.totalCycles (Station.inst f) /\
    Instruction.isReady inst1 = Instruction.isReady (Station.inst f) /\
    Instruction.executionCyclesLeft inst1
    = Instruction.executionCyclesLeft (Station.inst f)).
  { subst inst1.
    match goal with |- context [if ?c then Instruction.setMemAddr _ _ else _] =>
      destruct c end; cbn; rewrite Hinst; repeat split. }
  destruct Hinst1 as (I1 & I2 & I3 & I4 & I5 & I6 & I7).
  match goal with |- context [Instruction.setExecutionCyclesLeft ?v inst1] =>
    set (inst2 := Instruction.setExecutionCyclesLeft v inst1) end.
  destruct (Z.eqb_spec (Instruction.executionCyclesLeft inst2) 0) as [Hzero|Hnz].
  - pose proof (computeResult_rob Date_now f1 inst2 s) as Hcr.
    pose proof (computeResult_load Date_now f1 inst2 s) as Hld.
    destruct (computeResult Date_now f1 inst2 s) as [s' val]. cbn [fst snd] in *.
    eexists. cbn -[broadcast]. split; [reflexivity|].
    cbn -[broadcast]. split; [repeat split; assumption|].
    right. split; [reflexivity|]. exists val. rewrite Hcr.
    split; [reflexivity|]. intros Hlw Hmem. apply Hld; [|exact Hmem].
    change (Instruction.op inst2) with (Instruction.op inst1). congruence.
  - eexists. cbn. split; [reflexivity|].
    cbn. split; [repeat split; assumption|].
    left. split; [reflexivity|]. split; [reflexivity|]. split; [exact I6|].
    right. cbn in Hnz. rewrite I7 in *. repeat split; assumption.
Qed.

Lemma findRob_broadcast_other t inst val rb :
  t <> Instruction.robTag inst ->
  findRob t (broadcast inst val rb) = findRob t rb.
Proof.
  intros Hne. unfold findRob, broadcast. induction rb as [|r rb IH]; [reflexivity|].
  cbn [updFirst].
  destruct (Z.eqb_spec (RobEntry.robTag r) (Instruction.robTag inst)) as [Heq|Hneq].
  - cbn [find].
    assert (Htag : forall r', RobEntry.robTag
              (if isBranch (Instruction.op inst)
               then RobEntry.setTargetAddr r'
                      (RobEntry.setIsReady true (RobEntry.setResult val r))
               else RobEntry.setIsReady true (RobEntry.setResult val r))
              = RobEntry.robTag r).
    { intros r'. destruct (isBranch _); reflexivity. }
    cbv zeta. rewrite Htag.
    destruct (Z.eqb_spec (RobEntry.robTag r) t); [congruence|reflexivity].
  - cbn [find]. destruct (RobEntry.robTag r =? t); [reflexivity|exact IH].
Qed.

Lemma heldIn_broadcast_other inst val rb f :
  Instruction.robTag (Station.inst f) <> Instruction.robTag inst ->
  heldIn rb f -> heldIn (broadcast inst val rb) f.
Proof.
  intros Hne [He Hr Hc Ho Ht]. split; try assumption.
  rewrite findRob_broadcast_other by exact Hne. exact He.
Qed.

Lemma loadsZero_broadcast inst val rb r :
  findRob (Instruction.robTag inst) rb = Some r ->
  (RobEntry.op r = "LW" -> val = 0) ->
  loadsZero rb -> loadsZero (broadcast inst val rb).
Proof.
  unfold loadsZero, broadcast, findRob. intros Hfind Hval Hall.
  induction Hall as [|x rb Hx Hall IH]; [constructor|].
  cbn [updFirst find] in *.
  destruct (RobEntry.robTag x =? Instruction.robTag inst).
  - injection Hfind as ->. constructor; [|exact Hall].
    cbv zeta. destruct (isBranch _); cbn; exact Hval.
  - constructor; [exact Hx|]. apply IH. exact Hfind.
Qed.

Lemma stationTag_busy rs f :
  Station.busy rs = true -> Station.slot rs = Some f ->
  stationTag rs = Some (Instruction.robTag (Station.inst f)).
Proof. intros Hb Hs. unfold stationTag. rewrite Hb, Hs. reflexivity. Qed.

Lemma stationTag_free rs : Station.busy rs = false -> stationTag rs = None.
Proof. intros Hb. unfold stationTag. rewrite Hb. reflexivity. Qed.

Lemma executeStation_inv Date_now s rs others :
  held (rob s) rs ->
  Forall (held (rob s)) others ->
  (forall t, stationTag rs = Some t -> t ∉ busyTags others) ->
  loadsZero (rob s) -> memory s = ∅ ->
  held (rob (executeStation Date_now s rs).1) (executeStation Date_now s rs).2 /\
  Forall (held (rob (executeStation Date_now s rs).1)) others /\
  (stationTag (executeStation Date_now s rs).2 = stationTag rs \/
   stationTag (executeStation Date_now s rs).2 = None) /\
  loadsZero (rob (executeStation Date_now s rs).1) /\
  memory (executeStation Date_now s rs).1 = ∅.
Proof.
  intros Hrs Hothers Hfresh Hloads Hmem.
  assert (Hmem' : memory (executeStation Date_now s rs).1 = ∅).
  { rewrite (ef_memory _ _ (executeStation_frame Date_now s rs)). exact Hmem. }
  destruct (Station.busy rs) eqn:Hbusy.
  2:{ unfold executeStation. rewrite Hbusy. cbn. repeat split; auto. }
  destruct (Hrs Hbusy) as (f & Hslot & Hheld).
  destruct (executeStation_spec Date_now s rs f Hbusy Hslot)
    as (f' & Hslot' & (S1 & S2 & S3 & S4 & S5 & S6 & S7) & Hcase).
  destruct Hheld as [(r & Hfind & Hr1 & Hr2 & Hr3 & Hr4) Hready Hcycles Hop Htag].
  destruct Hcase as [(Hb' & Hrob & Hrdy & Hleft)|(Hb' & val & Hrob & Hval)].
  - rewrite Hrob. split; [|split; [exact Hothers|split; [|split; assumption]]].
    + intros _. exists f'. split; [exact Hslot'|]. split.
      * exists r. rewrite S1, S2, S3, S4. auto.
      * congruence.
      * rewrite S5. destruct Hleft as [->|(-> & Hnz & Hpos)]; lia.
      * congruence.
      * congruence.
    + left. rewrite (stationTag_busy _ _ Hb' Hslot'), (stationTag_busy _ _ Hbusy Hslot).
      congruence.
  - rewrite Hrob. split; [|split; [|split; [|split; [|exact Hmem']]]].
    + intros Hb. congruence.
    + apply Forall_forall. intros o Ho Hob.
      rewrite Forall_forall in Hothers.
      destruct (Hothers o Ho Hob) as (fo & Hso & Hho).
      exists fo. split; [exact Hso|].
      apply heldIn_broadcast_other; [|exact Hho].
      rewrite S1. intros Heq.
      apply (Hfresh (Instruction.robTag (Station.inst f))).
      * apply stationTag_busy; assumption.
      * apply list_elem_of_omap. exists o. split; [exact Ho|].
        rewrite (stationTag_busy _ _ Hob Hso). congruence.
    + right. apply stationTag_free. exact Hb'.
    + apply (loadsZero_broadcast _ _ _ r); [rewrite S1; exact Hfind| |exact Hloads].
      intros Hlw. apply Hval; [congruence|exact Hmem].
Qed.

Lemma busyTags_cons rs l :
  busyTags (rs :: l)
  = match stationTag rs with Some t => t :: busyTags l | None => busyTags l end.
Proof. reflexivity. Qed.

Lemma busyTags_app l1 l2 : busyTags (l1 ++ l2) = busyTags l1 ++ busyTags l2.
Proof. apply omap_app. Qed.

Lemma busyTags_free l :
  Forall (fun rs => Station.busy rs = false) l -> busyTags l = [].
Proof.
  induction 1 as [|rs l Hrs _ IH]; [reflexivity|].
  rewrite busyTags_cons, (stationTag_free _ Hrs). exact IH.
Qed.

Lemma executeStations_inv Date_now sts s ctx :
  NoDup (busyTags (ctx ++ sts)) ->
  Forall (held (rob s)) ctx -> Forall (held (rob s)) sts ->
  loadsZero (rob s) -> memory s = ∅ ->
  Forall (held (rob (executeStations Date_now s sts).1)) ctx /\
  Forall (held (rob (executeStations Date_now s sts).1))
    (executeStations Date_now s sts).2 /\
  busyTags (executeStations Date_now s sts).2 `sublist_of` busyTags sts /\
  loadsZero (rob (executeStations Date_now s sts).1) /\
  memory (executeStations Date_now s sts).1 = ∅.
Proof.
  revert s ctx. induction sts as [|rs sts IH]; intros s ctx Hnd Hctx Hsts Hl Hm.
  { cbn. repeat split; auto. }
  apply Forall_cons in Hsts as [Hrs Hsts]. simpl.
  rewrite busyTags_app, busyTags_cons in Hnd.
  assert (Hfresh : forall t, stationTag rs = Some t -> t ∉ busyTags (ctx ++ sts)).
  { intros t Ht. rewrite Ht in Hnd. rewrite busyTags_app.
    apply NoDup_app in Hnd as (_ & Hdisj & Hnd).
    apply NoDup_cons in Hnd as [Hnot _].
    intros Hin. apply elem_of_app in Hin as [Hin|Hin]; [|contradiction].
    apply (Hdisj t Hin). left. }
  assert (Hothers : Forall (held (rob s)) (ctx ++ sts)).
  { apply Forall_app. split; assumption. }
  destruct (executeStation_inv Date_now s rs (ctx ++ sts) Hrs Hothers Hfresh Hl Hm)
    as (H1 & H2 & H3 & H4 & H5).
  destruct (executeStation Date_now s rs) as [s1 rs']. cbn [fst snd] in *.
  apply Forall_app in H2 as [H2c H2s].
  assert (Hsub : busyTags [rs'] `sublist_of` busyTags [rs]).
  { rewrite !busyTags_cons. cbn. destruct H3 as [->| ->]; [reflexivity|].
    destruct (stationTag rs); [apply sublist_cons|]; constructor. }
  assert (Hnd' : NoDup (busyTags ((ctx ++ [rs']) ++ sts))).
  { apply (sublist_NoDup _ (busyTags ctx ++ busyTags [rs] ++ busyTags sts)).
    - rewrite busyTags_cons. cbn. destruct (stationTag rs); exact Hnd.
    - rewrite !busyTags_app, <- app_assoc.
      apply sublist_app; [reflexivity|]. apply sublist_app; [exact Hsub|reflexivity]. }
  assert (Hctx' : Forall (held (rob s1)) (ctx ++ [rs'])).
  { apply Forall_app. split; [exact H2c|]. repeat constructor. exact H1. }
  destruct (IH s1 (ctx ++ [rs']) Hnd' Hctx' H2s H4 H5) as (G1 & G2 & G3 & G4 & G5).
  destruct (executeStations Date_now s1 sts) as [s2 rest']. cbn [fst snd] in *.
  apply Forall_app in G1 as [G1c G1r]. apply Forall_cons in G1r as [G1r _].
  split; [exact G1c|]. split; [constructor; assumption|].
  split; [|split; assumption].
  assert (Hgoal : busyTags ([rs'] ++ rest') `sublist_of` busyTags ([rs] ++ sts)).
  { rewrite !busyTags_app. apply sublist_app; assumption. }
  exact Hgoal.
Qed.

Lemma stationInv_execute Date_now s :
  stationInv s -> stationInv (stageExecute Date_now s).
Proof.
  intros [Halu Hls Hnd Hl Hm]. unfold stageExecute.
  assert (Hnd1 : NoDup (busyTags (rsLS s ++ rsALU s))).
  { rewrite busyTags_app in *. apply NoDup_app in Hnd as (N1 & N2 & N3).
    apply NoDup_app. split; [exact N3|]. split; [|exact N1].
    intros x Hx Hx'. apply (N2 x Hx' Hx). }
  destruct (executeStations_inv Date_now (rsALU s) s (rsLS s) Hnd1 Hls Halu Hl Hm)
    as (H1 & H2 & H3 & H4 & H5).
  destruct (executeStations Date_now s (rsALU s)) as [s1 alu]. cbn [fst snd] in *.
  assert (Hnd2 : NoDup (busyTags (alu ++ rsLS s))).
  { apply (sublist_NoDup _ (busyTags (rsALU s ++ rsLS s))); [exact Hnd|].
    rewrite !busyTags_app. apply sublist_app; [exact H3|reflexivity]. }
  destruct (executeStations_inv Date_now (rsLS s) s1 alu Hnd2 H2 H1 H4 H5)
    as (G1 & G2 & G3 & G4 & G5).
  destruct (executeStations Date_now s1 (rsLS s)) as [s2 ls]. cbn [fst snd] in *.
  split; cbn; try assumption.
  apply (sublist_NoDup _ (busyTags (alu ++ rsLS s))); [exact Hnd2|].
  rewrite !busyTags_app. apply sublist_app; [reflexivity|exact G3].
Qed.

Lemma held_free rb : held rb Station.free.
Proof. intros H. discriminate. Qed.

Lemma held_retire head rest rs :
  RobEntry.isReady head = true -> held (head :: rest) rs -> held rest rs.
Proof.
  intros Hready Hheld Hbusy. destruct (Hheld Hbusy) as (f & Hslot & Hf).
  exists f. split; [exact Hslot|].
  destruct Hf as [(r & Hfind & Hr & Hrest) H2 H3 H4 H5]. split; try assumption.
  exists r. split; [|auto].
  unfold findRob in *. cbn [find] in Hfind.
  destruct (RobEntry.robTag head =? _); [|exact Hfind].
  injection Hfind as <-. congruence.
Qed.

Lemma stationInv_commit Date_now s :
  stationInv s -> stationInv (stageCommit Date_now s).
Proof.
  intros [Halu Hls Hnd Hl Hm].
  pose proof (cf_memory _ _ (stageCommit_constants Date_now s)) as Hmem.
  destruct (stageCommit_outcome Date_now s)
    as [_ ->
       |head rest Hrob _ Hrob' Ha Hs _ _ _ _ _
       |head rest Hrob _ _ _ _ Hrob' Ha Hs _ _
       |head rest Hrob Hready _ Hrob' Ha Hs _ _].
  - split; assumption.
  - split; rewrite ?Hrob', ?Ha, ?Hs, ?Hmem; try assumption.
    + apply Forall_replicate, held_free.
    + apply Forall_replicate, held_free.
    + rewrite busyTags_free; [constructor|].
      apply Forall_app. split; apply Forall_replicate; reflexivity.
    + constructor.
  - split; rewrite ?Hrob', ?Ha, ?Hs, ?Hmem; assumption.
  - split; rewrite ?Hrob', ?Ha, ?Hs, ?Hmem; try assumption.
    + rewrite Hrob in Halu. apply (Forall_impl _ _ _ Halu).
      intros rs. apply held_retire, Hready.
    + rewrite Hrob in Hls. apply (Forall_impl _ _ _ Hls).
      intros rs. apply held_retire, Hready.
    + unfold loadsZero in *. rewrite Hrob in Hl.
      apply Forall_cons in Hl as [_ Hl]. exact Hl.
Qed.

(** The station and the ROB entry that step 5 of issue fills in. *)
Lemma issueAllocate_window inst qj vj qk vk s :
  rob (issueAllocate inst qj vj qk vk s)
  = rob s ++ [ {| RobEntry.robTag := Instruction.robTag inst;
                  RobEntry.op := Instruction.op inst;
                  RobEntry.rd := Instruction.rd inst;
                  RobEntry.pc := Instruction.pc inst;
                  RobEntry.instText := Instruction.text inst;
                  RobEntry.isReady := false;
                  RobEntry.result := 0;
                  RobEntry.predictedTaken := Instruction.predictedTaken inst;
                  RobEntry.targetAddr := 0 |} ] /\
  ((rsALU (issueAllocate inst qj vj qk vk s)
    = updFirst (fun r => negb (Station.busy r))
        (fun _ => {| Station.busy := true;
                     Station.slot :=
                       Some {| Station.inst := inst;
                               Station.op := Instruction.op inst;
                               Station.vj := vj; Station.vk := vk;
                               Station.qj := qj; Station.qk := qk;
                               Station.robTag := Instruction.robTag inst |} |})
        (rsALU s) /\
    rsLS (issueAllocate inst qj vj qk vk s) = rsLS s) \/
   (rsLS (issueAllocate inst qj vj qk vk s)
    = updFirst (fun r => negb (Station.busy r))
        (fun _ => {| Station.busy := true;
                     Station.slot :=
                       Some {| Station.inst := inst;
                               Station.op := Instruction.op inst;
                               Station.vj := vj; Station.vk := vk;
                               Station.qj := qj; Station.qk := qk;
                               Station.robTag := Instruction.robTag inst |} |})
        (rsLS s) /\
    rsALU (issueAllocate inst qj vj qk vk s) = rsALU s)).
Proof.
  unfold issueAllocate.
  destruct (String.eqb (Instruction.op inst) "LW" || String.eqb (Instruction.op inst) "SW");
    destruct (writesRegister (Instruction.rd inst) (Instruction.op inst));
    cbn; (split; [reflexivity|]); auto.
Qed.

Lemma latencyOf_pos op : 0 < latencyOf op.
Proof. unfold latencyOf. repeat case_match; lia. Qed.

Lemma issue_window Date_now template s :
  exists inst qj vj qk vk,
    (Instruction.robTag inst = nextRobTag s /\
     Instruction.isReady inst = false /\
     0 < Instruction.executionCyclesLeft inst <= Instruction.totalCycles inst) /\
    rob (issue Date_now template s)
    = rob s ++ [ {| RobEntry.robTag := Instruction.robTag inst;
                    RobEntry.op := Instruction.op inst;
                    RobEntry.rd := Instruction.rd inst;
                    RobEntry.pc := Instruction.pc inst;
                    RobEntry.instText := Instruction.text inst;
                    RobEntry.isReady := false;
                    RobEntry.result := 0;
                    RobEntry.predictedTaken := Instruction.predictedTaken inst;
                    RobEntry.targetAddr := 0 |} ] /\
    ((rsALU (issue Date_now template s)
      = updFirst (fun r => negb (Station.busy r))
          (fun _ => {| Station.busy := true;
                       Station.slot :=
                         Some {| Station.inst := inst;
                                 Station.op := Instruction.op inst;
                                 Station.vj := vj; Station.vk := vk;
                                 Station.qj := qj; Station.qk := qk;
                                 Station.robTag := Instruction.robTag inst |} |})
          (rsALU s) /\
      rsLS (issue Date_now template s) = rsLS s) \/
     (rsLS (issue Date_now template s)
      = updFirst (fun r => negb (Station.busy r))
          (fun _ => {| Station.busy := true;
                       Station.slot :=
                         Some {| Station.inst := inst;
                                 Station.op := Instruction.op inst;
                                 Station.vj := vj; Station.vk := vk;
                                 Station.qj := qj; Station.qk := qk;
                                 Station.robTag := Instruction.robTag inst |} |})
          (rsLS s) /\
      rsALU (issue Date_now template s) = rsALU s)).
Proof.
  unfold issue.
  pose proof (issueFetch_frame Date_now s) as Hf.
  set (s1 := issueFetch Date_now s) in *.
  set (s2 := setNextRobTag (nextRobTag s1 + 1) s1).
  destruct (renameSource (Template.rs1 template) s2) as [qj vj].
  destruct (renameSource (Template.rs2 template) s2) as [qk vk].
  match goal with |- context [issueAdvance ?i (issueAllocate ?i ?a ?b ?c ?d s2)] =>
    pose proof (issueAdvance_frame i (issueAllocate i a b c d s2)) as Ha;
    pose proof (issueAllocate_window i a b c d s2) as (Hrob & Hpool);
    set (inst := i) in *
  end.
  exists inst, qj, vj, qk, vk.
  rewrite (wf_rob _ _ Ha), (wf_rsALU _ _ Ha), (wf_rsLS _ _ Ha).
  change (rob s2) with (rob s1) in Hrob.
  change (rsALU s2) with (rsALU s1) in Hpool.
  change (rsLS s2) with (rsLS s1) in Hpool.
  rewrite (wf_rob _ _ Hf) in Hrob.
  rewrite (wf_rsALU _ _ Hf), (wf_rsLS _ _ Hf) in Hpool.
  split; [|split; [exact Hrob|exact Hpool]].
  split; [exact (wf_nextRobTag _ _ Hf)|]. split; [reflexivity|].
  cbn. pose proof (latencyOf_pos (Template.op template)). lia.
Qed.

Lemma findRob_app_found t rb l r :
  findRob t rb = Some r -> findRob t (rb ++ l) = Some r.
Proof.
  unfold findRob. induction rb as [|x rb IH]; [discriminate|].
  cbn. destruct (RobEntry.robTag x =? t); auto.
Qed.

Lemma findRob_app_gone t rb l :
  Forall (fun r => RobEntry.robTag r <> t) rb ->
  findRob t (rb ++ l) = findRob t l.
Proof.
  unfold findRob. induction 1 as [|x rb Hx _ IH]; [reflexivity|].
  cbn. destruct (Z.eqb_spec (RobEntry.robTag x) t); [contradiction|exact IH].
Qed.

Lemma held_app rb l rs : held rb rs -> held (rb ++ l) rs.
Proof.
  intros Hheld Hbusy. destruct (Hheld Hbusy) as (f & Hslot & Hf).
  exists f. split; [exact Hslot|].
  destruct Hf as [(r & Hfind & Hrest) H2 H3 H4 H5]. split; try assumption.
  exists r. split; [|exact Hrest]. apply findRob_app_found, Hfind.
Qed.

Lemma busyTags_below s rs t :
  tagInv s -> held (rob s) rs -> stationTag rs = Some t -> t < nextRobTag s.
Proof.
  intros Htag Hheld Ht. unfold stationTag in Ht.
  destruct (Station.busy rs) eqn:Hbusy; [|discriminate].
  destruct (Hheld Hbusy) as (f & Hslot & [(r & Hfind & _) _ _ _ _]).
  rewrite Hslot in Ht. injection Ht as <-.
  apply findRob_Some in Hfind as [Hin Hr].
  pose proof (ti_robRange _ Htag) as Hrange. rewrite Forall_forall in Hrange.
  rewrite <- Hr. apply Hrange. apply list_elem_of_fmap. eauto.
Qed.

Lemma busyTags_fill station t l :
  stationTag station = Some t ->
  exists l1 l2,
    busyTags l = l1 ++ l2 /\
    (busyTags (updFirst (fun r => negb (Station.busy r)) (fun _ => station) l)
     = l1 ++ t :: l2 \/
     busyTags (updFirst (fun r => negb (Station.busy r)) (fun _ => station) l)
     = l1 ++ l2).
Proof.
  intros Ht. induction l as [|x l (l1 & l2 & Heq & IH)].
  { exists [], []. split; [reflexivity|right; reflexivity]. }
  cbn [updFirst]. destruct (Station.busy x) eqn:Hbusy; cbn [negb].
  - rewrite !busyTags_cons.
    destruct (stationTag x) as [tx|].
    + exists (tx :: l1), l2. rewrite Heq. split; [reflexivity|].
      destruct IH as [-> | ->]; [left|right]; reflexivity.
    + exists l1, l2. split; [exact Heq|exact IH].
  - exists [], (busyTags l). rewrite !busyTags_cons, Ht, (stationTag_free _ Hbusy).
    split; [reflexivity|left; reflexivity].
Qed.

Lemma NoDup_fill (t : Z) l1 l2 rest :
  t ∉ l1 ++ l2 ++ rest -> NoDup (l1 ++ l2 ++ rest) -> NoDup (l1 ++ t :: l2 ++ rest).
Proof.
  intros Hnot Hnd.
  assert (Hp : l1 ++ t :: l2 ++ rest ≡ₚ t :: l1 ++ l2 ++ rest).
  { symmetry. apply Permutation_middle. }
  rewrite Hp. apply NoDup_cons. split; assumption.
Qed.

Lemma stationInv_issue Date_now template s :
  tagInv s -> stationInv s -> stationInv (issue Date_now template s).
Proof.
  intros Htags [Halu Hls Hnd Hl Hm].
  destruct (issue_window Date_now template s)
    as (inst & qj & vj & qk & vk & (Htag & Hrdy & Hcyc) & Hrob & Hpool).
  pose proof (cf_memory _ _ (issue_constants Date_now template s)) as Hmem.
  set (entry := {| RobEntry.robTag := Instruction.robTag inst;
                   RobEntry.op := Instruction.op inst;
                   RobEntry.rd := Instruction.rd inst;
                   RobEntry.pc := Instruction.pc inst;
                   RobEntry.instText := Instruction.text inst;
                   RobEntry.isReady := false;
                   RobEntry.result := 0;
                   RobEntry.predictedTaken := Instruction.predictedTaken inst;
                   RobEntry.targetAddr := 0 |}) in *.
  set (station := {| Station.busy := true;
                     Station.slot :=
                       Some {| Station.inst := inst;
                               Station.op := Instruction.op inst;
                               Station.vj := vj; Station.vk := vk;
                               Station.qj := qj; Station.qk := qk;
                               Station.robTag := Instruction.robTag inst |} |}) in *.
  assert (Hgone : Forall (fun r => RobEntry.robTag r <> Instruction.robTag inst) (rob s)).
  { pose proof (ti_robRange _ Htags) as Hrange.
    apply Forall_fmap in Hrange. apply (Forall_impl _ _ _ Hrange).
    intros r Hr. cbn in Hr. lia. }
  assert (Hnew : held (rob s ++ [entry]) station).
  { intros _. eexists. split; [reflexivity|]. split; cbn; try assumption; try reflexivity.
    exists entry. rewrite findRob_app_gone by exact Hgone.
    unfold findRob. cbn. rewrite Z.eqb_refl. repeat split. }
  assert (Hold : forall l, Forall (held (rob s)) l -> Forall (held (rob s ++ [entry])) l).
  { intros l H. apply (Forall_impl _ _ _ H). intros rs. apply held_app. }
  assert (Hfresh : Instruction.robTag inst ∉ busyTags (rsALU s ++ rsLS s)).
  { intros Hin. apply list_elem_of_omap in Hin as (rs & Hin & Hrs).
    assert (Hheld : held (rob s) rs).
    { apply elem_of_app in Hin as [Hin|Hin];
        [rewrite Forall_forall in Halu|rewrite Forall_forall in Hls]; auto. }
    pose proof (busyTags_below s rs _ Htags Hheld Hrs). lia. }
  assert (Hst : stationTag station = Some (Instruction.robTag inst)) by reflexivity.
  split; rewrite ?Hrob, ?Hmem; try assumption.
  - destruct Hpool as [[-> _]|[_ ->]]; [apply Forall_fill|]; auto.
  - destruct Hpool as [[_ ->]|[-> _]]; [|apply Forall_fill]; auto.
  - rewrite busyTags_app in Hnd, Hfresh.
    destruct Hpool as [[-> ->]|[-> ->]]; rewrite busyTags_app.
    + destruct (busyTags_fill station _ (rsALU s) Hst) as (l1 & l2 & Heq & [-> | ->]).
      * rewrite Heq, <- app_assoc in Hnd, Hfresh. rewrite <- app_assoc.
        apply NoDup_fill; assumption.
      * rewrite <- Heq. exact Hnd.
    + destruct (busyTags_fill station _ (rsLS s) Hst) as (l1 & l2 & Heq & [-> | ->]).
      * rewrite Heq in Hnd, Hfresh. rewrite app_assoc.
        rewrite <- (app_nil_r l2).
        rewrite <- (app_nil_r l2), app_assoc in Hnd, Hfresh.
        apply NoDup_fill; assumption.
      * rewrite <- Heq. exact Hnd.
  - apply Forall_app. split; [exact Hl|]. repeat constructor.
Qed.

Lemma issueLoop_stationInv Date_now n s :
  1 <= nextRobTag s -> tagInv s -> stationInv s ->
  stationInv (issueLoop Date_now n s).1.
Proof.
  revert s. induction n as [|n IH]; intros s Hone Htags Hs; [exact Hs|].
  cbn [issueLoop].
  destruct (stageFetchAndIssue Date_now s) as [s' ok] eqn:Hissue.
  destruct ok.
  - apply stageFetchAndIssue_true in Hissue as (template & _ & ->).
    pose proof (ie_nextRobTag _ _ _ _ _ (issue_effect Date_now template s)) as Hn.
    assert (Hone' : 1 <= nextRobTag (issue Date_now template s)) by lia.
    specialize (IH (issue Date_now template s) Hone'
                  (tagInv_issue Date_now template s Hone Htags)
                  (stationInv_issue Date_now template s Htags Hs)).
    destruct (issueLoop Date_now n (issue Date_now template s)) as [s'' k].
    exact IH.
  - apply stageFetchAndIssue_false in Hissue as ->. exact Hs.
Qed.

Lemma stationInv_step Date_now s :
  1 <= nextRobTag s -> tagInv s -> stationInv s -> stationInv (step Date_now s).
Proof.
  intros Hone Htags Hs. unfold step.
  destruct (finished s); [destruct Hs; split; assumption|].
  set (s0 := setClock (clock s + 1) s).
  assert (H0 : stationInv s0) by (destruct Hs; split; assumption).
  assert (T0 : tagInv s0) by (destruct Htags; split; assumption).
  apply (stationInv_commit Date_now) in H0.
  apply (stationInv_execute Date_now) in H0.
  apply (tagInv_commit Date_now) in T0.
  apply (tagInv_execute Date_now) in T0.
  pose proof (ef_nextRobTag _ _ (stageExecute_frame Date_now (stageCommit Date_now s0)))
    as Hn.
  rewrite stageCommit_nextRobTag in Hn. change (nextRobTag s0) with (nextRobTag s) in Hn.
  set (s1 := stageExecute Date_now (stageCommit Date_now s0)) in *.
  assert (Hone1 : 1 <= nextRobTag s1) by lia.
  pose proof (issueLoop_stationInv Date_now (width s1) s1 Hone1 T0 H0) as Hi.
  destruct (issueLoop Date_now (width s1) s1) as [s2 k]. cbn in Hi.
  destruct Hi. split; assumption.
Qed.

Lemma steps_nextRobTag Date_now parse text n :
  1 <= nextRobTag (steps Date_now n (reset parse text)).
Proof.
  destruct (steps_count Date_now n (reset parse text)) as [_ Hn].
  destruct (reset_inFlight parse text) as [_ Hone].
  assert (0 <= issuedTotal Date_now n (reset parse text)).
  { clear. induction n as [|n IH]; [reflexivity|].
    cbn [issuedTotal]. unfold issuedBy.
    destruct (finished _); lia. }
  lia.
Qed.

Lemma stationInv_reset parse text : stationInv (reset parse text).
Proof.
  unfold reset, loadProgram, newSimulator, initRS, log.
  destruct (parse text) as [prog completed].
  destruct completed; split; cbn -[replicate];
    try (apply Forall_replicate, held_free); try constructor; try reflexivity.
Qed.

Lemma stationInv_steps Date_now parse text n :
  stationInv (steps Date_now n (reset parse text)).
Proof.
  induction n as [|n IH]; [apply stationInv_reset|].
  cbn [steps]. apply stationInv_step; [apply steps_nextRobTag|apply tagInv_steps|exact IH].
Qed.

Lemma stageCommit_load Date_now s head rest :
  rob s = head :: rest -> RobEntry.isReady head = true ->
  RobEntry.op head = "LW" -> RobEntry.rd head <> 0 ->
  regFile (stageCommit Date_now s)
  = JS.int32ArraySet (RobEntry.rd head) (RobEntry.result head) (regFile s).
Proof.
  intros Hrob Hready Hop Hrd.
  unfold stageCommit. rewrite Hrob, Hready, Hop.
  change (isBranch "LW") with false. cbv iota.
  unfold commitRegister, writesRegister. rewrite Hop.
  destruct (Z.eqb_spec (RobEntry.rd head) 0) as [|_]; [contradiction|].
  change (negb false && negb ("LW" =? "SW")%string && negb ("LW" =? "BEQ")%string
          && negb ("LW" =? "BNE")%string) with true. cbv iota.
  unfold commitMemory, commitStore, l1dAccess, log. rewrite Hop.
  repeat case_match; simplify_eq; reflexivity.
Qed.

(** X16: in every run from reset each busy reservation station holds an
    instruction that is in flight: the ROB has the entry of its tag, which
    has no result yet and agrees with the instruction on the operation, the
    destination register and the address; the instruction is not marked
    ready and has between one and all of its cycles left.  No two busy
    stations hold the same tag, and no busy station holds the tag of an
    entry that has its result. *)
Theorem stations_hold_instructions_in_flight Date_now parse text n :
  wfProgram (parse text).1 ->
  (forall rs,
     rs ∈ rsALU (steps Date_now n (reset parse text))
          ++ rsLS (steps Date_now n (reset parse text)) ->
     Station.busy rs = true ->
     exists f r,
       Station.slot rs = Some f /\
       findRob (Instruction.robTag (Station.inst f))
         (rob (steps Date_now n (reset parse text))) = Some r /\
       RobEntry.isReady r = false /\
       RobEntry.op r = Instruction.op (Station.inst f) /\
       RobEntry.rd r = Instruction.rd (Station.inst f) /\
       RobEntry.pc r = Instruction.pc (Station.inst f) /\
       Instruction.isReady (Station.inst f) = false /\
       0 < Instruction.executionCyclesLeft (Station.inst f)
         <= Instruction.totalCycles (Station.inst f)) /\
  NoDup (busyTags (rsALU (steps Date_now n (reset parse text))
                   ++ rsLS (steps Date_now n (reset parse text)))) /\
  (forall r,
     r ∈ rob (steps Date_now n (reset parse text)) ->
     RobEntry.isReady r = true ->
     RobEntry.robTag r
     ∉ busyTags (rsALU (steps Date_now n (reset parse text))
                 ++ rsLS (steps Date_now n (reset parse text)))).
Proof.
  intros _.
  pose proof (stationInv_steps Date_now parse text n) as [Halu Hls Hnd _ _].
  pose proof (tagInv_steps Date_now parse text n) as Htags.
  set (s := steps Date_now n (reset parse text)) in *.
  assert (Hall : forall rs, rs ∈ rsALU s ++ rsLS s -> held (rob s) rs).
  { intros rs Hin. apply elem_of_app in Hin as [Hin|Hin];
      [rewrite Forall_forall in Halu|rewrite Forall_forall in Hls]; auto. }
  split; [|split; [exact Hnd|]].
  - intros rs Hin Hbusy.
    destruct (Hall rs Hin Hbusy)
      as (f & Hslot & [(r & Hfind & H1 & H2 & H3 & H4) H5 H6 _ _]).
    exists f, r. repeat split; assumption || lia.
  - intros r Hin Hready Htag.
    apply list_elem_of_omap in Htag as (rs & Hrs & Hst).
    unfold stationTag in Hst. destruct (Station.busy rs) eqn:Hbusy; [|discriminate].
    destruct (Hall rs Hrs Hbusy) as (f & Hslot & [(r' & Hfind & Hr' & _) _ _ _ _]).
    rewrite Hslot in Hst. injection Hst as Hst. rewrite Hst in Hfind.
    rewrite (findRob_unique _ _ (ti_rob _ Htags) Hin) in Hfind.
    injection Hfind as <-. congruence.
Qed.

Lemma stations_hold_instructions_in_flight_witness :
  wfProgram (parsedAs loadUseProgram "").1 /\
  NoDup (busyTags (rsALU (steps tickingClock 2 (reset (parsedAs loadUseProgram) ""))
                   ++ rsLS (steps tickingClock 2 (reset (parsedAs loadUseProgram) "")))).
Proof.
  assert (H : wfProgram (parsedAs loadUseProgram "").1).
  { apply wfProgram_storeProgram. repeat constructor. }
  split; [exact H|].
  exact (proj1 (proj2 (stations_hold_instructions_in_flight tickingClock
                         (parsedAs loadUseProgram) "" 2 H))).
Defined.

(** X17: the memory is never written, so every load reads 0: in every run
    from reset the ROB entry of a [LW] has the result 0, before and after
    the load has executed, and the commit of a load writes 0 to its
    destination register. *)
Theorem loads_read_zero Date_now parse text n :
  wfProgram (parse text).1 ->
  (forall r,
     r ∈ rob (steps Date_now n (reset parse text)) ->
     RobEntry.op r = "LW" -> RobEntry.result r = 0) /\
  (forall head rest,
     rob (steps Date_now n (reset parse text)) = head :: rest ->
     RobEntry.isReady head = true ->
     RobEntry.op head = "LW" ->
     0 < RobEntry.rd head < 32 ->
     regFile (stageCommit Date_now (steps Date_now n (reset parse text)))
       !! Z.to_nat (RobEntry.rd head) = Some 0).
Proof.
  intros _.
  pose proof (stationInv_steps Date_now parse text n) as [_ _ _ Hl _].
  pose proof (regInv_steps Date_now parse text n) as Hreg.
  set (s := steps Date_now n (reset parse text)) in *.
  unfold loadsZero in Hl. rewrite Forall_forall in Hl.
  split; [exact Hl|].
  intros head rest Hrob Hready Hop Hrd.
  rewrite (stageCommit_load Date_now s head rest Hrob Hready Hop) by lia.
  rewrite (Hl head) by (rewrite Hrob; left) || exact Hop.
  unfold JS.int32ArraySet. destruct (Z.leb_spec 0 (RobEntry.rd head)); [|lia].
  apply list_lookup_insert_eq. rewrite (ri_regLen _ Hreg). lia.
Qed.

Lemma loads_read_zero_witness :
  wfProgram (parsedAs loadUseProgram "").1 /\
  (forall r,
     r ∈ rob (steps tickingClock 3 (reset (parsedAs loadUseProgram) "")) ->
     RobEntry.op r = "LW" -> RobEntry.result r = 0).
Proof.
  assert (H : wfProgram (parsedAs loadUseProgram "").1).
  { apply wfProgram_storeProgram. repeat constructor. }
  split; [exact H|].
  exact (proj1 (loads_read_zero tickingClock (parsedAs loadUseProgram) "" 3 H)).
Defined.

(** ** The two pools of stations *)

Lemma executeStation_pool Date_now ls s rs :
  poolHolds ls rs -> poolHolds ls (executeStation Date_now s rs).2.
Proof.
  intros Hrs. destruct (Station.busy rs) eqn:Hbusy.
  2:{ unfold executeStation. rewrite Hbusy. exact Hrs. }
  destruct (Hrs Hbusy) as (f & Hslot & Hop).
  destruct (executeStation_spec Date_now s rs f Hbusy Hslot)
    as (f' & Hslot' & (_ & S2 & _) & _).
  intros _. exists f'. split; [exact Hslot'|]. rewrite S2. exact Hop.
Qed.

Lemma executeStations_pool Date_now ls sts s :
  Forall (poolHolds ls) sts ->
  Forall (poolHolds ls) (executeStations Date_now s sts).2 /\
  length (executeStations Date_now s sts).2 = length sts.
Proof.
  revert s. induction sts as [|rs sts IH]; intros s Hsts; [cbn; auto|].
  apply Forall_cons in Hsts as [Hrs Hsts]. simpl.
  pose proof (executeStation_pool Date_now ls s rs Hrs) as H1.
  destruct (executeStation Date_now s rs) as [s1 rs'].
  destruct (IH s1 Hsts) as [H2 H3].
  destruct (executeStations Date_now s1 sts) as [s2 rest']. cbn [fst snd length] in *.
  split; [constructor; assumption|congruence].
Qed.

Lemma poolHolds_free ls : poolHolds ls Station.free.
Proof. intros H. discriminate. Qed.

Lemma issueAllocate_pool inst qj vj qk vk s :
  exists station,
    poolHolds (isLS (Instruction.op inst)) station /\
    (if isLS (Instruction.op inst)
     then rsLS (issueAllocate inst qj vj qk vk s)
          = updFirst (fun r => negb (Station.busy r)) (fun _ => station) (rsLS s) /\
          rsALU (issueAllocate inst qj vj qk vk s) = rsALU s
     else rsALU (issueAllocate inst qj vj qk vk s)
          = updFirst (fun r => negb (Station.busy r)) (fun _ => station) (rsALU s) /\
          rsLS (issueAllocate inst qj vj qk vk s) = rsLS s).
Proof.
  unfold issueAllocate, isLS. eexists. split.
  2:{ destruct (String.eqb (Instruction.op inst) "LW" || String.eqb (Instruction.op inst) "SW");
      destruct (writesRegister (Instruction.rd inst) (Instruction.op inst));
      cbn; split; reflexivity. }
  intros _. eexists. split; reflexivity.
Qed.

Lemma issue_pool Date_now template s :
  Forall (poolHolds false) (rsALU s) -> Forall (poolHolds true) (rsLS s) ->
  Forall (poolHolds false) (rsALU (issue Date_now template s)) /\
  Forall (poolHolds true) (rsLS (issue Date_now template s)) /\
  length (rsALU (issue Date_now template s)) = length (rsALU s) /\
  length (rsLS (issue Date_now template s)) = length (rsLS s).
Proof.
  intros Halu Hls. unfold issue.
  pose proof (issueFetch_frame Date_now s) as Hf.
  set (s1 := issueFetch Date_now s) in *.
  set (s2 := setNextRobTag (nextRobTag s1 + 1) s1).
  destruct (renameSource (Template.rs1 template) s2) as [qj vj].
  destruct (renameSource (Template.rs2 template) s2) as [qk vk].
  match goal with |- context [issueAdvance ?i (issueAllocate ?i ?a ?b ?c ?d s2)] =>
    pose proof (issueAdvance_frame i (issueAllocate i a b c d s2)) as Ha;
    pose proof (issueAllocate_pool i a b c d s2) as (station & Hst & Hpool);
    set (inst := i) in *
  end.
  rewrite (wf_rsALU _ _ Ha), (wf_rsLS _ _ Ha).
  change (rsALU s2) with (rsALU s1) in Hpool.
  change (rsLS s2) with (rsLS s1) in Hpool.
  rewrite (wf_rsALU _ _ Hf), (wf_rsLS _ _ Hf) in Hpool.
  destruct (isLS (Instruction.op inst)); destruct Hpool as [-> ->];
    rewrite updFirst_length; repeat split; try assumption;
    apply Forall_fill; assumption.
Qed.

Lemma issueLoop_pool Date_now n s :
  Forall (poolHolds false) (rsALU s) -> Forall (poolHolds true) (rsLS s) ->
  Forall (poolHolds false) (rsALU (issueLoop Date_now n s).1) /\
  Forall (poolHolds true) (rsLS (issueLoop Date_now n s).1) /\
  length (rsALU (issueLoop Date_now n s).1) = length (rsALU s) /\
  length (rsLS (issueLoop Date_now n s).1) = length (rsLS s).
Proof.
  revert s. induction n as [|n IH]; intros s Halu Hls; [auto|].
  cbn [issueLoop].
  destruct (stageFetchAndIssue Date_now s) as [s' ok] eqn:Hissue.
  destruct ok.
  - apply stageFetchAndIssue_true in Hissue as (template & _ & ->).
    destruct (issue_pool Date_now template s Halu Hls) as (H1 & H2 & H3 & H4).
    specialize (IH (issue Date_now template s) H1 H2).
    destruct (issueLoop Date_now n (issue Date_now template s)) as [s'' k].
    cbn [fst] in *. destruct IH as (G1 & G2 & G3 & G4).
    repeat split; try assumption; congruence.
  - apply stageFetchAndIssue_false in Hissue as ->. auto.
Qed.

Lemma busyCount_bound sts : 0 <= busyCount sts <= Z.of_nat (length sts).
Proof.
  unfold busyCount. pose proof (length_filter (fun r => Station.busy r = true) sts).
  lia.
Qed.

Lemma poolInv_step Date_now s :
  (length (rob s) <= robSize s)%nat -> robSize s = 32%nat ->
  poolInv s -> poolInv (step Date_now s).
Proof.
  intros Hcap Hsize [Ha Hl Halu Hls Hrob Hrs].
  pose proof (step_capacity Date_now s Hcap) as Hcap'.
  rewrite (cf_robSize _ _ (step_constants Date_now s)), Hsize in Hcap'.
  revert Hcap'. unfold step.
  destruct (finished s); [intros _; split; assumption|].
  set (s0 := setClock (clock s + 1) s).
  assert (H0 : length (rsALU (stageCommit Date_now s0)) = 8%nat /\
               length (rsLS (stageCommit Date_now s0)) = 4%nat /\
               Forall (poolHolds false) (rsALU (stageCommit Date_now s0)) /\
               Forall (poolHolds true) (rsLS (stageCommit Date_now s0))).
  { destruct (stageCommit_outcome Date_now s0)
      as [_ ->
         |head rest _ _ _ Hca Hcs _ _ _ _ _
         |head rest _ _ _ _ _ _ Hca Hcs _ _
         |head rest _ _ _ _ Hca Hcs _ _];
      rewrite ?Hca, ?Hcs; repeat split; try assumption;
      try apply length_replicate; apply Forall_replicate, poolHolds_free. }
  destruct H0 as (C1 & C2 & C3 & C4).
  set (sc := stageCommit Date_now s0) in *.
  assert (H1 : length (rsALU (stageExecute Date_now sc)) = 8%nat /\
               length (rsLS (stageExecute Date_now sc)) = 4%nat /\
               Forall (poolHolds false) (rsALU (stageExecute Date_now sc)) /\
               Forall (poolHolds true) (rsLS (stageExecute Date_now sc))).
  { unfold stageExecute.
    destruct (executeStations_pool Date_now false (rsALU sc) sc C3) as [E1 E2].
    destruct (executeStations Date_now sc (rsALU sc)) as [s1 alu].
    destruct (executeStations_pool Date_now true (rsLS sc) s1 C4) as [E3 E4].
    destruct (executeStations Date_now s1 (rsLS sc)) as [s2 ls].
    cbn in *. repeat split; try assumption; congruence. }
  destruct H1 as (E1 & E2 & E3 & E4).
  set (s1 := stageExecute Date_now sc) in *.
  destruct (issueLoop_pool Date_now (width s1) s1 E3 E4) as (I1 & I2 & I3 & I4).
  pose proof (meterFrame_trans _ _ _
                (meterFrame_trans _ _ _ (stageCommit_meter Date_now s0)
                   (proj1 (stageExecute_meter Date_now sc)))
                (proj1 (issueLoop_meter Date_now (width s1) s1))) as M.
  destruct (issueLoop Date_now (width s1) s1) as [s2 k]. cbn [fst snd] in *.
  pose proof (mf_robHistory _ _ M) as MR. pose proof (mf_rsHistory _ _ M) as MS.
  change (robOccupationHistory s0) with (robOccupationHistory s) in MR.
  change (rsOccupationHistory s0) with (rsOccupationHistory s) in MS.
  intros Hcap'. cbn in Hcap'.
  pose proof (busyCount_bound (rsALU s2)). pose proof (busyCount_bound (rsLS s2)).
  split; cbn; try assumption; try congruence.
  - rewrite MR. apply Forall_app. split; [exact Hrob|]. repeat constructor; lia.
  - rewrite MS. apply Forall_app. split; [exact Hrs|]. repeat constructor; lia.
Qed.

Lemma steps_capacity Date_now parse text n :
  (length (rob (steps Date_now n (reset parse text)))
   <= robSize (steps Date_now n (reset parse text)))%nat.
Proof.
  induction n as [|n IH].
  - cbn [steps]. destruct (reset_fields parse text) as (_ & -> & _ & -> & _).
    cbn. lia.
  - cbn [steps]. apply step_capacity. exact IH.
Qed.

Lemma poolInv_reset parse text : poolInv (reset parse text).
Proof.
  unfold reset, loadProgram, newSimulator, initRS, log.
  destruct (parse text) as [prog completed].
  destruct completed; split; cbn -[replicate];
    first [ reflexivity
          | apply Forall_replicate, poolHolds_free
          | apply Forall_nil_2 ].
Qed.

(** X18: in every run from reset the ALU pool has its 8 stations and the
    load/store pool its 4; a busy station of the ALU pool never holds a
    [LW] or [SW] and a busy station of the load/store pool holds nothing
    else; every sample of the occupancy histories lies within the
    capacities, 32 for the ROB and 12 for the stations. *)
Theorem station_pools Date_now parse text n :
  wfProgram (parse text).1 ->
  length (rsALU (steps Date_now n (reset parse text))) = 8%nat /\
  length (rsLS (steps Date_now n (reset parse text))) = 4%nat /\
  (forall rs f,
     rs ∈ rsALU (steps Date_now n (reset parse text)) ->
     Station.busy rs = true -> Station.slot rs = Some f ->
     Instruction.op (Station.inst f) <> "LW" /\
     Instruction.op (Station.inst f) <> "SW") /\
  (forall rs f,
     rs ∈ rsLS (steps Date_now n (reset parse text)) ->
     Station.busy rs = true -> Station.slot rs = Some f ->
     Instruction.op (Station.inst f) = "LW" \/
     Instruction.op (Station.inst f) = "SW") /\
  Forall (fun x => 0 <= x <= 32)
    (robOccupationHistory (steps Date_now n (reset parse text))) /\
  Forall (fun x => 0 <= x <= 12)
    (rsOccupationHistory (steps Date_now n (reset parse text))).
Proof.
  intros _.
  assert (H : poolInv (steps Date_now n (reset parse text))).
  { induction n as [|n IH]; [apply poolInv_reset|].
    cbn [steps]. apply poolInv_step; [apply steps_capacity| |exact IH].
    apply steps_width. }
  destruct H as [Ha Hl Halu Hls Hrob Hrs].
  split; [exact Ha|]. split; [exact Hl|].
  split; [|split; [|split; assumption]].
  - intros rs f Hin Hbusy Hslot. rewrite Forall_forall in Halu.
    destruct (Halu rs Hin Hbusy) as (f' & Hslot' & Hop).
    rewrite Hslot in Hslot'. injection Hslot' as <-.
    unfold isLS in Hop. apply orb_false_elim in Hop as [H1 H2].
    apply String.eqb_neq in H1, H2. auto.
  - intros rs f Hin Hbusy Hslot. rewrite Forall_forall in Hls.
    destruct (Hls rs Hin Hbusy) as (f' & Hslot' & Hop).
    rewrite Hslot in Hslot'. injection Hslot' as <-.
    unfold isLS in Hop. apply orb_prop in Hop as [H1|H2];
      [left|right]; apply String.eqb_eq; assumption.
Qed.

Lemma station_pools_witness :
  wfProgram (parsedAs lruProgram "").1 /\
  length (rsLS (steps tickingClock 3 (reset (parsedAs lruProgram) ""))) = 4%nat.
Proof.
  assert (H : wfProgram (parsedAs lruProgram "").1).
  { apply wfProgram_storeProgram. repeat constructor. }
  split; [exact H|].
  exact (proj1 (proj2 (station_pools tickingClock (parsedAs lruProgram) "" 3 H))).
Defined.

(** ** A PC outside the program *)

Lemma executeStations_free Date_now sts s :
  Forall (fun rs => Station.busy rs = false) sts ->
  executeStations Date_now s sts = (s, sts).
Proof.
  induction 1 as [|rs sts Hrs _ IH]; [reflexivity|].
  simpl. unfold executeStation at 1. rewrite Hrs. cbn [negb].
  rewrite IH. reflexivity.
Qed.

Lemma issueLoop_none Date_now n s :
  instructions s !! pc s = None -> issueLoop Date_now n s = (s, 0%nat).
Proof.
  intros Hnone. destruct n as [|n]; [reflexivity|].
  cbn [issueLoop]. unfold stageFetchAndIssue. rewrite Hnone.
  destruct (_ <=? _)%nat; reflexivity.
Qed.

Lemma strayed_spec s :
  strayed s = true <->
  rob s = [] /\
  Forall (fun rs => Station.busy rs = false) (rsALU s) /\
  Forall (fun rs => Station.busy rs = false) (rsLS s) /\
  instructions s !! pc s = None /\
  pc s < Z.of_nat (size (instructions s)) * 4.
Proof.
  unfold strayed. rewrite !andb_true_iff, forallb_app, andb_true_iff.
  rewrite Nat.eqb_eq, Z.ltb_lt, length_zero_iff_nil.
  assert (Hfree : forall l, forallb (fun rs => negb (Station.busy rs)) l = true
                            <-> Forall (fun rs => Station.busy rs = false) l).
  { intros l. rewrite forallb_forall, Forall_forall. split; intros H rs Hrs.
    - apply list_elem_of_In in Hrs. apply H in Hrs.
      destruct (Station.busy rs); [discriminate|reflexivity].
    - apply list_elem_of_In in Hrs. rewrite (H rs Hrs). reflexivity. }
  rewrite !Hfree.
  destruct (instructions s !! pc s); intuition congruence.
Qed.

Lemma step_strayed Date_now s :
  strayed s = true ->
  strayed (step Date_now s) = true /\
  clock (step Date_now s) = clock s + 1 /\
  pc (step Date_now s) = pc s /\
  instructionsCommitted (step Date_now s) = instructionsCommitted s /\
  regFile (step Date_now s) = regFile s /\
  finished s = false.
Proof.
  intros Hs. pose proof Hs as Hs'.
  apply strayed_spec in Hs' as (Hrob & Halu & Hls & Hnone & Hpc).
  assert (Hfin : finished s = false).
  { unfold finished. destruct (Z.leb_spec (Z.of_nat (size (instructions s)) * 4) (pc s));
      [lia|reflexivity]. }
  assert (Hstep : step Date_now s
    = setRsOccupationHistory
        (rsOccupationHistory s ++ [busyCount (rsALU s) + busyCount (rsLS s)])
        (setRobOccupationHistory (robOccupationHistory s ++ [0])
           (setRsLS (rsLS s) (setRsALU (rsALU s) (setClock (clock s + 1) s))))).
  { unfold step. rewrite Hfin. unfold stageCommit. cbn [rob setClock]. rewrite Hrob.
    unfold stageExecute. cbn [rsALU rsLS setClock].
    rewrite (executeStations_free Date_now (rsALU s)) by exact Halu.
    rewrite (executeStations_free Date_now (rsLS s)) by exact Hls.
    rewrite issueLoop_none by exact Hnone.
    cbn. rewrite Hrob. reflexivity. }
  rewrite Hstep. cbn. repeat split; try exact Hfin.
  apply strayed_spec. cbn. auto.
Qed.

(** X19: when the window is empty and the PC is at an address that holds
    no instruction but lies below the end of the program (a negative or
    unaligned branch target), nothing is ever fetched again and the run is
    never taken to be finished: every call of [step] advances the clock and
    leaves the PC, the committed count and the register file as they
    are. *)
Theorem strayed_pc_never_finishes Date_now s n :
  strayed s = true ->
  strayed (steps Date_now n s) = true /\
  finished (steps Date_now n s) = false /\
  clock (steps Date_now n s) = clock s + Z.of_nat n /\
  pc (steps Date_now n s) = pc s /\
  instructionsCommitted (steps Date_now n s) = instructionsCommitted s /\
  regFile (steps Date_now n s) = regFile s.
Proof.
  intros Hs.
  assert (H : strayed (steps Date_now n s) = true /\
              clock (steps Date_now n s) = clock s + Z.of_nat n /\
              pc (steps Date_now n s) = pc s /\
              instructionsCommitted (steps Date_now n s) = instructionsCommitted s /\
              regFile (steps Date_now n s) = regFile s).
  { induction n as [|n (IH1 & IH2 & IH3 & IH4 & IH5)].
    - cbn. repeat split; [exact Hs|lia].
    - cbn [steps].
      destruct (step_strayed Date_now _ IH1) as (H1 & H2 & H3 & H4 & H5 & _).
      rewrite H2, H3, H4, H5, IH2, IH3, IH4, IH5.
      repeat split; [exact H1|lia]. }
  destruct H as (H1 & H2 & H3 & H4 & H5).
  repeat split; try assumption.
  apply (step_strayed Date_now _ H1).
Qed.

Lemma strayed_pc_never_finishes_witness :
  strayed (steps tickingClock 3 (reset (parsedAs strayProgram) "")) = true /\
  pc (steps tickingClock 50 (steps tickingClock 3 (reset (parsedAs strayProgram) "")))
  = -8.
Proof.
  assert (H : strayed (steps tickingClock 3 (reset (parsedAs strayProgram) "")) = true)
    by (vm_compute; reflexivity).
  split; [exact H|].
  exact (eq_trans
           (proj1 (proj2 (proj2 (proj2
              (strayed_pc_never_finishes tickingClock
                 (steps tickingClock 3 (reset (parsedAs strayProgram) "")) 50 H)))))
           (eq_refl : pc (steps tickingClock 3 (reset (parsedAs strayProgram) "")) = -8)).
Defined.

(** ** The LSQ and the loads and stores of the ROB *)

Lemma memTags_static rb rb' :
  map robStatic rb' = map robStatic rb -> memTags rb' = memTags rb.
Proof.
  unfold memTags. revert rb'. induction rb as [|r rb IH]; intros rb' H.
  { destruct rb'; [reflexivity|discriminate]. }
  destruct rb' as [|r' rb']; [discriminate|].
  cbn [map] in H. unfold robStatic at 1 3 in H. injection H as Htag Hrd Hop H.
  rewrite !filter_cons, Hop.
  destruct (decide (isLoadStore (RobEntry.op r) = true)); cbn [map];
    rewrite ?Htag, (IH rb' H); reflexivity.
Qed.

Lemma memTags_app rb rb' : memTags (rb ++ rb') = memTags rb ++ memTags rb'.
Proof. unfold memTags. rewrite filter_app, map_app. reflexivity. Qed.

Lemma memTags_elem t rb :
  t ∈ memTags rb ->
  exists r, r ∈ rb /\ RobEntry.robTag r = t /\ isLoadStore (RobEntry.op r) = true.
Proof.
  unfold memTags. intros H. apply list_elem_of_fmap in H as (r & -> & Hr).
  apply list_elem_of_filter in Hr as [Hls Hr]. eauto.
Qed.

Lemma computeResult_lsq Date_now f inst s :
  lsq (computeResult Date_now f inst s).1
  = if String.eqb (Instruction.op inst) "LW" then markLoad inst (lsq s)
    else if String.eqb (Instruction.op inst) "SW"
         then markStore inst (Station.vk f) (lsq s)
         else lsq s.
Proof.
  unfold computeResult, l1dAccess.
  destruct (String.eqb_spec (Instruction.op inst) "ADD") as [->|_]; [reflexivity|].
  destruct (String.eqb_spec (Instruction.op inst) "SUB") as [->|_]; [reflexivity|].
  destruct (String.eqb_spec (Instruction.op inst) "ADDI") as [->|_]; [reflexivity|].
  destruct (String.eqb_spec (Instruction.op inst) "LW") as [_|_].
  { destruct (Cache.access _ _ _ _) as [c r]. reflexivity. }
  destruct (String.eqb_spec (Instruction.op inst) "SW") as [_|_]; [reflexivity|].
  repeat case_match; reflexivity.
Qed.

(** The marking of the LSQ entry of a tag, when the tags of the LSQ are
    distinct. *)
Lemma mark_ready (g : LsqEntry.t -> LsqEntry.t) t q :
  ascending (map LsqEntry.robTag q) ->
  (forall l, LsqEntry.robTag (g l) = LsqEntry.robTag l /\
             LsqEntry.isMemReady (g l) = true) ->
  map LsqEntry.robTag (updFirst (fun l => LsqEntry.robTag l =? t) g q)
  = map LsqEntry.robTag q /\
  Forall (fun l' => (LsqEntry.robTag l' = t /\ LsqEntry.isMemReady l' = true) \/
                    (LsqEntry.robTag l' <> t /\ l' ∈ q))
    (updFirst (fun l => LsqEntry.robTag l =? t) g q).
Proof.
  intros Hasc Hg. induction q as [|x q IH]; [split; [reflexivity|constructor]|].
  cbn in Hasc. destruct Hasc as [Hlt Hasc]. cbn [updFirst].
  destruct (Z.eqb_spec (LsqEntry.robTag x) t) as [Heq|Hne].
  - destruct (Hg x) as [Hgt Hgr]. split; [cbn; rewrite Hgt; reflexivity|].
    constructor; [left; split; congruence|].
    apply Forall_forall. intros l Hl. right. split; [|right; exact Hl].
    rewrite Forall_forall in Hlt.
    assert (LsqEntry.robTag x < LsqEntry.robTag l); [|lia].
    apply Hlt. apply list_elem_of_fmap. eauto.
  - destruct (IH Hasc) as [IH1 IH2]. split; [cbn; rewrite IH1; reflexivity|].
    constructor; [right; split; [exact Hne|left]|].
    apply (Forall_impl _ _ _ IH2). intros l [Hl|[Hl1 Hl2]]; [left; exact Hl|].
    right. split; [exact Hl1|right; exact Hl2].
Qed.

Lemma executeStation_lsq Date_now s rs f :
  Station.busy rs = true -> Station.slot rs = Some f ->
  (Station.busy (executeStation Date_now s rs).2 = true /\
   lsq (executeStation Date_now s rs).1 = lsq s) \/
  (Station.busy (executeStation Date_now s rs).2 = false /\
   exists inst val,
     Instruction.robTag inst = Instruction.robTag (Station.inst f) /\
     lsq (executeStation Date_now s rs).1
     = if String.eqb (Instruction.op (Station.inst f)) "LW"
       then markLoad inst (lsq s)
       else if String.eqb (Instruction.op (Station.inst f)) "SW"
            then markStore inst val (lsq s)
            else lsq s).
Proof.
  intros Hbusy Hslot. unfold executeStation. rewrite Hbusy, Hslot. cbv zeta.
  cbn [negb].
  pose proof (captureOperands_inst (rob s) f) as Hinst.
  set (f1 := captureOperands (rob s) f) in *.
  match goal with |- context [if ?c then _ else (s, _)] => destruct c end;
    [|left; split; reflexivity].
  match goal with |- context [Instruction.setExecutionCyclesLeft _ ?i] =>
    set (inst1 := i) end.
  assert (Hinst1 :
    Instruction.robTag inst1 = Instruction.robTag (Station.inst f) /\
    Instruction.op inst1 = Instruction.op (Station.inst f)).
  { subst inst1.
    match goal with |- context [if ?c then Instruction.setMemAddr _ _ else _] =>
      destruct c end; cbn; rewrite Hinst; split; reflexivity. }
  destruct Hinst1 as [I1 I2].
  match goal with |- context [Instruction.setExecutionCyclesLeft ?v inst1] =>
    set (inst2 := Instruction.setExecutionCyclesLeft v inst1) end.
  destruct (Instruction.executionCyclesLeft inst2 =? 0);
    [|left; split; reflexivity].
  pose proof (computeResult_lsq Date_now f1 inst2 s) as Hl.
  change (Instruction.op inst2) with (Instruction.op inst1) in Hl.
  rewrite I2 in Hl.
  destruct (computeResult Date_now f1 inst2 s) as [s' val]. cbn [fst] in Hl.
  right. split; [reflexivity|]. exists inst2, (Station.vk f1).
  split; [exact I1|]. cbn -[broadcast markLoad markStore]. exact Hl.
Qed.

Lemma isLoadStore_ops op :
  isLoadStore op = false ->
  String.eqb op "LW" = false /\ String.eqb op "SW" = false.
Proof. unfold isLoadStore. intros H. apply orb_false_elim in H as [? ?]. auto. Qed.

Lemma executeStation_mirror Date_now s rs :
  held (rob s) rs ->
  ascending (map RobEntry.robTag (rob s)) ->
  ascending (map LsqEntry.robTag (lsq s)) ->
  lsqMirrors (rob s) (lsq s) ->
  lsqMirrors (rob (executeStation Date_now s rs).1)
    (lsq (executeStation Date_now s rs).1).
Proof.
  intros Hheld Hrasc Hlasc [Htags Hready].
  destruct (Station.busy rs) eqn:Hbusy.
  2:{ unfold executeStation. rewrite Hbusy. cbn. split; assumption. }
  destruct (Hheld Hbusy) as (f & Hslot & [(r0 & Hfind0 & Hr0 & Hop0 & _) _ _ _ _]).
  destruct (executeStation_spec Date_now s rs f Hbusy Hslot)
    as (f' & _ & (S1 & _) & Hcase).
  destruct (executeStation_lsq Date_now s rs f Hbusy Hslot)
    as [(Hb & Hlsq)|(Hb & inst & val' & Hinst & Hlsq)];
    destruct Hcase as [(Hb' & Hrob & _)|(Hb' & val & Hrob & _)];
    try congruence.
  { rewrite Hrob, Hlsq. split; assumption. }
  rewrite Hrob. set (T := Instruction.robTag (Station.inst f)) in *.
  assert (Hkeep : forall l,
            l ∈ lsq s -> LsqEntry.robTag l <> T ->
            LsqEntry.isMemReady l = true \/
            exists r, findRob (LsqEntry.robTag l) (broadcast (Station.inst f') val (rob s))
                      = Some r /\ RobEntry.isReady r = false).
  { intros l Hl Hne. rewrite Forall_forall in Hready.
    destruct (Hready l Hl) as [Hm|(r & Hr & Hnr)]; [left; exact Hm|].
    right. exists r. rewrite findRob_broadcast_other by congruence. auto. }
  assert (Hmark : forall g,
            (forall l, LsqEntry.robTag (g l) = LsqEntry.robTag l /\
                       LsqEntry.isMemReady (g l) = true) ->
            lsqMirrors (broadcast (Station.inst f') val (rob s))
              (updFirst (fun l => LsqEntry.robTag l =? Instruction.robTag inst) g (lsq s))).
  { intros g Hg. destruct (mark_ready g (Instruction.robTag inst) (lsq s) Hlasc Hg)
      as [M1 M2].
    split.
    - rewrite M1, Htags. symmetry. apply memTags_static, broadcast_static.
    - apply (Forall_impl _ _ _ M2). intros l [[_ Hm]|[Hne Hl]]; [left; exact Hm|].
      apply Hkeep; [exact Hl|congruence]. }
  rewrite Hlsq.
  destruct (String.eqb (Instruction.op (Station.inst f)) "LW") eqn:Hlw.
  { apply Hmark. intros l. split; reflexivity. }
  destruct (String.eqb (Instruction.op (Station.inst f)) "SW") eqn:Hsw.
  { apply Hmark. intros l. split; reflexivity. }
  split.
  - rewrite Htags. symmetry. apply memTags_static, broadcast_static.
  - apply Forall_forall. intros l Hl. apply Hkeep; [exact Hl|].
    intros Heq.
    assert (Hin : T ∈ memTags (rob s)).
    { rewrite <- Htags, <- Heq. apply list_elem_of_fmap. eauto. }
    apply memTags_elem in Hin as (r & Hr & Hrt & Hls).
    pose proof (findRob_unique _ _ Hrasc Hr) as Hu. rewrite Hrt in Hu.
    fold T in Hfind0. rewrite Hfind0 in Hu. injection Hu as <-.
    unfold isLoadStore in Hls. rewrite Hop0, Hlw, Hsw in Hls. discriminate.
Qed.

Lemma executeStations_mirror Date_now sts s ctx :
  NoDup (busyTags (ctx ++ sts)) ->
  Forall (held (rob s)) ctx -> Forall (held (rob s)) sts ->
  loadsZero (rob s) -> memory s = ∅ ->
  ascending (map RobEntry.robTag (rob s)) ->
  ascending (map LsqEntry.robTag (lsq s)) ->
  lsqMirrors (rob s) (lsq s) ->
  lsqMirrors (rob (executeStations Date_now s sts).1)
    (lsq (executeStations Date_now s sts).1).
Proof.
  revert s ctx.
  induction sts as [|rs sts IH]; intros s ctx Hnd Hctx Hsts Hl Hm Hra Hla Hmir.
  { exact Hmir. }
  apply Forall_cons in Hsts as [Hrs Hsts]. simpl.
  rewrite busyTags_app, busyTags_cons in Hnd.
  assert (Hfresh : forall t, stationTag rs = Some t -> t ∉ busyTags (ctx ++ sts)).
  { intros t Ht. rewrite Ht in Hnd. rewrite busyTags_app.
    apply NoDup_app in Hnd as (_ & Hdisj & Hnd).
    apply NoDup_cons in Hnd as [Hnot _].
    intros Hin. apply elem_of_app in Hin as [Hin|Hin]; [|contradiction].
    apply (Hdisj t Hin). left. }
  assert (Hothers : Forall (held (rob s)) (ctx ++ sts)).
  { apply Forall_app. split; assumption. }
  destruct (executeStation_inv Date_now s rs (ctx ++ sts) Hrs Hothers Hfresh Hl Hm)
    as (H1 & H2 & H3 & H4 & H5).
  pose proof (executeStation_mirror Date_now s rs Hrs Hra Hla Hmir) as Hmir1.
  pose proof (executeStation_frame Date_now s rs) as Hf.
  pose proof (ef_robTags _ _ Hf) as Hrt. pose proof (ef_lsqTags _ _ Hf) as Hlt.
  destruct (executeStation Date_now s rs) as [s1 rs']. cbn [fst snd] in *.
  apply Forall_app in H2 as [H2c H2s].
  assert (Hsub : busyTags [rs'] `sublist_of` busyTags [rs]).
  { rewrite !busyTags_cons. cbn. destruct H3 as [->| ->]; [reflexivity|].
    destruct (stationTag rs); [apply sublist_cons|]; constructor. }
  assert (Hnd' : NoDup (busyTags ((ctx ++ [rs']) ++ sts))).
  { apply (sublist_NoDup _ (busyTags ctx ++ busyTags [rs] ++ busyTags sts)).
    - rewrite busyTags_cons. cbn. destruct (stationTag rs); exact Hnd.
    - rewrite !busyTags_app, <- app_assoc.
      apply sublist_app; [reflexivity|]. apply sublist_app; [exact Hsub|reflexivity]. }
  assert (Hctx' : Forall (held (rob s1)) (ctx ++ [rs'])).
  { apply Forall_app. split; [exact H2c|]. repeat constructor. exact H1. }
  rewrite <- Hrt in Hra. rewrite <- Hlt in Hla.
  specialize (IH s1 (ctx ++ [rs']) Hnd' Hctx' H2s H4 H5 Hra Hla Hmir1).
  destruct (executeStations Date_now s1 sts) as [s2 rest']. exact IH.
Qed.

Lemma stageExecute_mirror Date_now s :
  tagInv s -> stationInv s -> lsqMirrors (rob s) (lsq s) ->
  lsqMirrors (rob (stageExecute Date_now s)) (lsq (stageExecute Date_now s)).
Proof.
  intros Htags [Halu Hls Hnd Hl Hm] Hmir. unfold stageExecute.
  assert (Hnd1 : NoDup (busyTags (rsLS s ++ rsALU s))).
  { rewrite busyTags_app in *. apply NoDup_app in Hnd as (N1 & N2 & N3).
    apply NoDup_app. split; [exact N3|]. split; [|exact N1].
    intros x Hx Hx'. apply (N2 x Hx' Hx). }
  destruct (executeStations_inv Date_now (rsALU s) s (rsLS s) Hnd1 Hls Halu Hl Hm)
    as (H1 & H2 & H3 & H4 & H5).
  pose proof (executeStations_mirror Date_now (rsALU s) s (rsLS s) Hnd1 Hls Halu Hl Hm
                (ti_rob _ Htags) (ti_lsq _ Htags) Hmir) as Hmir1.
  pose proof (executeStations_frame Date_now (rsALU s) s) as Hf.
  pose proof (ef_robTags _ _ Hf) as Hrt. pose proof (ef_lsqTags _ _ Hf) as Hlt.
  destruct (executeStations Date_now s (rsALU s)) as [s1 alu]. cbn [fst snd] in *.
  assert (Hnd2 : NoDup (busyTags (alu ++ rsLS s))).
  { apply (sublist_NoDup _ (busyTags (rsALU s ++ rsLS s))); [exact Hnd|].
    rewrite !busyTags_app. apply sublist_app; [exact H3|reflexivity]. }
  assert (Hra : ascending (map RobEntry.robTag (rob s1))).
  { rewrite Hrt. exact (ti_rob _ Htags). }
  assert (Hla : ascending (map LsqEntry.robTag (lsq s1))).
  { rewrite Hlt. exact (ti_lsq _ Htags). }
  pose proof (executeStations_mirror Date_now (rsLS s) s1 alu Hnd2 H2 H1 H4 H5
                Hra Hla Hmir1) as Hmir2.
  destruct (executeStations Date_now s1 (rsLS s)) as [s2 ls]. exact Hmir2.
Qed.

Lemma memTags_cons r rb :
  memTags (r :: rb)
  = if isLoadStore (RobEntry.op r) then RobEntry.robTag r :: memTags rb
    else memTags rb.
Proof.
  unfold memTags. rewrite filter_cons.
  destruct (isLoadStore (RobEntry.op r)) eqn:Hls.
  - rewrite decide_True by reflexivity. reflexivity.
  - rewrite decide_False by discriminate. reflexivity.
Qed.

Lemma mirror_retire head rest q :
  RobEntry.isReady head = true ->
  Forall (fun l =>
            LsqEntry.isMemReady l = true \/
            exists r, findRob (LsqEntry.robTag l) (head :: rest) = Some r /\
                      RobEntry.isReady r = false) q ->
  Forall (fun l =>
            LsqEntry.isMemReady l = true \/
            exists r, findRob (LsqEntry.robTag l) rest = Some r /\
                      RobEntry.isReady r = false) q.
Proof.
  intros Hready H. apply (Forall_impl _ _ _ H).
  intros l [Hm|(r & Hfind & Hr)]; [left; exact Hm|]. right. exists r.
  split; [|exact Hr]. unfold findRob in *. cbn [find] in Hfind.
  destruct (RobEntry.robTag head =? _); [|exact Hfind].
  injection Hfind as <-. congruence.
Qed.

(** With the LSQ mirroring the ROB, a commit that does not flush keeps it
    so, and a ready load or store at the head of the ROB retires. *)
Lemma stageCommit_mirror Date_now s :
  mispredicted s = false ->
  lsqMirrors (rob s) (lsq s) ->
  lsqMirrors (rob (stageCommit Date_now s)) (lsq (stageCommit Date_now s)) /\
  (forall head rest,
     rob s = head :: rest -> RobEntry.isReady head = true ->
     isLoadStore (RobEntry.op head) = true ->
     rob (stageCommit Date_now s) = rest /\
     instructionsCommitted (stageCommit Date_now s) = instructionsCommitted s + 1 /\
     exists lsqHead, lsq s = lsqHead :: lsq (stageCommit Date_now s) /\
                     LsqEntry.robTag lsqHead = RobEntry.robTag head).
Proof.
  intros Hmis [Htags Hready].
  assert (Hnostall : forall head rest,
            rob s = head :: rest -> RobEntry.isReady head = true ->
            isLoadStore (RobEntry.op head) = true ->
            match lsq s with
            | lsqHead :: _ =>
                (LsqEntry.robTag lsqHead =? RobEntry.robTag head)
                && LsqEntry.isMemReady lsqHead = false
            | [] => True
            end -> False).
  { intros head rest Hrob Hrdy Hls Hstall.
    rewrite Hrob, memTags_cons, Hls in Htags.
    destruct (lsq s) as [|lsqHead q]; [discriminate|].
    cbn [map] in Htags. injection Htags as Ht _.
    apply Forall_cons in Hready as [Hh _].
    rewrite Ht, Z.eqb_refl in Hstall. cbn [andb] in Hstall.
    destruct Hh as [Hm|(r & Hfind & Hr)]; [congruence|].
    rewrite Hrob, Ht in Hfind. unfold findRob in Hfind. cbn [find] in Hfind.
    rewrite Z.eqb_refl in Hfind. injection Hfind as <-. congruence. }
  destruct (stageCommit_outcome Date_now s)
    as [Hidle ->
       |head rest Hrob Hm _ _ _ _ _ _ _ _
       |head rest Hrob Hrdy _ Hls Hstall _ _ _ _ _
       |head rest Hrob Hrdy _ Hrob' _ _ Hlsq Hc].
  - split; [split; assumption|].
    intros head rest Hrob Hrdy _.
    destruct Hidle as [He|(h & r & Hr & Hn)]; congruence.
  - congruence.
  - exfalso. apply (Hnostall head rest Hrob Hrdy Hls Hstall).
  - split.
    + rewrite Hrob'. rewrite Hrob in Hready, Htags. rewrite memTags_cons in Htags.
      destruct (isLoadStore (RobEntry.op head)).
      * destruct Hlsq as (lsqHead & Hq & _). rewrite Hq in Htags, Hready.
        cbn [map] in Htags. injection Htags as _ Htags.
        apply Forall_cons in Hready as [_ Hready].
        split; [exact Htags|]. apply (mirror_retire head); assumption.
      * rewrite Hlsq. split; [exact Htags|]. apply (mirror_retire head); assumption.
    + intros head' rest' Hrob2 Hrdy2 Hls2. rewrite Hrob in Hrob2.
      injection Hrob2 as <- <-. rewrite Hls2 in Hlsq.
      destruct Hlsq as (lsqHead & Hq & Ht & _).
      split; [exact Hrob'|]. split; [exact Hc|]. eauto.
Qed.

Lemma issue_lsq Date_now template s :
  lsq (issue Date_now template s)
  = if isLoadStore (Template.op template)
    then lsq s ++ [ {| LsqEntry.robTag := nextRobTag s;
                       LsqEntry.isStore := String.eqb (Template.op template) "SW";
                       LsqEntry.memAddr := -1;
                       LsqEntry.value := 0;
                       LsqEntry.isMemReady := false |} ]
    else lsq s.
Proof.
  unfold issue.
  pose proof (issueFetch_frame Date_now s) as Hf.
  set (s1 := issueFetch Date_now s) in *.
  set (s2 := setNextRobTag (nextRobTag s1 + 1) s1).
  destruct (renameSource (Template.rs1 template) s2) as [qj vj].
  destruct (renameSource (Template.rs2 template) s2) as [qk vk].
  match goal with |- context [issueAdvance ?i (issueAllocate ?i ?a ?b ?c ?d s2)] =>
    pose proof (issueAdvance_frame i (issueAllocate i a b c d s2)) as Ha
  end.
  rewrite (wf_lsq _ _ Ha). unfold issueAllocate, isLoadStore.
  cbn [Instruction.op issueInstance Instruction.setPredictedTaken
       Instruction.setExecutionCyclesLeft Instruction.setTotalCycles
       Instruction.setRobTag Instruction.new Instruction.robTag].
  rewrite (orb_comm (String.eqb (Template.op template) "SW")).
  destruct (String.eqb (Template.op template) "LW" || String.eqb (Template.op template) "SW");
    destruct (writesRegister _ _); cbn; subst s2; cbn;
    rewrite (wf_lsq _ _ Hf), ?(wf_nextRobTag _ _ Hf); reflexivity.
Qed.

Lemma issue_mirror Date_now template s :
  tagInv s -> lsqMirrors (rob s) (lsq s) ->
  lsqMirrors (rob (issue Date_now template s)) (lsq (issue Date_now template s)).
Proof.
  intros Htag [Htags Hready].
  destruct (issue_entry Date_now template s) as (entry & Hrob & Hst & Hnr).
  unfold robStatic in Hst. injection Hst as Het _ Heo.
  assert (Hold : Forall (fun l =>
            LsqEntry.isMemReady l = true \/
            exists r, findRob (LsqEntry.robTag l) (rob s ++ [entry]) = Some r /\
                      RobEntry.isReady r = false) (lsq s)).
  { apply (Forall_impl _ _ _ Hready).
    intros l [Hm|(r & Hfind & Hr)]; [left; exact Hm|]. right. exists r.
    split; [apply findRob_app_found; exact Hfind|exact Hr]. }
  rewrite Hrob, issue_lsq. split.
  - rewrite memTags_app, memTags_cons, Heo.
    destruct (isLoadStore (Template.op template)).
    + rewrite map_app, Htags, Het. reflexivity.
    + change (memTags []) with (@nil Z). rewrite app_nil_r. exact Htags.
  - destruct (isLoadStore (Template.op template)); [|exact Hold].
    apply Forall_app. split; [exact Hold|]. constructor; [|constructor]. right.
    exists entry. cbn [LsqEntry.robTag]. split; [|exact Hnr].
    rewrite findRob_app_gone.
    + unfold findRob. cbn. rewrite Het, Z.eqb_refl. reflexivity.
    + pose proof (ti_robRange _ Htag) as Hrange.
      apply Forall_fmap in Hrange. apply (Forall_impl _ _ _ Hrange).
      intros r Hr. cbn in Hr. lia.
Qed.

Lemma issueLoop_mirror Date_now n s :
  1 <= nextRobTag s -> tagInv s -> lsqMirrors (rob s) (lsq s) ->
  lsqMirrors (rob (issueLoop Date_now n s).1) (lsq (issueLoop Date_now n s).1).
Proof.
  revert s. induction n as [|n IH]; intros s Hone Htags Hs; [exact Hs|].
  cbn [issueLoop].
  destruct (stageFetchAndIssue Date_now s) as [s' ok] eqn:Hissue.
  destruct ok.
  - apply stageFetchAndIssue_true in Hissue as (template & _ & ->).
    pose proof (ie_nextRobTag _ _ _ _ _ (issue_effect Date_now template s)) as Hn.
    assert (Hone' : 1 <= nextRobTag (issue Date_now template s)) by lia.
    specialize (IH (issue Date_now template s) Hone'
                  (tagInv_issue Date_now template s Hone Htags)
                  (issue_mirror Date_now template s Htags Hs)).
    destruct (issueLoop Date_now n (issue Date_now template s)) as [s'' k].
    exact IH.
  - apply stageFetchAndIssue_false in Hissue as ->. exact Hs.
Qed.

Lemma step_mirror Date_now s :
  1 <= nextRobTag s -> tagInv s -> stationInv s ->
  mispredicted s = false ->
  lsqMirrors (rob s) (lsq s) ->
  lsqMirrors (rob (step Date_now s)) (lsq (step Date_now s)).
Proof.
  intros Hone Htags Hs Hmis Hmir. unfold step.
  destruct (finished s); [exact Hmir|].
  set (s0 := setClock (clock s + 1) s).
  assert (H0 : stationInv s0) by (destruct Hs; split; assumption).
  assert (T0 : tagInv s0) by (destruct Htags; split; assumption).
  destruct (stageCommit_mirror Date_now s0 Hmis Hmir) as [M1 _].
  apply (stationInv_commit Date_now) in H0.
  apply (tagInv_commit Date_now) in T0.
  pose proof (stageExecute_mirror Date_now _ T0 H0 M1) as M2.
  apply (tagInv_execute Date_now) in T0.
  pose proof (ef_nextRobTag _ _ (stageExecute_frame Date_now (stageCommit Date_now s0)))
    as Hn.
  rewrite stageCommit_nextRobTag in Hn. change (nextRobTag s0) with (nextRobTag s) in Hn.
  set (s1 := stageExecute Date_now (stageCommit Date_now s0)) in *.
  assert (Hone1 : 1 <= nextRobTag s1) by lia.
  pose proof (issueLoop_mirror Date_now (width s1) s1 Hone1 T0 M2) as Hi.
  destruct (issueLoop Date_now (width s1) s1) as [s2 k]. exact Hi.
Qed.

Lemma steps_mirror Date_now parse text n :
  (forall k, (k < n)%nat ->
     mispredicted (steps Date_now k (reset parse text)) = false) ->
  lsqMirrors (rob (steps Date_now n (reset parse text)))
    (lsq (steps Date_now n (reset parse text))).
Proof.
  induction n as [|n IH]; intros Hno.
  - cbn [steps]. rewrite reset_lsq.
    destruct (reset_fields parse text) as (_ & _ & _ & -> & _).
    split; [reflexivity|constructor].
  - cbn [steps]. apply step_mirror.
    + apply steps_nextRobTag.
    + apply tagInv_steps.
    + apply stationInv_steps.
    + apply Hno. lia.
    + apply IH. intros k Hk. apply Hno. lia.
Qed.

(** X20: as long as no branch has been mispredicted, the LSQ mirrors the
    ROB: it holds exactly one entry for each load and store in the ROB, in
    the same order and with the same tag.  Then a load or store that is
    ready at the head of the ROB finds its own entry, marked ready, at the
    head of the LSQ, and the commit stage retires it: the ROB and the LSQ
    lose their heads and the committed count goes up by one. *)
Theorem lsq_mirrors_rob Date_now parse text n :
  wfProgram (parse text).1 ->
  (forall k, (k < n)%nat ->
     mispredicted (steps Date_now k (reset parse text)) = false) ->
  map LsqEntry.robTag (lsq (steps Date_now n (reset parse text)))
  = memTags (rob (steps Date_now n (reset parse text))) /\
  (forall head rest,
     rob (steps Date_now n (reset parse text)) = head :: rest ->
     RobEntry.isReady head = true ->
     isLoadStore (RobEntry.op head) = true ->
     rob (stageCommit Date_now (steps Date_now n (reset parse text))) = rest /\
     instructionsCommitted (stageCommit Date_now (steps Date_now n (reset parse text)))
     = instructionsCommitted (steps Date_now n (reset parse text)) + 1 /\
     exists lsqHead,
       lsq (steps Date_now n (reset parse text))
       = lsqHead :: lsq (stageCommit Date_now (steps Date_now n (reset parse text))) /\
       LsqEntry.robTag lsqHead = RobEntry.robTag head).
Proof.
  intros _ Hno.
  pose proof (steps_mirror Date_now parse text n Hno) as Hmir.
  set (s := steps Date_now n (reset parse text)) in *.
  split; [exact (lq_tags _ _ Hmir)|].
  intros head rest Hrob Hrdy Hls.
  assert (Hmis : mispredicted s = false).
  { unfold mispredicted. rewrite Hrob, Hrdy.
    destruct (isBranch (RobEntry.op head)) eqn:Hbr; [|reflexivity].
    apply isBranch_not_loadStore in Hbr. congruence. }
  destruct (stageCommit_mirror Date_now s Hmis Hmir) as [_ Hretire].
  apply (Hretire head rest Hrob Hrdy Hls).
Qed.

Lemma lsq_mirrors_rob_witness :
  wfProgram (parsedAs lruProgram "").1 /\
  (forall k, (k < 3)%nat ->
     mispredicted (steps tickingClock k (reset (parsedAs lruProgram) "")) = false) /\
  map LsqEntry.robTag (lsq (steps tickingClock 3 (reset (parsedAs lruProgram) "")))
  = memTags (rob (steps tickingClock 3 (reset (parsedAs lruProgram) ""))).
Proof.
  assert (H : wfProgram (parsedAs lruProgram "").1).
  { apply wfProgram_storeProgram. repeat constructor. }
  assert (Hno : forall k, (k < 3)%nat ->
            mispredicted (steps tickingClock k (reset (parsedAs lruProgram) "")) = false).
  { intros k Hk. do 3 (destruct k as [|k]; [vm_compute; reflexivity|]). lia. }
  split; [exact H|]. split; [exact Hno|].
  exact (proj1 (lsq_mirrors_rob tickingClock (parsedAs lruProgram) "" 3 H Hno)).
Defined.
